(** * Orchestration package: task runner, service coordinator, REST adapter

    A shallow embedding of [pkg/task], [pkg/logging], [pkg/orchestration]
    and the two examples of the repository (as an API, as a service),
    followed by the properties proved about them.

    - A Go [error] is [option string]: [None] is [nil], [Some msg] is
      [errors.New(msg)].
    - An [interface{}] value is [any]: [None] is [nil].
    - A call that may panic returns an [Outcome], which tells a panic
      whose recovered value is nil from the others.
    - Goroutines started with [go] and never joined are recorded in a pool of
      the state; [run_goroutine] gives what each does when it runs.
    - The goroutines of [task.Run] are interleaved by a [Schedule]: the order
      in which the task bodies take effect, and for every worker which case
      of its [select] fires.  A task body is a function: it returns or
      panics, possibly after the context is done.  Each body takes effect
      as a whole, at its place in the schedule, also when its worker does
      not wait for it: what is proved is about the slots, the actions and
      the goroutines started, and nothing is claimed of what bodies that
      overlap in time do to a state they share.
    - [strings.ToUpper] is a parameter of the log-level parser; what is
      proved of the parser assumes that it leaves upper-case ASCII letters
      alone. *)

From Stdlib Require Import ZArith Lia.
From stdpp Require Import base option list strings gmap pretty.

Open Scope string_scope.
Open Scope list_scope.

(* ===================================================================== *)
(** * Go values                                                           *)
(* ===================================================================== *)

Definition error := option string.

Definition errors_New (text : string) : error := Some text.

(** How a call ends: it returns, or it panics.  A panic is told by what a
    deferred [recover()] gets from it: a value that is not nil ([Panics]:
    a runtime error, [panic] with a value, and from Go 1.21 on [panic(nil)],
    recovered as a [*runtime.PanicNilError]) or nil ([PanicsNil]:
    [panic(nil)] before Go 1.21 or under [GODEBUG=panicnil=1]; a goroutine
    ended by [runtime.Goexit] runs its deferred calls with a nil [recover()]
    too). *)
Inductive Outcome (A : Type) : Type :=
| Returns (a : A)
| Panics
| PanicsNil.
Arguments Returns {A} a.
Arguments Panics {A}.
Arguments PanicsNil {A}.

(** A value with a [Name] method, such as [*example.MemoryClaim]
    ([ClaimName], [MemoryInMb]). *)
Record object := Object { object_name : string; object_data : Z }.

(** [Nameable]: an interface holding an object, or nil. *)
Definition Nameable := option object.

Inductive value :=
| VBool (b : bool)
| VInt (n : Z)
| VString (s : string)
| VStrings (l : list string)
| VObject (o : object).

Definition any := option value.

(** Converting a [Nameable] to [interface{}] keeps nil. *)
Definition any_of_Nameable (n : Nameable) : any := VObject <$> n.

(** [x == nil] on an interface value. *)
Definition is_nil {A : Type} (x : option A) : bool :=
  match x with None => true | Some _ => false end.

(** ** package context *)

Inductive Context :=
| Background
| WithValue (parent : Context) (key : string) (val : any)
| WithCancel (parent : Context).

(** [ctx.Value(key)]: the innermost binding of [key], nil when there is none. *)
Fixpoint Value (ctx : Context) (key : string) : any :=
  match ctx with
  | Background => None
  | WithValue parent k val => if String.eqb k key then val else Value parent key
  | WithCancel parent => Value parent key
  end.

(** Whether [ctx.Done()] is a channel that can become ready: never for
    [Background]/[TODO], otherwise when some ancestor came from
    [WithCancel], [WithDeadline] or [WithTimeout]. *)
Fixpoint cancellable (ctx : Context) : bool :=
  match ctx with
  | Background => false
  | WithValue parent _ _ => cancellable parent
  | WithCancel _ => true
  end.

(* ===================================================================== *)
(** * package task                                                        *)
(* ===================================================================== *)

Module task.

(** What the scheduler decides during one [Run]: [picks] fixes the order in
    which the task bodies take effect (at each step the pick, modulo the
    number of pending workers, selects one of them); [ctxDoneFirst i] tells
    that in worker [i] the case [<-ctx.Done()] of the [select] fires. *)
Record Schedule := { picks : list nat; ctxDoneFirst : nat -> bool }.

Definition fifo : Schedule := {| picks := []; ctxDoneFirst := fun _ => false |}.

Fixpoint start_order (n : nat) (picks pending : list nat) : list nat :=
  match n with
  | 0 => []
  | S n' =>
      let k := hd 0 picks `mod` length pending in
      match pending !! k with
      | Some count => count :: start_order n' (tl picks) (delete k pending)
      | None => []
      end
  end.

Definition order (sch : Schedule) (n : nat) : list nat :=
  start_order n (picks sch) (seq 0 n).

Section Run.
Context {St : Type}.

(** [Runnable]: [Run(context.Context) error], acting on the state [St]. *)
Definition Runnable := Context -> St -> Outcome error * St.

(** What the worker receives from [workerChan]: the error the task
    returned or, from the deferred [recover()] with [err != nil], "internal
    server error"; when [recover()] is nil nothing is sent, the deferred
    [close(workerChan)] runs and the worker receives the zero value, nil. *)
Definition recovered (out : Outcome error) : error :=
  match out with
  | Returns err => err
  | Panics => errors_New "internal server error"
  | PanicsNil => None
  end.

(** The inner goroutine: [workerChan <- tasks[count].Run(ctx)]; an index
    out of range panics like the task itself. *)
Definition subworker (tasks : list Runnable) (ctx : Context) (count : nat)
    (st : St) : error * St :=
  match tasks !! count with
  | Some t => let '(out, st') := t ctx st in (recovered out, st')
  | None => (recovered Panics, st)
  end.

(** The [select] of a worker. *)
Definition select (ctx : Context) (doneFirst : bool) (err : error) : error :=
  if cancellable ctx && doneFirst then errors_New "timeout" else err.

(** The outer goroutine of task [count]: [taskErrors[count] = ...], with
    [count] below [len(tasks)]. *)
Definition worker (tasks : list Runnable) (ctx : Context) (sch : Schedule)
    (acc : list error * St) (count : nat) : list error * St :=
  let '(err, st') := subworker tasks ctx count (snd acc) in
  (<[count := select ctx (ctxDoneFirst sch count) err]> (fst acc), st').

Definition Run (tasks : list Runnable) (ctx : Context) (sch : Schedule)
    (st : St) : list error * St :=
  let taskErrors := replicate (length tasks) (None : error) in
  foldl (worker tasks ctx sch) (taskErrors, st) (order sch (length tasks)).

(** The state in which worker [i] runs its task: the one left by the workers
    the schedule starts before it. *)
Definition state_before (tasks : list Runnable) (ctx : Context)
    (sch : Schedule) (st : St) (i : nat) (st_i : St) : Prop :=
  exists pre post,
    order sch (length tasks) = pre ++ i :: post /\
    (i ∉ pre) /\ (i ∉ post) /\
    st_i = snd (foldl (worker tasks ctx sch)
                  (replicate (length tasks) None, st) pre).

End Run.

Fixpoint AnyError (errors : list error) : bool :=
  match errors with
  | [] => false
  | err :: rest => if is_nil err then AnyError rest else true
  end.

End task.

(* ===================================================================== *)
(** * package orchestration: the service coordinator (api_service.go)     *)
(* ===================================================================== *)

Module orchestration.
Import task.

Definition ServiceAction := string.
Definition SERVICE_CHECK : ServiceAction := "CHECK".
Definition SERVICE_RECOVER : ServiceAction := "RECOVER".
Definition SERVICE_RUN : ServiceAction := "RUN".
Definition SERVICE_ROLLBACK : ServiceAction := "ROLLBACK".

(** The four actions [RunServiceAction] is called with. *)
Definition valid_action (action : ServiceAction) : Prop :=
  action = SERVICE_CHECK \/ action = SERVICE_RECOVER \/
  action = SERVICE_RUN \/ action = SERVICE_ROLLBACK.

Section Coordinator.

(** Everything the services and the hooks can read and write. *)
Variable W : Type.

Record Service := {
  Name : W -> string;
  Check : Context -> W -> Outcome error * W;
  Recover : Context -> W -> Outcome error * W;
  Run : Context -> W -> Outcome error * W;
  Rollback : Context -> W -> Outcome error * W;
  GetResponse : error -> W -> any
}.

Record CallServicesOpts := {
  SkipRollback : bool;
  OnActionError :
    option (Context -> ServiceAction -> list Service -> list error -> W -> W);
  OnStageStart : option (Context -> list Service -> W -> W)
}.

(** [Recoverable]: the optional [Recovery] func, and its [Recover] method. *)
Record Recoverable := { Recovery : option (Context -> W -> Outcome error * W) }.

Definition Recoverable_Recover (r : Recoverable) (ctx : Context) (w : W)
    : Outcome error * W :=
  match Recovery r with
  | Some recovery => recovery ctx w
  | None => (Returns (errors_New "recovery not possible"), w)
  end.

(** [Responder]: a stored response with an "ok" default. *)
Record Responder := {
  Responder_Response : any;
  UseNullResponseAsDefault : bool
}.

Definition Responder_GetResponse (r : Responder) (err : error) : any :=
  match err with
  | Some msg => Some (VString msg)
  | None =>
      if negb (UseNullResponseAsDefault r) && is_nil (Responder_Response r)
      then Some (VString "ok")
      else Responder_Response r
  end.

(** What the coordinator did, in the order it did it: a record kept for
    the proofs, next to the world the Go code acts on. *)
Inductive Event :=
| EvRunServiceAction (action : ServiceAction) (services : list Service)
| EvInvoke (action : ServiceAction) (service : Service)
| EvOnActionError (action : ServiceAction) (services : list Service)
    (errs : list error)
| EvOnStageStart (services : list Service).

(** The bodies of the [go] statements of api_service.go. *)
Inductive Goroutine :=
| GoRunServiceAction (ctx : Context) (services : list Service)
    (action : ServiceAction)
| GoRollbackStages (ctx : Context) (stages : list (list Service)) (i : nat)
| GoRollbackErrorReporter (ctx : Context) (services : list Service)
    (errs : list error).

Record State := {
  world : W;
  trace : list Event;
  spawned : list Goroutine;
  scheds : list Schedule
}.

Definition M (A : Type) : Type := State -> A * State.

Definition ret {A : Type} (a : A) : M A := fun st => (a, st).

Definition bind {A B : Type} (m : M A) (k : A -> M B) : M B :=
  fun st => let '(a, st') := m st in k a st'.

Notation "x <- m ;; k" := (bind m (fun x => k))
  (at level 100, m at next level, right associativity).
Notation "m ;;; k" := (bind m (fun _ => k))
  (at level 100, right associativity).

Definition on_world (f : W -> W) : M unit := fun st =>
  (tt, {| world := f (world st); trace := trace st;
          spawned := spawned st; scheds := scheds st |}).

Definition emit (ev : Event) : M unit := fun st =>
  (tt, {| world := world st; trace := trace st ++ [ev];
          spawned := spawned st; scheds := scheds st |}).

(** A [go] statement: the goroutine joins the pool, the caller goes on. *)
Definition go (g : Goroutine) : M unit := fun st =>
  (tt, {| world := world st; trace := trace st;
          spawned := spawned st ++ [g]; scheds := scheds st |}).

Definition next_schedule : M Schedule := fun st =>
  (hd fifo (scheds st),
   {| world := world st; trace := trace st;
      spawned := spawned st; scheds := tl (scheds st) |}).

(** A method of a service, called on the world. *)
Definition call (method : Context -> W -> Outcome error * W) (ctx : Context)
    : M (Outcome error) := fun st =>
  let '(out, w) := method ctx (world st) in
  (out, {| world := w; trace := trace st;
           spawned := spawned st; scheds := scheds st |}).

(** The process-wide hooks. *)
Variable ActionLogger : Context -> list Service -> ServiceAction -> W -> W.
Variable RollbackErrorReporter :
  option (Context -> list Service -> list error -> W -> W).

Record ProtoService := { service : Service; action : ServiceAction }.

Definition ProtoService_Run (p : ProtoService) (ctx : Context)
    : M (Outcome error) :=
  if String.eqb (action p) SERVICE_CHECK then
    emit (EvInvoke SERVICE_CHECK (service p)) ;;;
    call (Check (service p)) ctx
  else if String.eqb (action p) SERVICE_RECOVER then
    emit (EvInvoke SERVICE_RECOVER (service p)) ;;;
    call (Recover (service p)) ctx
  else if String.eqb (action p) SERVICE_RUN then
    emit (EvInvoke SERVICE_RUN (service p)) ;;;
    call (Run (service p)) ctx
  else if String.eqb (action p) SERVICE_ROLLBACK then
    emit (EvInvoke SERVICE_ROLLBACK (service p)) ;;;
    call (Rollback (service p)) ctx
  else
    ret (Returns (errors_New
      ("ProtoService Run called with invalid action (did you init?): "
         +:+ action p))).

(** [[]Service] to [[]task.Runnable], using [ProtoService]. *)
Definition proto_tasks (action : ServiceAction) (services : list Service)
    : list (@Runnable State) :=
  (fun service =>
     ProtoService_Run {| service := service; action := action |})
  <$> services.

Definition RunServiceAction (ctx : Context) (services : list Service)
    (action : ServiceAction) : M (list error) :=
  emit (EvRunServiceAction action services) ;;;
  on_world (ActionLogger ctx services action) ;;;
  let tasks := proto_tasks action services in
  sch <- next_schedule ;;
  errs <- task.Run tasks ctx sch ;;
  match RollbackErrorReporter with
  | Some _ =>
      if String.eqb action SERVICE_ROLLBACK
      then go (GoRollbackErrorReporter ctx services errs) ;;; ret errs
      else ret errs
  | None => ret errs
  end.

Definition on_action_error (opts : CallServicesOpts) (ctx : Context)
    (action : ServiceAction) (services : list Service) (errs : list error)
    : M unit :=
  match OnActionError opts with
  | Some hook =>
      emit (EvOnActionError action services errs) ;;;
      on_world (hook ctx action services errs)
  | None => ret tt
  end.

(** Lines 123-135 of [CallServices]: the RUN phase, reached with the error
    list [errs] of the CHECK phase. *)
Definition run_phase (ctx : Context) (services : list Service)
    (opts : CallServicesOpts) (errs : list error) : M (list error * error) :=
  if is_nil (Value ctx "dryRun") then
    errs <- RunServiceAction ctx services SERVICE_RUN ;;
    if AnyError errs then
      on_action_error opts ctx SERVICE_RUN services errs ;;;
      (if negb (SkipRollback opts)
       then go (GoRunServiceAction ctx services SERVICE_ROLLBACK)
       else ret tt) ;;;
      ret (errs, errors_New "one or more runs failed")
    else ret (errs, None)
  else ret (errs, None).

Definition CallServices (ctx : Context) (services : list Service)
    (opts : CallServicesOpts) : M (list error * error) :=
  errs <- RunServiceAction ctx services SERVICE_CHECK ;;
  if AnyError errs then
    on_action_error opts ctx SERVICE_CHECK services errs ;;;
    if is_nil (Value ctx "dryRun") && negb (is_nil (Value ctx "recover")) then
      rerrs <- RunServiceAction ctx services SERVICE_RECOVER ;;
      if AnyError rerrs then
        ret (errs, errors_New
               "unable to recover from one or more failed pre-run checks")
      else run_phase ctx services opts errs
    else ret (errs, errors_New "one or more pre-run checks failed")
  else run_phase ctx services opts errs.

Definition on_stage_start (opts : CallServicesOpts) (ctx : Context)
    (services : list Service) : M unit :=
  match OnStageStart opts with
  | Some hook => emit (EvOnStageStart services) ;;; on_world (hook ctx services)
  | None => ret tt
  end.

(** The loop of [CallStagedServices] from index [i] on, [rest] being
    [stages[i:]]. *)
Fixpoint staged_loop (ctx : Context) (stages : list (list Service))
    (opts : CallServicesOpts) (i : nat) (rest : list (list Service))
    : M (nat * list error * error) :=
  match rest with
  | [] => ret (length stages, [], None)
  | stage :: rest' =>
      on_stage_start opts ctx stage ;;;
      r <- CallServices ctx stage opts ;;
      match snd r with
      | Some msg =>
          (if negb (SkipRollback opts)
           then go (GoRollbackStages ctx stages i)
           else ret tt) ;;;
          ret (i, fst r, Some msg)
      | None => staged_loop ctx stages opts (S i) rest'
      end
  end.

Definition CallStagedServices (ctx : Context) (stages : list (list Service))
    (opts : CallServicesOpts) : M (nat * list error * error) :=
  staged_loop ctx stages opts 0 stages.

(** [for j := i - 1; j >= 0; j--] running
    [RunServiceAction(ctx, stages[j], SERVICE_ROLLBACK)]; an index out of
    range would panic and end the goroutine. *)
Fixpoint rollback_stages (ctx : Context) (stages : list (list Service))
    (i : nat) : M unit :=
  match i with
  | 0 => ret tt
  | S j =>
      match stages !! j with
      | Some stage =>
          RunServiceAction ctx stage SERVICE_ROLLBACK ;;;
          rollback_stages ctx stages j
      | None => ret tt
      end
  end.

(** What a goroutine of the pool does when it runs. *)
Definition run_goroutine (g : Goroutine) : M unit :=
  match g with
  | GoRunServiceAction ctx services action =>
      RunServiceAction ctx services action ;;; ret tt
  | GoRollbackStages ctx stages i => rollback_stages ctx stages i
  | GoRollbackErrorReporter ctx services errs =>
      match RollbackErrorReporter with
      | Some reporter => on_world (reporter ctx services errs)
      | None => ret tt
      end
  end.

(** ** Reading the record of a call *)

(** What the call of the method [m] of a service leaves behind. *)
Definition invoked (action : ServiceAction) (service : Service)
    (m : Context -> W -> Outcome error * W) (ctx : Context) (st : State)
    : State :=
  {| world := snd (m ctx (world st));
     trace := trace st ++ [EvInvoke action service];
     spawned := spawned st;
     scheds := scheds st |}.

(** The state in which [RunServiceAction] hands its tasks to [task.Run]:
    the action logged, one schedule taken. *)
Definition entered (ctx : Context) (services : list Service)
    (action : ServiceAction) (st : State) : State :=
  snd ((emit (EvRunServiceAction action services) ;;;
        on_world (ActionLogger ctx services action) ;;;
        next_schedule) st).

(** The method [ProtoService.Run] dispatches to. *)
Definition dispatch (action : ServiceAction) (service : Service)
    : option (Context -> W -> Outcome error * W) :=
  if String.eqb action SERVICE_CHECK then Some (Check service)
  else if String.eqb action SERVICE_RECOVER then Some (Recover service)
  else if String.eqb action SERVICE_RUN then Some (Run service)
  else if String.eqb action SERVICE_ROLLBACK then Some (Rollback service)
  else None.

(** The action an event belongs to, for the events that have one. *)
Definition event_action (ev : Event) : option ServiceAction :=
  match ev with
  | EvRunServiceAction action _ => Some action
  | EvInvoke action _ => Some action
  | EvOnActionError _ _ _ => None
  | EvOnStageStart _ => None
  end.

(** The invocations of one [RunServiceAction], in the order [ord] in which
    the workers start. *)
Definition invocations (action : ServiceAction) (services : list Service)
    (ord : list nat) : list Event :=
  omap (fun i => EvInvoke action <$> services !! i) ord.

(** The call that leads from [st] to [st'] added events to the record, all
    of them satisfying [P]. *)
Definition extends (P : Event -> Prop) (st st' : State) : Prop :=
  exists evs, trace st' = trace st ++ evs /\ Forall P evs.

(** The events of rolling back the batches [stages], one after the other:
    each batch is announced, then every service of it is invoked, before
    the next batch starts. *)
Inductive rolled_back : list (list Service) -> list Event -> Prop :=
| rolled_back_nil : rolled_back [] []
| rolled_back_cons stage stages invs evs :
    invs ≡ₚ EvInvoke SERVICE_ROLLBACK <$> stage ->
    rolled_back stages evs ->
    rolled_back (stage :: stages)
      (EvRunServiceAction SERVICE_ROLLBACK stage :: invs ++ evs).

(** One iteration of the loop of [CallStagedServices]. *)
Definition stage_result (ctx : Context) (opts : CallServicesOpts)
    (stage : list Service) : M (list error * error) :=
  on_stage_start opts ctx stage ;;; CallServices ctx stage opts.

(** The state after the stages [stages] when each of them ends without a
    summary failure. *)
Fixpoint stages_pass (ctx : Context) (opts : CallServicesOpts)
    (stages : list (list Service)) (st : State) : option State :=
  match stages with
  | [] => Some st
  | stage :: rest =>
      let r := stage_result ctx opts stage st in
      match snd (fst r) with
      | None => stages_pass ctx opts rest (snd r)
      | Some _ => None
      end
  end.

(** ** The response aggregator (payload.go) *)

Record Payload := { Payload_Response : any }.

Definition Payload_GetResponse (p : Payload) (err : error) : any :=
  match err with
  | Some msg => Some (VString msg)
  | None =>
      if is_nil (Payload_Response p) then Some (VString "ok")
      else Payload_Response p
  end.

Record ResponseDetail := { ResponseDetail_Name : string; Detail : any }.

Record Response := { Status : string; Details : list ResponseDetail }.

Definition StatusOK : Z := 200.
Definition StatusInternalServerError : Z := 500.

Definition generateResponseContainer (err : error) : Z * Response :=
  match err with
  | Some msg => (StatusInternalServerError, {| Status := msg; Details := [] |})
  | None => (StatusOK, {| Status := "ok"; Details := [] |})
  end.

(** The loop [for i, service := range services] from index [i] on;
    [errs[i]] out of range panics. *)
Fixpoint append_details (w : W) (errs : list error) (i : nat)
    (services : list Service) (details : list ResponseDetail)
    : Outcome (list ResponseDetail) :=
  match services with
  | [] => Returns details
  | service :: rest =>
      match errs !! i with
      | None => Panics
      | Some err =>
          let detail := GetResponse service err w in
          append_details w errs (S i) rest
            (if is_nil detail then details
             else details ++ [{| ResponseDetail_Name := Name service w;
                                 Detail := detail |}])
      end
  end.

Definition GenerateResponse (services : list Service) (errs : list error)
    (err : error) (w : W) : Outcome (Z * Response) :=
  let '(status, response) := generateResponseContainer err in
  match append_details w errs 0 services (Details response) with
  | Returns details =>
      Returns (status, {| Status := Status response; Details := details |})
  | Panics => Panics
  | PanicsNil => PanicsNil
  end.

Definition CallServicesAndReply (ctx : Context) (services : list Service)
    (opts : CallServicesOpts) : M (Outcome (Z * Response)) :=
  r <- CallServices ctx services opts ;;
  fun st => (GenerateResponse services (fst r) (snd r) (world st), st).

End Coordinator.
Arguments world {W} _.
Arguments trace {W} _.
Arguments spawned {W} _.
Arguments scheds {W} _.
Arguments SkipRollback {W} _.
Arguments OnActionError {W} _.
Arguments OnStageStart {W} _.
Arguments EvRunServiceAction {W} _ _.
Arguments EvInvoke {W} _ _.
Arguments EvOnActionError {W} _ _ _.
Arguments EvOnStageStart {W} _.
Arguments GoRunServiceAction {W} _ _ _.
Arguments GoRollbackStages {W} _ _ _.
Arguments GoRollbackErrorReporter {W} _ _ _.
Arguments ret {W A} _ _.
Arguments bind {W A B} _ _ _.
Arguments on_world {W} _ _.
Arguments emit {W} _ _.
Arguments go {W} _ _.
Arguments next_schedule {W} _.
Arguments call {W} _ _ _.
Arguments service {W} _.
Arguments action {W} _.
Arguments ProtoService_Run {W} _ _ _.
Arguments RunServiceAction {W} _ _ _ _ _ _.
Arguments on_action_error {W} _ _ _ _ _ _.
Arguments run_phase {W} _ _ _ _ _ _ _.
Arguments CallServices {W} _ _ _ _ _ _.
Arguments on_stage_start {W} _ _ _ _.
Arguments staged_loop {W} _ _ _ _ _ _ _ _.
Arguments CallStagedServices {W} _ _ _ _ _ _.
Arguments rollback_stages {W} _ _ _ _ _ _.
Arguments run_goroutine {W} _ _ _ _.
Arguments append_details {W} _ _ _ _ _.
Arguments GenerateResponse {W} _ _ _ _.
Arguments CallServicesAndReply {W} _ _ _ _ _ _.
Arguments dispatch {W} _ _.
Arguments entered {W} _ _ _ _ _.
Arguments invoked {W} _ _ _ _ _.
Arguments proto_tasks {W} _ _.
Arguments event_action {W} _.
Arguments invocations {W} _ _ _.
Arguments rolled_back {W} _ _.
Arguments extends {W} _ _ _.
Arguments stage_result {W} _ _ _ _ _ _.
Arguments stages_pass {W} _ _ _ _ _ _.
Arguments Name {W} _ _.
Arguments Check {W} _ _ _.
Arguments Recover {W} _ _ _.
Arguments Run {W} _ _ _.
Arguments Rollback {W} _ _ _.
Arguments GetResponse {W} _ _ _.
Arguments Recovery {W} _.
Arguments Recoverable_Recover {W} _ _ _.

(* ===================================================================== *)
(** * The REST-to-service adapter (api_rest.go)                           *)
(* ===================================================================== *)

Definition RestApiAction := string.
Definition REST_API_GET : RestApiAction := "GET".
Definition REST_API_POST : RestApiAction := "POST".
Definition REST_API_PUT : RestApiAction := "PUT".
Definition REST_API_DELETE : RestApiAction := "DELETE".
Definition REST_API_LIST : RestApiAction := "LIST".

Section Rest.

(** What stands behind the API: the state its five calls read and write. *)
Variable A : Type.

Record RestApi := {
  Get : Context -> string -> A -> (Nameable * error) * A;
  Post : Context -> Nameable -> A -> (any * error) * A;
  Put : Context -> Nameable -> A -> (any * error) * A;
  Delete : Context -> string -> A -> (any * error) * A;
  List : Context -> A -> (any * error) * A
}.

Record SimpleRestApiService := {
  SimpleRestApiService_Recoverable : Recoverable A;
  ApiName : string;
  Api : RestApi;
  Action : RestApiAction;
  RequestName : string;
  RequestPayload : Nameable;
  SimpleRestApiService_Response : any
}.

Record RestApiService := {
  RestApiService_SimpleRestApiService : SimpleRestApiService;
  backup : Nameable
}.

Definition RestApiAsService (api : RestApi) (action : RestApiAction)
    (apiName name : string) (payload : Nameable) : RestApiService :=
  {| RestApiService_SimpleRestApiService :=
       {| SimpleRestApiService_Recoverable := {| Recovery := None |};
          ApiName := apiName;
          Api := api;
          Action := action;
          RequestName := name;
          RequestPayload := payload;
          SimpleRestApiService_Response := None |};
     backup := None |}.

Definition SimpleRestApiService_Name (proto : SimpleRestApiService) : string :=
  ApiName proto.

Definition SimpleRestApiService_GetResponse (proto : SimpleRestApiService)
    (err : error) : any :=
  match err with
  | Some msg => Some (VString msg)
  | None => SimpleRestApiService_Response proto
  end.

Definition SimpleRestApiService_Check (proto : SimpleRestApiService)
    (ctx : Context) (a : A) : Outcome error * SimpleRestApiService * A :=
  (Returns None, proto, a).

Definition store_response (proto : SimpleRestApiService) (response : any)
    : SimpleRestApiService :=
  {| SimpleRestApiService_Recoverable := SimpleRestApiService_Recoverable proto;
     ApiName := ApiName proto;
     Api := Api proto;
     Action := Action proto;
     RequestName := RequestName proto;
     RequestPayload := RequestPayload proto;
     SimpleRestApiService_Response := response |}.

Definition SimpleRestApiService_Run (proto : SimpleRestApiService)
    (ctx : Context) (a : A) : Outcome error * SimpleRestApiService * A :=
  if String.eqb (Action proto) REST_API_GET then
    let '(response, err, a') := Get (Api proto) ctx (RequestName proto) a in
    (Returns err, store_response proto (any_of_Nameable response), a')
  else if String.eqb (Action proto) REST_API_POST then
    let '(response, err, a') := Post (Api proto) ctx (RequestPayload proto) a in
    (Returns err, store_response proto response, a')
  else if String.eqb (Action proto) REST_API_PUT then
    let '(response, err, a') := Put (Api proto) ctx (RequestPayload proto) a in
    (Returns err, store_response proto response, a')
  else if String.eqb (Action proto) REST_API_DELETE then
    let '(response, err, a') := Delete (Api proto) ctx (RequestName proto) a in
    (Returns err, store_response proto response, a')
  else if String.eqb (Action proto) REST_API_LIST then
    let '(response, err, a') := List (Api proto) ctx a in
    (Returns err, store_response proto response, a')
  else
    (Returns (errors_New
       ("unrecognized RestApiService Action (did you init?): "
          +:+ Action proto)),
     proto, a).

Definition SimpleRestApiService_Rollback (proto : SimpleRestApiService)
    (ctx : Context) (a : A) : Outcome error * SimpleRestApiService * A :=
  (Returns None, proto, a).

Definition store_backup (proto : RestApiService) (b : Nameable)
    : RestApiService :=
  {| RestApiService_SimpleRestApiService :=
       RestApiService_SimpleRestApiService proto;
     backup := b |}.

Definition RestApiService_Check (proto : RestApiService) (ctx : Context)
    (a : A) : Outcome error * RestApiService * A :=
  let simple := RestApiService_SimpleRestApiService proto in
  if String.eqb (Action simple) REST_API_GET
     || String.eqb (Action simple) REST_API_LIST
  then (Returns None, proto, a)
  else
    let '(got, err, a') := Get (Api simple) ctx (RequestName simple) a in
    if String.eqb (Action simple) REST_API_POST then
      if is_nil err then
        (Returns (errors_New
           ("cannot create " +:+ RequestName simple
              +:+ " because it already exists")),
         proto, a')
      else (Returns None, proto, a')
    else (Returns err, store_backup proto got, a').

(** [proto.RequestPayload.Name()] on a nil payload is a nil dereference. *)
Definition RestApiService_Rollback (proto : RestApiService) (ctx : Context)
    (a : A) : Outcome error * RestApiService * A :=
  let simple := RestApiService_SimpleRestApiService proto in
  if String.eqb (Action simple) REST_API_PUT then
    let '(_, err, a') := Put (Api simple) ctx (backup proto) a in
    (Returns err, proto, a')
  else if String.eqb (Action simple) REST_API_POST then
    match RequestPayload simple with
    | Some payload =>
        let name := object_name payload in
        let '(_, err, a') := Delete (Api simple) ctx name a in
        (Returns err, proto, a')
    | None => (Panics, proto, a)
    end
  else if String.eqb (Action simple) REST_API_DELETE then
    let '(_, err, a') := Post (Api simple) ctx (backup proto) a in
    (Returns err, proto, a')
  else (Returns None, proto, a).

(** The methods [RestApiService] takes over from the embedded
    [SimpleRestApiService] and, through it, from [Recoverable]. *)
Definition RestApiService_Run (proto : RestApiService) (ctx : Context)
    (a : A) : Outcome error * RestApiService * A :=
  let '(out, simple, a') :=
    SimpleRestApiService_Run
      (RestApiService_SimpleRestApiService proto) ctx a in
  (out, {| RestApiService_SimpleRestApiService := simple;
           backup := backup proto |}, a').

Definition RestApiService_Recover (proto : RestApiService) (ctx : Context)
    (a : A) : Outcome error * RestApiService * A :=
  let '(out, a') :=
    Recoverable_Recover
      (SimpleRestApiService_Recoverable
         (RestApiService_SimpleRestApiService proto)) ctx a in
  (out, proto, a').

Definition RestApiService_Name (proto : RestApiService) : string :=
  SimpleRestApiService_Name (RestApiService_SimpleRestApiService proto).

Definition RestApiService_GetResponse (proto : RestApiService) (err : error)
    : any :=
  SimpleRestApiService_GetResponse
    (RestApiService_SimpleRestApiService proto) err.

(** *** The calls an API receives

    [logged api] is [api] keeping a list of the calls made to it. *)
Inductive ApiCall :=
| CallGet (name : string)
| CallPost (obj : Nameable)
| CallPut (obj : Nameable)
| CallDelete (name : string)
| CallList.

End Rest.

Arguments Get {A} _ _ _ _.
Arguments Post {A} _ _ _ _.
Arguments Put {A} _ _ _ _.
Arguments Delete {A} _ _ _ _.
Arguments List {A} _ _ _.
Arguments ApiName {A} _.
Arguments Api {A} _.
Arguments Action {A} _.
Arguments RequestName {A} _.
Arguments RequestPayload {A} _.
Arguments SimpleRestApiService_Response {A} _.
Arguments SimpleRestApiService_Recoverable {A} _.
Arguments RestApiService_SimpleRestApiService {A} _.
Arguments backup {A} _.
Arguments RestApiAsService {A} _ _ _ _ _.
Arguments SimpleRestApiService_GetResponse {A} _ _.
Arguments SimpleRestApiService_Check {A} _ _ _.
Arguments SimpleRestApiService_Run {A} _ _ _.
Arguments SimpleRestApiService_Rollback {A} _ _ _.
Arguments RestApiService_Check {A} _ _ _.
Arguments RestApiService_Rollback {A} _ _ _.
Arguments RestApiService_Run {A} _ _ _.
Arguments RestApiService_Recover {A} _ _ _.
Arguments RestApiService_Name {A} _.
Arguments RestApiService_GetResponse {A} _ _.
Arguments store_backup {A} _ _.
Arguments store_response {A} _ _.

Definition logged {A : Type} (api : RestApi A) : RestApi (A * list ApiCall) :=
  {| Get := fun ctx name s =>
       let '(r, a) := Get api ctx name (fst s) in
       (r, (a, snd s ++ [CallGet name]));
     Post := fun ctx obj s =>
       let '(r, a) := Post api ctx obj (fst s) in
       (r, (a, snd s ++ [CallPost obj]));
     Put := fun ctx obj s =>
       let '(r, a) := Put api ctx obj (fst s) in
       (r, (a, snd s ++ [CallPut obj]));
     Delete := fun ctx name s =>
       let '(r, a) := Delete api ctx name (fst s) in
       (r, (a, snd s ++ [CallDelete name]));
     List := fun ctx s =>
       let '(r, a) := List api ctx (fst s) in
       (r, (a, snd s ++ [CallList])) |}.

(** *** Adapters as services

    A [Service] made by [RestApiAsService] is a pointer to a
    [RestApiService]: the structs live in a heap next to the state behind
    the APIs, and a service is the address of its struct. *)
Record RestWorld (A : Type) := {
  heap : list (RestApiService A);
  backend : A
}.
Arguments heap {A} _.
Arguments backend {A} _.

Definition method_at {A : Type} (p : nat)
    (method : RestApiService A -> Context -> A ->
              Outcome error * RestApiService A * A)
    (ctx : Context) (w : RestWorld A) : Outcome error * RestWorld A :=
  match heap w !! p with
  | Some proto =>
      let '(out, proto', a') := method proto ctx (backend w) in
      (out, {| heap := <[p := proto']> (heap w); backend := a' |})
  | None => (Panics, w)
  end.

Definition service_at {A : Type} (p : nat) : Service (RestWorld A) :=
  {| Name := fun w => from_option RestApiService_Name "" (heap w !! p);
     Check := method_at p RestApiService_Check;
     Recover := method_at p RestApiService_Recover;
     Run := method_at p RestApiService_Run;
     Rollback := method_at p RestApiService_Rollback;
     GetResponse := fun err w =>
       match heap w !! p with
       | Some proto => RestApiService_GetResponse proto err
       | None => None
       end |}.

End orchestration.

(* ===================================================================== *)
(** * The example API (internal/example, cmd/example_as_api)              *)
(* ===================================================================== *)

Module example.
Import orchestration.

(** Go's [int] on a 64-bit platform. *)
Definition int (z : Z) : Z := ((z + 2 ^ 63) `mod` 2 ^ 64 - 2 ^ 63)%Z.

(** [MemoryClaim{ClaimName, MemoryInMb}]. *)
Definition MemoryClaim (ClaimName : string) (MemoryInMb : Z) : object :=
  {| object_name := ClaimName; object_data := MemoryInMb |}.
Definition ClaimName : object -> string := object_name.
Definition MemoryInMb : object -> Z := object_data.

Record FakeDb := { fakeDb : gmap string object; AvailableMemoryMb : Z }.

Definition FakeDbRead (name : string) (db : FakeDb) : option object :=
  fakeDb db !! name.

Definition FakeDbWrite (claim : object) (db : FakeDb) : FakeDb :=
  {| fakeDb := <[ClaimName claim := claim]> (fakeDb db);
     AvailableMemoryMb := AvailableMemoryMb db |}.

Definition FakeDbDelete (name : string) (db : FakeDb) : FakeDb :=
  {| fakeDb := delete name (fakeDb db);
     AvailableMemoryMb := AvailableMemoryMb db |}.

Definition FakeDbList (db : FakeDb) : list string :=
  (fun item => ClaimName (snd item)) <$> map_to_list (fakeDb db).

Definition FakeDbGetAvailableMemory (db : FakeDb) : Z := AvailableMemoryMb db.

Definition FakeDbUpdateAvailableMemory (update : Z) (db : FakeDb) : FakeDb :=
  {| fakeDb := fakeDb db;
     AvailableMemoryMb := int (AvailableMemoryMb db + update) |}.

Definition MyServiceApi_Get (Datacenter : string) (ctx : Context)
    (name : string) (db : FakeDb) : (Nameable * error) * FakeDb :=
  match FakeDbRead (Datacenter +:+ name) db with
  | Some claim => ((Some claim, None), db)
  | None => ((None, errors_New "not found"), db)
  end.

Definition MyServiceApi_Post (Datacenter : string) (ctx : Context)
    (obj : Nameable) (db : FakeDb) : (any * error) * FakeDb :=
  match obj with
  | None => ((None, errors_New "not a memory claim"), db)
  | Some rawClaim =>
      let claim :=
        MemoryClaim (Datacenter +:+ ClaimName rawClaim) (MemoryInMb rawClaim) in
      if negb (is_nil (FakeDbRead (ClaimName claim) db)) then
        ((None, errors_New "already exists"), db)
      else if (int (FakeDbGetAvailableMemory db - MemoryInMb claim) <? 0)%Z then
        ((None, errors_New "not enough memory available"), db)
      else
        let db := FakeDbWrite claim db in
        let db := FakeDbUpdateAvailableMemory (int (- MemoryInMb claim)) db in
        if (FakeDbGetAvailableMemory db <? 0)%Z then
          ((None, errors_New "not enough memory available after claiming"), db)
        else ((Some (VString "ok"), None), db)
  end.

Definition MyServiceApi_Put (Datacenter : string) (ctx : Context)
    (obj : Nameable) (db : FakeDb) : (any * error) * FakeDb :=
  match obj with
  | None => ((None, errors_New "not a memory claim"), db)
  | Some rawClaim =>
      let claim :=
        MemoryClaim (Datacenter +:+ ClaimName rawClaim) (MemoryInMb rawClaim) in
      match FakeDbRead (ClaimName claim) db with
      | None => ((None, errors_New "not found"), db)
      | Some existingClaim =>
          if (int (int (FakeDbGetAvailableMemory db + MemoryInMb existingClaim)
                   - MemoryInMb claim) <? 0)%Z then
            ((None, errors_New "not enough memory available"), db)
          else
            let db := FakeDbWrite claim db in
            let db :=
              FakeDbUpdateAvailableMemory
                (int (MemoryInMb existingClaim - MemoryInMb claim)) db in
            ((Some (VString "ok"), None), db)
      end
  end.

Definition MyServiceApi_Delete (Datacenter : string) (ctx : Context)
    (name : string) (db : FakeDb) : (any * error) * FakeDb :=
  let name := Datacenter +:+ name in
  match FakeDbRead name db with
  | None => ((None, errors_New "not found"), db)
  | Some claim =>
      let db := FakeDbDelete name db in
      let db := FakeDbUpdateAvailableMemory (MemoryInMb claim) db in
      ((Some (VString "ok"), None), db)
  end.

Definition MyServiceApi_List (Datacenter : string) (ctx : Context)
    (db : FakeDb) : (any * error) * FakeDb :=
  ((Some (VStrings (FakeDbList db)), None), db).

Definition MyServiceApi (Datacenter : string) : RestApi FakeDb :=
  {| Get := MyServiceApi_Get Datacenter;
     Post := MyServiceApi_Post Datacenter;
     Put := MyServiceApi_Put Datacenter;
     Delete := MyServiceApi_Delete Datacenter;
     List := MyServiceApi_List Datacenter |}.

(** The four services of cmd/example_as_api/main.go, for a claim, with the
    request name [name] (main.go passes the empty name). *)
Definition datacenters : list string :=
  ["DC1_BLUE"; "DC1_RED"; "DC2_BLUE"; "DC2_RED"].

Definition adapters (action : RestApiAction) (name : string) (claim : object)
    : list (RestApiService FakeDb) :=
  (fun dc => RestApiAsService (MyServiceApi dc) action
               ("MyService Create " +:+ dc) name (Some claim)) <$> datacenters.

Definition services : list (Service (RestWorld FakeDb)) :=
  service_at <$> seq 0 (length datacenters).

(** The process-wide hooks of main.go: no action log, a reporter. *)
Definition ActionLogger (_ : Context)
    (_ : list (Service (RestWorld FakeDb))) (_ : ServiceAction)
    (w : RestWorld FakeDb) : RestWorld FakeDb := w.

Definition RollbackErrorReporter :
    option (Context -> list (Service (RestWorld FakeDb)) -> list error ->
            RestWorld FakeDb -> RestWorld FakeDb) :=
  Some (fun _ _ _ w => w).

Definition fresh : FakeDb := {| fakeDb := ∅; AvailableMemoryMb := 2048 |}.

Definition init (protos : list (RestApiService FakeDb)) (db : FakeDb)
    (scheds : list task.Schedule) : State (RestWorld FakeDb) :=
  {| world := {| heap := protos; backend := db |};
     trace := [];
     spawned := [];
     scheds := scheds |}.

(** [CallServicesOpts{}]. *)
Definition opts : CallServicesOpts (RestWorld FakeDb) :=
  {| SkipRollback := false; OnActionError := None; OnStageStart := None |}.

(** [context.WithValue(context.Background(), "dryRun", false)]: the key is
    set, to a value that is not true. *)
Definition dryRun : Context := WithValue Background "dryRun" (Some (VBool false)).

(** [context.WithValue(context.Background(), "recover", true)]. *)
Definition recovering : Context :=
  WithValue Background "recover" (Some (VBool true)).

(** Both keys set. *)
Definition dryRun_recovering : Context :=
  WithValue recovering "dryRun" (Some (VBool true)).

(** A claim of 100 MB under the name "claim", and one of 600 MB: four of
    the latter exceed the 2048 MB there are. *)
Definition small : object := MemoryClaim "claim" 100.
Definition large : object := MemoryClaim "claim" 600.

(** The store after the four small claims were created. *)
Definition claimed : FakeDb :=
  backend (world (snd (CallServices ActionLogger RollbackErrorReporter
                         Background services opts
                         (init (adapters REST_API_POST "" small) fresh [])))).

(** The recovery of the readme for an update of what does not exist: create
    it.  [svc.Recovery = func(ctx) error { ... }] on each adapter. *)
Definition create (proto : RestApiService FakeDb) (ctx : Context) (db : FakeDb)
    : Outcome error * FakeDb :=
  let simple := RestApiService_SimpleRestApiService proto in
  let '(_, err, db') := Post (Api simple) ctx (RequestPayload simple) db in
  (Returns err, db').

Definition with_Recovery (proto : RestApiService FakeDb) : RestApiService FakeDb :=
  let simple := RestApiService_SimpleRestApiService proto in
  {| RestApiService_SimpleRestApiService :=
       {| SimpleRestApiService_Recoverable :=
            {| Recovery := Some (create proto) |};
          ApiName := ApiName simple;
          Api := Api simple;
          Action := Action simple;
          RequestName := RequestName simple;
          RequestPayload := RequestPayload simple;
          SimpleRestApiService_Response :=
            SimpleRestApiService_Response simple |};
     backup := backup proto |}.

(** Two stages over the same four adapters: the first two, then the rest. *)
Definition stages : list (list (Service (RestWorld FakeDb))) :=
  [service_at <$> [0; 1]; service_at <$> [2; 3]].

(** A task that panics, and a schedule in which the context is done before
    any task is through. *)
Definition panicking : @task.Runnable unit := fun _ st => (Panics, st).
Definition panicking_nil : @task.Runnable unit := fun _ st => (PanicsNil, st).
Definition succeeding : @task.Runnable unit := fun _ st => (Returns None, st).
Definition late : task.Schedule :=
  {| task.picks := []; task.ctxDoneFirst := fun _ => true |}.

End example.

(* ===================================================================== *)
(** * The rest of payload.go and api_service.go                           *)
(* ===================================================================== *)

Module staged.
Import task orchestration.

Section Staged.
Variable W : Type.
Variable ActionLogger : Context -> list (Service W) -> ServiceAction -> W -> W.
Variable RollbackErrorReporter :
  option (Context -> list (Service W) -> list error -> W -> W).

(** The loop [for _, stage := range stages] of [GenerateStagedResponse]:
    every stage answers to nil errors, and the details add up. *)
Fixpoint append_stages (w : W) (stages : list (list (Service W)))
    (details : list ResponseDetail) : Outcome (list ResponseDetail) :=
  match stages with
  | [] => Returns details
  | stage :: rest =>
      match GenerateResponse stage (replicate (length stage) None) None w with
      | Returns (_, stageResponse) =>
          append_stages w rest (details ++ Details stageResponse)
      | Panics => Panics
      | PanicsNil => PanicsNil
      end
  end.

(** [stages[failedStageIndex]] panics on an index that is negative or not
    below [len(stages)]. *)
Definition GenerateStagedResponse (stages : list (list (Service W)))
    (failedStageIndex : Z) (errs : list error) (err : error) (w : W)
    : Outcome (Z * Response) :=
  match err with
  | Some _ =>
      if (failedStageIndex <? 0)%Z then Panics
      else
        match stages !! Z.to_nat failedStageIndex with
        | Some stage => GenerateResponse stage errs err w
        | None => Panics
        end
  | None =>
      match append_stages w stages [] with
      | Returns details =>
          Returns (StatusOK, {| Status := "ok"; Details := details |})
      | Panics => Panics
      | PanicsNil => PanicsNil
      end
  end.

Definition CallStagedServicesAndReply (ctx : Context)
    (stages : list (list (Service W))) (opts : CallServicesOpts W)
    : State W -> Outcome (Z * Response) * State W :=
  fun st =>
    let '((nStagesRun, errs, err), st') :=
      CallStagedServices ActionLogger RollbackErrorReporter ctx stages opts st in
    (GenerateStagedResponse stages (Z.of_nat nStagesRun) errs err (world st'),
     st').

(** [SimpleService]: [Check] and [Rollback] for a service that brings its
    own [Name] and [Run]; [Recover] and [GetResponse] come from the embedded
    [Recoverable] and [Responder], which the service keeps in the world. *)
Definition SimpleService_Check (ctx : Context) (w : W) : Outcome error * W :=
  (Returns None, w).

Definition SimpleService_Rollback (ctx : Context) (w : W) : Outcome error * W :=
  (Returns (errors_New "rollback not implemented"), w).

Definition on_SimpleService (name : W -> string)
    (run : Context -> W -> Outcome error * W)
    (responder : W -> Responder) (recoverable : W -> Recoverable W)
    : Service W :=
  {| Name := name;
     Check := SimpleService_Check;
     Recover := fun ctx w => Recoverable_Recover (recoverable w) ctx w;
     Run := run;
     Rollback := SimpleService_Rollback;
     GetResponse := fun err w => Responder_GetResponse (responder w) err |}.

(** [DryRunService]: a wrapper, nil when no target was given. *)
Record DryRunService := {
  DryRunService_Recoverable : Recoverable W;
  Wrapper : option (Service W)
}.

Definition DryRunService_Check (d : DryRunService) (ctx : Context) (w : W)
    : Outcome error * W :=
  match Wrapper d with
  | None =>
      (Returns (errors_New
         "DryRunService: no target service provided, nothing to dry-run"), w)
  | Some wrapped => Check wrapped ctx w
  end.

Definition DryRunService_Run (d : DryRunService) (ctx : Context) (w : W)
    : Outcome error * W := (Returns None, w).

Definition DryRunService_Rollback (d : DryRunService) (ctx : Context) (w : W)
    : Outcome error * W := (Returns None, w).

(** [MakeDryRun(service)] for a service that is there: [Name] and
    [GetResponse] go to the wrapped service. *)
Definition MakeDryRun (service : Service W) : Service W :=
  let d := {| DryRunService_Recoverable := {| Recovery := None |};
              Wrapper := Some service |} in
  {| Name := fun w => Name service w +:+ " (dryRun)";
     Check := DryRunService_Check d;
     Recover := Recoverable_Recover (DryRunService_Recoverable d);
     Run := DryRunService_Run d;
     Rollback := DryRunService_Rollback d;
     GetResponse := GetResponse service |}.

(** ** Reading the record of a call, continued *)

(** The events of one [RunServiceAction]: the batch announced, then every
    service invoked once, in some order. *)
Definition phase (action : ServiceAction) (services : list (Service W))
    (evs : list (Event W)) : Prop :=
  exists invs,
    invs ≡ₚ EvInvoke action <$> services /\
    evs = EvRunServiceAction action services :: invs.

(** The details [GenerateResponse] collects: the answers that are not nil,
    each under the name of its service, in the order of the services. *)
Definition answers (w : W) (services : list (Service W)) (errs : list error)
    : list ResponseDetail :=
  omap (fun se : Service W * error =>
          let detail := GetResponse (fst se) (snd se) w in
          if is_nil detail then None
          else Some {| ResponseDetail_Name := Name (fst se) w;
                       Detail := detail |})
       (zip services errs).

(** The three summaries of [CallServices]. *)
Definition summaries : list string :=
  ["one or more pre-run checks failed";
   "unable to recover from one or more failed pre-run checks";
   "one or more runs failed"].

(** A method keeps the invariant [Inv] of the world. *)
Definition keeps (Inv : W -> Prop) (m : Context -> W -> Outcome error * W)
    : Prop :=
  forall ctx w, Inv w -> Inv (snd (m ctx w)).

(** A method that answers [err] whatever the world, and leaves it alone. *)
Definition answers_with (err : error) (m : Context -> W -> Outcome error * W)
    : Prop :=
  forall ctx w, m ctx w = (Returns err, w).

End Staged.

Arguments append_stages {W} _ _ _.
Arguments GenerateStagedResponse {W} _ _ _ _ _.
Arguments CallStagedServicesAndReply {W} _ _ _ _ _ _.
Arguments SimpleService_Check {W} _ _.
Arguments SimpleService_Rollback {W} _ _.
Arguments on_SimpleService {W} _ _ _ _.
Arguments Wrapper {W} _.
Arguments DryRunService_Recoverable {W} _.
Arguments DryRunService_Check {W} _ _ _.
Arguments DryRunService_Run {W} _ _ _.
Arguments DryRunService_Rollback {W} _ _ _.
Arguments MakeDryRun {W} _.
Arguments phase {W} _ _ _.
Arguments answers {W} _ _ _.
Arguments keeps {W} _ _.
Arguments answers_with {W} _ _.

End staged.

(* ===================================================================== *)
(** * The example as a service (internal/example)                         *)
(* ===================================================================== *)

Module example_service.
Import orchestration example.

(** [MemoryApiCreate]: the embedded [Recoverable] and [Payload], then the
    fields of the struct. *)
Record MemoryApiCreate := {
  MemoryApiCreate_Recoverable : Recoverable FakeDb;
  MemoryApiCreate_Payload : Payload;
  Datacenter : string;
  Claim : object;
  ModifiedDb : bool
}.

Definition MemoryApiCreate_Name (c : MemoryApiCreate) : string :=
  "MyService Create " +:+ Datacenter c.

(** [fmt.Sprintf("%d", n)]. *)
Definition Sprintf_d (n : Z) : string := pretty n.

Definition MemoryApiCreate_Check (c : MemoryApiCreate) (ctx : Context)
    (db : FakeDb) : Outcome error * MemoryApiCreate * FakeDb :=
  let c :=
    {| MemoryApiCreate_Recoverable := MemoryApiCreate_Recoverable c;
       MemoryApiCreate_Payload := MemoryApiCreate_Payload c;
       Datacenter := Datacenter c;
       Claim := MemoryClaim (Datacenter c +:+ ClaimName (Claim c))
                  (MemoryInMb (Claim c));
       ModifiedDb := ModifiedDb c |} in
  if negb (is_nil (FakeDbRead (ClaimName (Claim c)) db)) then
    (Returns (errors_New "already exists"), c, db)
  else
    let available := FakeDbGetAvailableMemory db in
    if (int (available - MemoryInMb (Claim c)) <? 0)%Z then
      (Returns (errors_New
         ("not enough memory available: (" +:+ Sprintf_d (MemoryInMb (Claim c))
            +:+ "/" +:+ Sprintf_d available +:+ ")")),
       c, db)
    else (Returns None, c, db).

Definition MemoryApiCreate_Run (c : MemoryApiCreate) (ctx : Context)
    (db : FakeDb) : Outcome error * MemoryApiCreate * FakeDb :=
  let db := FakeDbUpdateAvailableMemory (int (- MemoryInMb (Claim c))) db in
  let db := FakeDbWrite (Claim c) db in
  let c :=
    {| MemoryApiCreate_Recoverable := MemoryApiCreate_Recoverable c;
       MemoryApiCreate_Payload := {| Payload_Response := Some (VString "ok") |};
       Datacenter := Datacenter c;
       Claim := Claim c;
       ModifiedDb := true |} in
  if (FakeDbGetAvailableMemory db <? 0)%Z then
    (Returns (errors_New "not enough memory available"), c, db)
  else (Returns None, c, db).

Definition MemoryApiCreate_Rollback (c : MemoryApiCreate) (ctx : Context)
    (db : FakeDb) : Outcome error * MemoryApiCreate * FakeDb :=
  if ModifiedDb c then
    let db := FakeDbDelete (ClaimName (Claim c)) db in
    let db := FakeDbUpdateAvailableMemory (MemoryInMb (Claim c)) db in
    (Returns None, c, db)
  else (Returns None, c, db).

Definition MemoryApiCreate_Recover (c : MemoryApiCreate) (ctx : Context)
    (db : FakeDb) : Outcome error * MemoryApiCreate * FakeDb :=
  let '(out, db') :=
    Recoverable_Recover (MemoryApiCreate_Recoverable c) ctx db in
  (out, c, db').

Definition MemoryApiCreate_GetResponse (c : MemoryApiCreate) (err : error)
    : any :=
  Payload_GetResponse (MemoryApiCreate_Payload c) err.

(** [&example.MemoryApiCreate{Claim: claim, Datacenter: dc}]. *)
Definition new (dc : string) (claim : object) : MemoryApiCreate :=
  {| MemoryApiCreate_Recoverable := {| Recovery := None |};
     MemoryApiCreate_Payload := {| Payload_Response := None |};
     Datacenter := dc;
     Claim := claim;
     ModifiedDb := false |}.

(** ** What the store holds *)

(** The memory of all claims of the store, and what the store accounts for
    in all: the memory still available and the memory claimed, as an [int]. *)
Definition claimed_memory (m : gmap string object) : Z :=
  map_fold (fun _ claim sum => (MemoryInMb claim + sum)%Z) 0%Z m.

Definition total (db : FakeDb) : Z :=
  int (AvailableMemoryMb db + claimed_memory (fakeDb db)).

(** The five calls of an API keep the invariant [Inv] of what stands
    behind it. *)
Definition api_keeps {A : Type} (Inv : A -> Prop) (api : RestApi A) : Prop :=
  (forall ctx name a, Inv a -> Inv (snd (Get api ctx name a))) /\
  (forall ctx obj a, Inv a -> Inv (snd (Post api ctx obj a))) /\
  (forall ctx obj a, Inv a -> Inv (snd (Put api ctx obj a))) /\
  (forall ctx name a, Inv a -> Inv (snd (Delete api ctx name a))) /\
  (forall ctx a, Inv a -> Inv (snd (List api ctx a))).

(** The adapter's own recovery, when it has one, keeps [Inv]. *)
Definition recovery_keeps {A : Type} (Inv : A -> Prop)
    (proto : RestApiService A) : Prop :=
  forall recovery ctx a,
    Recovery (SimpleRestApiService_Recoverable
                (RestApiService_SimpleRestApiService proto)) = Some recovery ->
    Inv a -> Inv (snd (recovery ctx a)).

End example_service.

(* ===================================================================== *)
(** * Log levels (pkg/logging)                                            *)
(* ===================================================================== *)

Module logging.

Definition NOTSET : Z := 0.
Definition DEBUG : Z := 10.
Definition INFO : Z := 20.
Definition WARNING : Z := 30.
Definition ERROR : Z := 40.
Definition CRITICAL : Z := 50.

(** The package variable [currentLogLevel], and what [log.Printf] was
    called with so far: a format and its arguments. *)
Record Logger := {
  currentLogLevel : Z;
  printed : list (string * list value)
}.

(** [var currentLogLevel = NOTSET], nothing printed yet. *)
Definition initial : Logger := {| currentLogLevel := NOTSET; printed := [] |}.

(** The line feed that ends a format. *)
Definition newline : string := String (Ascii.ascii_of_nat 10) EmptyString.

Definition SetLevel (logLevel : Z) (l : Logger) : Logger :=
  {| currentLogLevel := logLevel; printed := printed l |}.

Definition ParseIntLogLevel (logLevel : Z) : string :=
  if (logLevel =? DEBUG)%Z then "DEBUG"
  else if (logLevel =? INFO)%Z then "INFO"
  else if (logLevel =? WARNING)%Z then "WARNING"
  else if (logLevel =? ERROR)%Z then "ERROR"
  else if (logLevel =? CRITICAL)%Z then "CRITICAL"
  else "NOTSET".

Definition Logf (logLevel : Z) (format : string) (params : list value)
    (l : Logger) : Logger :=
  if (currentLogLevel l <=? logLevel)%Z then
    let preFormat := "[%s] " in
    let preFormatParams := [VString (ParseIntLogLevel logLevel)] ++ params in
    {| currentLogLevel := currentLogLevel l;
       printed := printed l ++ [(preFormat +:+ format, preFormatParams)] |}
  else l.

Definition Fatalf (format : string) (params : list value) (l : Logger)
    : Outcome unit * Logger :=
  (Panics, Logf CRITICAL format params l).

(** An upper-case ASCII letter, and a string of such letters only. *)
Definition upper_letter (c : Ascii.ascii) : bool :=
  ((65 <=? Ascii.nat_of_ascii c) && (Ascii.nat_of_ascii c <=? 90))%nat.

Fixpoint upper_letters (s : string) : bool :=
  match s with
  | EmptyString => true
  | String c rest => upper_letter c && upper_letters rest
  end.

(** [strings.ToUpper] on the letters a to z; it leaves the rest of ASCII
    alone. *)
Definition upper (c : Ascii.ascii) : Ascii.ascii :=
  let n := Ascii.nat_of_ascii c in
  if ((97 <=? n) && (n <=? 122))%nat then Ascii.ascii_of_nat (n - 32) else c.

Fixpoint ToUpper_ascii (s : string) : string :=
  match s with
  | EmptyString => EmptyString
  | String c rest => String (upper c) (ToUpper_ascii rest)
  end.

Section Parse.

(** [strings.ToUpper], with Unicode's case mapping behind it. *)
Variable ToUpper : string -> string.

Definition ParseStringLogLevel (logLevel : string) : Z * error :=
  let upper := ToUpper logLevel in
  if String.eqb upper "DEBUG" then (DEBUG, None)
  else if String.eqb upper "INFO" then (INFO, None)
  else if String.eqb upper "WARNING" then (WARNING, None)
  else if String.eqb upper "ERROR" then (ERROR, None)
  else if String.eqb upper "CRITICAL" then (CRITICAL, None)
  else (NOTSET, errors_New "invalid format").

Definition SetLevelFromString (logLevel : string) (l : Logger) : Logger :=
  let '(level, err) := ParseStringLogLevel logLevel in
  let l := SetLevel level l in
  match err with
  | Some msg =>
      Logf ERROR ("[logging](SetLevelFromString): %s" +:+ newline)
        [VString msg] l
  | None => l
  end.

End Parse.

End logging.

(* ===================================================================== *)
(** * Small services to run the coordinator on                            *)
(* ===================================================================== *)

Module sample.
Import task orchestration staged.

(** A task that adds two to a counter. *)
Definition bump : @task.Runnable Z := fun _ n => (Returns None, (n + 2)%Z).

(** A service on [SimpleService] whose [Run] adds two to the counter. *)
Definition step : Service Z :=
  on_SimpleService (fun _ => "step") bump
    (fun _ => {| Responder_Response := None;
                 UseNullResponseAsDefault := false |})
    (fun _ => {| Recovery := None |}).

(** A service whose [Check] fails, with a [Recoverable] without [Recovery],
    and a [Rollback] that takes back what [Run] added. *)
Definition refusing : Service Z :=
  {| Name := fun _ => "refusing";
     Check := fun _ n => (Returns (errors_New "refused"), n);
     Recover := Recoverable_Recover {| Recovery := None |};
     Run := bump;
     Rollback := fun _ n => (Returns None, (n - 2)%Z);
     GetResponse := fun err _ => VString <$> err |}.

(** No action log, no reporter, no options. *)
Definition quiet (_ : Context) (_ : list (Service Z)) (_ : ServiceAction)
    (n : Z) : Z := n.

Definition silent :
    option (Context -> list (Service Z) -> list error -> Z -> Z) := None.

Definition plain : CallServicesOpts Z :=
  {| SkipRollback := false; OnActionError := None; OnStageStart := None |}.

Definition skipping : CallServicesOpts Z :=
  {| SkipRollback := true; OnActionError := None; OnStageStart := None |}.

(** The counter at [n], nothing recorded or started, the workers taken in
    the order of their tasks. *)
Definition at_ (n : Z) : State Z :=
  {| world := n; trace := []; spawned := []; scheds := [] |}.

End sample.

(* ===================================================================== *)
(** * Properties of the task runner                                       *)
(* ===================================================================== *)

Module task_facts.
Import task.

Lemma is_nil_true {A : Type} (x : option A) : is_nil x = true <-> x = None.
Proof. destruct x; simpl; split; congruence. Qed.

Lemma AnyError_true (errors : list error) :
  AnyError errors = true <-> exists msg, Some msg ∈ errors.
Proof.
  induction errors as [|err rest IH]; simpl.
  - split; [discriminate | intros [msg H]; inversion H].
  - destruct err as [msg|]; simpl.
    + split; [intros _; exists msg; left | reflexivity].
    + rewrite IH. split; intros [msg H]; exists msg.
      * by right.
      * apply elem_of_cons in H as [H|H]; [discriminate | assumption].
Qed.

Lemma AnyError_false (errors : list error) :
  AnyError errors = false <-> Forall (fun err => err = None) errors.
Proof.
  induction errors as [|err rest IH]; simpl.
  - split; [constructor | reflexivity].
  - destruct err as [msg|]; simpl.
    + split; [discriminate | intros H; inversion H; discriminate].
    + rewrite IH. split; [by constructor | intros H; by inversion H].
Qed.

(** Every worker is started once: the start order lists the indices. *)
Lemma start_order_Permutation (n : nat) (picks pending : list nat) :
  length pending = n -> start_order n picks pending ≡ₚ pending.
Proof.
  revert picks pending.
  induction n as [|n IH]; intros picks pending Hlen; simpl.
  - by destruct pending.
  - assert (Hlt : hd 0 picks `mod` length pending < length pending)
      by (apply Nat.mod_upper_bound; lia).
    destruct (lookup_lt_is_Some_2 _ _ Hlt) as [count Hcount].
    rewrite Hcount.
    etrans; [|symmetry; by apply delete_Permutation].
    constructor. apply IH.
    rewrite length_delete by eauto. lia.
Qed.

Lemma order_Permutation (sch : Schedule) (n : nat) :
  order sch n ≡ₚ seq 0 n.
Proof. apply start_order_Permutation, length_seq. Qed.

Lemma order_NoDup (sch : Schedule) (n : nat) : NoDup (order sch n).
Proof. rewrite order_Permutation. apply NoDup_seq. Qed.

Lemma elem_of_order (sch : Schedule) (n i : nat) : i ∈ order sch n <-> i < n.
Proof. rewrite order_Permutation, elem_of_seq. lia. Qed.

Section Run.
Context {St : Type}.
Implicit Types (tasks : list (@Runnable St)) (acc : list error * St).

Lemma worker_length tasks ctx sch acc count :
  length (fst (worker tasks ctx sch acc count)) = length (fst acc).
Proof.
  unfold worker. destruct (subworker _ _ _ _). simpl. apply length_insert.
Qed.

Lemma foldl_worker_length tasks ctx sch acc (l : list nat) :
  length (fst (foldl (worker tasks ctx sch) acc l)) = length (fst acc).
Proof.
  revert acc. induction l as [|count l IH]; intros acc; simpl; [done|].
  by rewrite IH, worker_length.
Qed.

Lemma worker_lookup_ne tasks ctx sch acc count (i : nat) :
  i ≠ count -> fst (worker tasks ctx sch acc count) !! i = fst acc !! i.
Proof.
  intros Hne. unfold worker. destruct (subworker _ _ _ _). simpl.
  by apply list_lookup_insert_ne.
Qed.

Lemma foldl_worker_lookup_notin tasks ctx sch acc (l : list nat) (i : nat) :
  i ∉ l -> fst (foldl (worker tasks ctx sch) acc l) !! i = fst acc !! i.
Proof.
  revert acc. induction l as [|count l IH]; intros acc Hi; simpl; [done|].
  apply not_elem_of_cons in Hi as [Hne Hi].
  by rewrite IH, worker_lookup_ne.
Qed.

Lemma worker_lookup_eq tasks ctx sch acc (i : nat) :
  i < length (fst acc) ->
  fst (worker tasks ctx sch acc i) !! i =
  Some (select ctx (ctxDoneFirst sch i)
          (fst (subworker tasks ctx i (snd acc)))).
Proof.
  intros Hi. unfold worker. destruct (subworker _ _ _ _). simpl.
  by apply list_lookup_insert_eq.
Qed.

(** The slot of a worker is what its [select] received, whatever ran
    before and after it. *)
Lemma foldl_worker_slot tasks ctx sch acc (pre post : list nat) (i : nat) :
  i < length (fst acc) -> i ∉ post ->
  fst (foldl (worker tasks ctx sch) acc (pre ++ i :: post)) !! i =
  Some (select ctx (ctxDoneFirst sch i)
          (fst (subworker tasks ctx i
                  (snd (foldl (worker tasks ctx sch) acc pre))))).
Proof.
  intros Hi Hpost. rewrite foldl_app. simpl.
  rewrite foldl_worker_lookup_notin by done.
  apply worker_lookup_eq. by rewrite foldl_worker_length.
Qed.

Lemma Run_length tasks ctx sch (st : St) :
  length (fst (Run tasks ctx sch st)) = length tasks.
Proof.
  unfold Run. rewrite foldl_worker_length. simpl. apply length_replicate.
Qed.

Lemma state_before_exists tasks ctx sch (st : St) (i : nat) :
  i < length tasks -> exists st_i, state_before tasks ctx sch st i st_i.
Proof.
  intros Hi.
  destruct (list_elem_of_split (order sch (length tasks)) i)
    as (pre & post & Hsplit); [by apply elem_of_order|].
  pose proof (order_NoDup sch (length tasks)) as Hnd.
  rewrite Hsplit in Hnd.
  apply NoDup_app in Hnd as (_ & Hpre & Hnd).
  apply NoDup_cons in Hnd as [Hpost _].
  eexists. exists pre, post. repeat split; try done.
  intros Hin. apply (Hpre i Hin). left.
Qed.

Lemma Run_slot tasks ctx sch (st st_i : St) (i : nat) t :
  tasks !! i = Some t ->
  state_before tasks ctx sch st i st_i ->
  fst (Run tasks ctx sch st) !! i =
  Some (select ctx (ctxDoneFirst sch i) (recovered (fst (t ctx st_i)))).
Proof.
  intros Ht (pre & post & Hsplit & _ & Hpost & ->).
  assert (Hi : i < length tasks) by (by eapply lookup_lt_Some).
  unfold Run. rewrite Hsplit, foldl_worker_slot; simpl;
    [|by rewrite length_replicate|done].
  unfold subworker. rewrite Ht. by destruct (t ctx _).
Qed.

Lemma subworker_insert_ne tasks ctx (i count : nat) t' (s : St) :
  count ≠ i ->
  subworker (<[i:=t']> tasks) ctx count s = subworker tasks ctx count s.
Proof. intros Hne. unfold subworker. by rewrite list_lookup_insert_ne. Qed.

Lemma subworker_insert_eq tasks ctx (i : nat) t t' (s : St) :
  tasks !! i = Some t ->
  (forall s, snd (t' ctx s) = snd (t ctx s)) ->
  snd (subworker (<[i:=t']> tasks) ctx i s) = snd (subworker tasks ctx i s).
Proof.
  intros Ht Hsame. unfold subworker.
  rewrite list_lookup_insert_eq, Ht by (by eapply lookup_lt_Some).
  specialize (Hsame s). by destruct (t' ctx s), (t ctx s).
Qed.

(** Replacing a task by one with the same effect on the state, whatever
    it returns, changes no slot but its own. *)
Lemma foldl_worker_insert tasks ctx sch (i : nat) t t' (ord : list nat)
    acc acc' :
  tasks !! i = Some t ->
  (forall s, snd (t' ctx s) = snd (t ctx s)) ->
  snd acc' = snd acc ->
  length (fst acc') = length (fst acc) ->
  (forall j, j ≠ i -> fst acc' !! j = fst acc !! j) ->
  let r' := foldl (worker (<[i:=t']> tasks) ctx sch) acc' ord in
  let r := foldl (worker tasks ctx sch) acc ord in
  snd r' = snd r /\ forall j, j ≠ i -> fst r' !! j = fst r !! j.
Proof.
  intros Ht Hsame. revert acc acc'.
  induction ord as [|count ord IH]; intros acc acc' Hst Hlen Hslots; simpl.
  - done.
  - apply IH; clear IH.
    + unfold worker. rewrite Hst.
      destruct (decide (count = i)) as [->|Hne].
      * pose proof (subworker_insert_eq tasks ctx i t t' (snd acc) Ht Hsame)
          as Hsnd.
        by destruct (subworker (<[i:=t']> tasks) ctx i (snd acc)),
          (subworker tasks ctx i (snd acc)).
      * rewrite subworker_insert_ne by done.
        by destruct (subworker tasks ctx count (snd acc)).
    + by rewrite !worker_length.
    + intros j Hj. unfold worker. rewrite Hst.
      destruct (decide (count = i)) as [->|Hne].
      * destruct (subworker (<[i:=t']> tasks) ctx i (snd acc)),
          (subworker tasks ctx i (snd acc)). simpl.
        rewrite !list_lookup_insert_ne by done. by apply Hslots.
      * rewrite subworker_insert_ne by done.
        destruct (subworker tasks ctx count (snd acc)). simpl.
        by rewrite !list_lookup_insert, Hlen, Hslots.
Qed.

Lemma Run_insert tasks ctx sch (st : St) (i : nat) t t' :
  tasks !! i = Some t ->
  (forall s, snd (t' ctx s) = snd (t ctx s)) ->
  snd (Run (<[i:=t']> tasks) ctx sch st) = snd (Run tasks ctx sch st) /\
  forall j, j ≠ i ->
    fst (Run (<[i:=t']> tasks) ctx sch st) !! j =
    fst (Run tasks ctx sch st) !! j.
Proof.
  intros Ht Hsame. unfold Run. rewrite length_insert.
  by apply (foldl_worker_insert tasks ctx sch i t t').
Qed.


End Run.
End task_facts.

(* ===================================================================== *)
(** * Properties of the service coordinator                               *)
(* ===================================================================== *)

Module coordinator_facts.
Import task orchestration task_facts.

Section Facts.
Context {W : Type}.
Variable ActionLogger : Context -> list (Service W) -> ServiceAction -> W -> W.
Variable RollbackErrorReporter :
  option (Context -> list (Service W) -> list error -> W -> W).

Local Abbreviation RunServiceAction :=
  (RunServiceAction ActionLogger RollbackErrorReporter).
Local Abbreviation CallServices :=
  (CallServices ActionLogger RollbackErrorReporter).
Local Abbreviation run_phase := (run_phase ActionLogger RollbackErrorReporter).
Local Abbreviation CallStagedServices :=
  (CallStagedServices ActionLogger RollbackErrorReporter).
Local Abbreviation staged_loop := (staged_loop ActionLogger RollbackErrorReporter).
Local Abbreviation rollback_stages :=
  (rollback_stages ActionLogger RollbackErrorReporter).
Local Abbreviation run_goroutine :=
  (run_goroutine ActionLogger RollbackErrorReporter).
Local Abbreviation stage_result := (stage_result ActionLogger RollbackErrorReporter).
Local Abbreviation stages_pass := (stages_pass ActionLogger RollbackErrorReporter).
Local Abbreviation entered := (entered ActionLogger).
Local Abbreviation CallServicesAndReply :=
  (CallServicesAndReply ActionLogger RollbackErrorReporter).

Implicit Types (st : State W) (services : list (Service W)).
Implicit Types (action : ServiceAction) (ctx : Context).

Lemma ProtoService_Run_valid action service ctx st :
  valid_action action ->
  exists m,
    dispatch action service = Some m /\
    ProtoService_Run {| service := service; action := action |} ctx st =
    (fst (m ctx (world st)), invoked action service m ctx st).
Proof.
  intros [-> | [-> | [-> | ->]]]; eexists; (split; [reflexivity|]);
    unfold ProtoService_Run, bind, emit, call, invoked; simpl.
  - by destruct (Check service ctx (world st)).
  - by destruct (Recover service ctx (world st)).
  - by destruct (Run service ctx (world st)).
  - by destruct (Rollback service ctx (world st)).
Qed.

(** The workers leave the pool and the schedules alone, and add one
    invocation each to the record. *)
Lemma foldl_worker_trace action services ctx sch (ord : list nat)
    (acc : list error * State W) :
  valid_action action ->
  let acc' := foldl (worker (proto_tasks action services) ctx sch) acc ord in
  trace (snd acc') = trace (snd acc) ++ invocations action services ord /\
  spawned (snd acc') = spawned (snd acc) /\
  scheds (snd acc') = scheds (snd acc).
Proof.
  intros Hvalid. revert acc.
  induction ord as [|count ord IH]; intros acc; simpl.
  - by rewrite app_nil_r.
  - destruct (IH (worker (proto_tasks action services) ctx sch acc count))
      as (Htrace & Hspawned & Hscheds).
    rewrite Htrace, Hspawned, Hscheds. clear IH Htrace Hspawned Hscheds.
    unfold worker, subworker, proto_tasks, invocations.
    rewrite list_lookup_fmap. simpl.
    destruct (services !! count) as [service|]; simpl.
    + destruct (ProtoService_Run_valid action service ctx (snd acc) Hvalid)
        as (m & _ & ->). simpl. by rewrite <- app_assoc.
    + done.
Qed.

Lemma invocations_seq action services :
  invocations action services (seq 0 (length services)) =
  EvInvoke action <$> services.
Proof.
  unfold invocations.
  induction services as [|service services IH] using rev_ind; [done|].
  rewrite length_app. simpl. rewrite Nat.add_1_r, seq_S, omap_app, fmap_app.
  simpl. rewrite lookup_app_r, Nat.sub_diag by lia. simpl. f_equal.
  rewrite <- IH. apply list_omap_ext, Forall_Forall2_diag, Forall_forall.
  intros i Hi%elem_of_seq. by rewrite lookup_app_l by lia.
Qed.

Lemma invocations_order action services sch :
  invocations action services (order sch (length services))
  ≡ₚ EvInvoke action <$> services.
Proof.
  rewrite <- invocations_seq. unfold invocations.
  apply omap_Permutation, order_Permutation.
Qed.

(** One [RunServiceAction]: a slot per service, the batch announced and
    every service invoked once, the reporter started after a ROLLBACK, one
    schedule used. *)
Lemma RunServiceAction_spec ctx services action st :
  valid_action action ->
  let r := RunServiceAction ctx services action st in
  length (fst r) = length services /\
  (exists invs,
     invs ≡ₚ EvInvoke action <$> services /\
     trace (snd r) = trace st ++ EvRunServiceAction action services :: invs) /\
  spawned (snd r) =
    spawned st ++
    match RollbackErrorReporter with
    | Some _ =>
        if String.eqb action SERVICE_ROLLBACK
        then [GoRollbackErrorReporter ctx services (fst r)] else []
    | None => []
    end /\
  scheds (snd r) = tl (scheds st).
Proof.
  intros Hvalid r. subst r.
  unfold orchestration.RunServiceAction, bind, emit, on_world, next_schedule.
  cbv beta iota.
  set (tasks := proto_tasks action services).
  set (sch := hd fifo (scheds _)).
  set (st1 := {| world := _; trace := _; spawned := _; scheds := _ |}).
  assert (Hn : length tasks = length services) by apply length_fmap.
  pose proof (Run_length tasks ctx sch st1) as Hlen.
  destruct (foldl_worker_trace action services ctx sch
              (order sch (length tasks))
              (replicate (length tasks) None, st1)
              Hvalid) as (Htrace & Hspawned & Hscheds).
  fold tasks in Htrace, Hspawned, Hscheds.
  change (foldl (worker tasks ctx sch) _ _)
    with (task.Run tasks ctx sch st1) in Htrace, Hspawned, Hscheds.
  destruct (task.Run tasks ctx sch st1) as [errs st2].
  rewrite Hn in Hlen, Htrace. subst st1. simpl in Htrace, Hspawned, Hscheds, Hlen.
  assert (Hinv : exists invs,
             invs ≡ₚ EvInvoke action <$> services /\
             trace st2 = trace st ++ EvRunServiceAction action services :: invs).
  { eexists. split; [apply invocations_order|].
    rewrite Htrace. by rewrite <- app_assoc. }
  destruct RollbackErrorReporter as [reporter|];
    [destruct (String.eqb action SERVICE_ROLLBACK)|]; simpl;
    rewrite ?app_nil_r; repeat split; try done; congruence.
Qed.

Lemma extends_refl (P : Event W -> Prop) st : extends P st st.
Proof. exists []. by rewrite app_nil_r. Qed.

Lemma extends_trans (P : Event W -> Prop) st1 st2 st3 :
  extends P st1 st2 -> extends P st2 st3 -> extends P st1 st3.
Proof.
  intros (evs1 & H1 & HP1) (evs2 & H2 & HP2). exists (evs1 ++ evs2).
  split; [by rewrite H2, H1, app_assoc | by apply Forall_app].
Qed.

Lemma extends_weaken (P Q : Event W -> Prop) st st' :
  (forall ev, P ev -> Q ev) -> extends P st st' -> extends Q st st'.
Proof.
  intros HPQ (evs & H & HP). exists evs. split; [done|].
  eapply Forall_impl; eauto.
Qed.

Lemma RunServiceAction_extends ctx services action st :
  valid_action action ->
  extends (fun ev => event_action ev = Some action) st
    (snd (RunServiceAction ctx services action st)).
Proof.
  intros Hvalid.
  destruct (RunServiceAction_spec ctx services action st Hvalid)
    as (_ & (invs & Hinvs & Htrace) & _).
  eexists. split; [exact Htrace|]. constructor; [done|].
  rewrite Hinvs. apply Forall_fmap, Forall_forall. by intros.
Qed.

Lemma RunServiceAction_spawned ctx services action st :
  valid_action action -> action ≠ SERVICE_ROLLBACK ->
  spawned (snd (RunServiceAction ctx services action st)) = spawned st.
Proof.
  intros Hvalid Hne.
  destruct (RunServiceAction_spec ctx services action st Hvalid)
    as (_ & _ & Hspawned & _).
  rewrite Hspawned. apply String.eqb_neq in Hne. rewrite Hne.
  destruct RollbackErrorReporter; apply app_nil_r.
Qed.

Lemma on_action_error_extends opts ctx action services errs st :
  let st' := snd (on_action_error opts ctx action services errs st) in
  extends (fun ev => event_action ev = None) st st' /\
  spawned st' = spawned st /\ scheds st' = scheds st.
Proof.
  unfold on_action_error. destruct (OnActionError opts) as [hook|]; simpl.
  - split; [|done]. exists [EvOnActionError action services errs].
    split; [done|]. by constructor.
  - split; [apply extends_refl | done].
Qed.

Lemma valid_CHECK : valid_action SERVICE_CHECK.
Proof. by left. Qed.
Lemma valid_RECOVER : valid_action SERVICE_RECOVER.
Proof. right. by left. Qed.
Lemma valid_RUN : valid_action SERVICE_RUN.
Proof. right. right. by left. Qed.
Lemma valid_ROLLBACK : valid_action SERVICE_ROLLBACK.
Proof. right. right. by right. Qed.

(** ** [CallServices], phase by phase *)

Lemma run_phase_eq ctx services opts errs st :
  run_phase ctx services opts errs st =
  if is_nil (Value ctx "dryRun") then
    let run := RunServiceAction ctx services SERVICE_RUN st in
    if AnyError (fst run) then
      let reported :=
        snd (on_action_error opts ctx SERVICE_RUN services (fst run) (snd run)) in
      ((fst run, errors_New "one or more runs failed"),
       if SkipRollback opts then reported
       else snd (go (GoRunServiceAction ctx services SERVICE_ROLLBACK) reported))
    else ((fst run, None), snd run)
  else ((errs, None), st).
Proof.
  unfold orchestration.run_phase, bind.
  destruct (is_nil (Value ctx "dryRun")); [|done].
  destruct (RunServiceAction ctx services SERVICE_RUN st) as [errs' st1].
  simpl. destruct (AnyError errs'); [|done].
  destruct (on_action_error opts ctx SERVICE_RUN services errs' st1) as [[] st2].
  simpl. by destruct (SkipRollback opts).
Qed.

Lemma CallServices_eq ctx services opts st :
  CallServices ctx services opts st =
  let check := RunServiceAction ctx services SERVICE_CHECK st in
  if AnyError (fst check) then
    let reported :=
      snd (on_action_error opts ctx SERVICE_CHECK services
             (fst check) (snd check)) in
    if is_nil (Value ctx "dryRun") && negb (is_nil (Value ctx "recover")) then
      let rec := RunServiceAction ctx services SERVICE_RECOVER reported in
      if AnyError (fst rec) then
        ((fst check,
          errors_New "unable to recover from one or more failed pre-run checks"),
         snd rec)
      else run_phase ctx services opts (fst check) (snd rec)
    else ((fst check, errors_New "one or more pre-run checks failed"), reported)
  else run_phase ctx services opts (fst check) (snd check).
Proof.
  unfold orchestration.CallServices, bind.
  destruct (RunServiceAction ctx services SERVICE_CHECK st) as [errs st1].
  simpl. destruct (AnyError errs); [|done].
  destruct (on_action_error opts ctx SERVICE_CHECK services errs st1)
    as [[] st2].
  simpl. destruct (is_nil (Value ctx "dryRun") && _); [|done].
  destruct (RunServiceAction ctx services SERVICE_RECOVER st2) as [rerrs st3].
  simpl. by destruct (AnyError rerrs).
Qed.

(** The RUN phase adds RUN events and hook events only, and starts at most
    the rollback of the batch. *)
Lemma run_phase_extends ctx services opts errs st :
  let r := run_phase ctx services opts errs st in
  extends (fun ev => event_action ev = Some SERVICE_RUN \/ event_action ev = None)
    st (snd r) /\
  spawned (snd r) =
    spawned st ++
    if bool_decide (snd (fst r) = errors_New "one or more runs failed")
       && negb (SkipRollback opts)
    then [GoRunServiceAction ctx services SERVICE_ROLLBACK] else [].
Proof.
  simpl. rewrite run_phase_eq.
  destruct (is_nil (Value ctx "dryRun")); simpl;
    [|split; [apply extends_refl | by rewrite app_nil_r]].
  pose proof (RunServiceAction_extends ctx services SERVICE_RUN st valid_RUN)
    as Hrun.
  pose proof (RunServiceAction_spawned ctx services SERVICE_RUN st valid_RUN)
    as Hspawned.
  destruct (RunServiceAction ctx services SERVICE_RUN st) as [errs' st1].
  simpl in *. specialize (Hspawned ltac:(done)).
  destruct (AnyError errs'); simpl.
  - destruct (on_action_error_extends opts ctx SERVICE_RUN services errs' st1)
      as (Hhook & Hspawned' & _).
    destruct (SkipRollback opts); simpl.
    + rewrite Hspawned', Hspawned, app_nil_r. split; [|done].
      eapply extends_trans; eapply extends_weaken; eauto; simpl; auto.
    + rewrite Hspawned', Hspawned. split; [|done].
      eapply extends_trans; eapply extends_weaken;
        [| exact Hrun | | exact Hhook]; simpl; auto.
  - rewrite Hspawned, app_nil_r. split; [|done].
    eapply extends_weaken; eauto; simpl; auto.
Qed.

(** What the rollback goroutine of a batch does when it runs: it announces
    the batch and invokes ROLLBACK on every service of it, once each. *)
Lemma rollback_goroutine_invokes ctx services st0 :
  exists invs,
    invs ≡ₚ EvInvoke SERVICE_ROLLBACK <$> services /\
    trace (snd (run_goroutine
                  (GoRunServiceAction ctx services SERVICE_ROLLBACK) st0)) =
    trace st0 ++ EvRunServiceAction SERVICE_ROLLBACK services :: invs.
Proof.
  destruct (RunServiceAction_spec ctx services SERVICE_ROLLBACK st0
              valid_ROLLBACK) as (_ & (invs & Hinvs & Htrace) & _).
  exists invs. split; [done|].
  unfold orchestration.run_goroutine, bind.
  by destruct (RunServiceAction ctx services SERVICE_ROLLBACK st0).
Qed.


(** C2. When CHECK produced a failure and the context has no "recover"
    value or has a "dryRun" value, [CallServices] returns the CHECK error
    list with the summary "one or more pre-run checks failed"; no event of
    the call belongs to RUN, and no goroutine is started. *)
Theorem CallServices_check_failure ctx services opts st :
  let check := RunServiceAction ctx services SERVICE_CHECK st in
  let reported :=
    snd (on_action_error opts ctx SERVICE_CHECK services
           (fst check) (snd check)) in
  let r := CallServices ctx services opts st in
  AnyError (fst check) = true ->
  Value ctx "recover" = None \/ Value ctx "dryRun" ≠ None ->
  r = ((fst check, errors_New "one or more pre-run checks failed"), reported) /\
  extends (fun ev => event_action ev ≠ Some SERVICE_RUN) st (snd r) /\
  spawned (snd r) = spawned st.
Proof.
  intros check reported r Hcheck Hctx.
  assert (Hr : r = ((fst check,
                     errors_New "one or more pre-run checks failed"), reported)).
  { subst r. rewrite CallServices_eq. fold check. simpl. rewrite Hcheck.
    fold reported.
    destruct Hctx as [-> | Hdry]; simpl; [by rewrite andb_false_r|].
    by destruct (Value ctx "dryRun"). }
  split; [done|]. rewrite Hr. simpl.
  pose proof (RunServiceAction_extends ctx services SERVICE_CHECK st valid_CHECK)
    as Hext1.
  pose proof (RunServiceAction_spawned ctx services SERVICE_CHECK st valid_CHECK
                ltac:(done)) as Hsp1.
  destruct (on_action_error_extends opts ctx SERVICE_CHECK services (fst check)
              (snd check)) as (Hext2 & Hsp2 & _).
  fold check in Hext1, Hsp1. fold reported in Hext2, Hsp2.
  split; [|by rewrite Hsp2, Hsp1].
  eapply extends_trans; (eapply extends_weaken; [|eassumption]); simpl;
    intros ev ->; done.
Qed.

(** C4. When the context carries any value under "dryRun", whatever the
    value, every event of [CallServices] that belongs to an action belongs
    to CHECK, and no goroutine is started: no Run, Rollback or Recover takes
    place.  When CHECK succeeds the result is the CHECK error list, all
    nil, with no summary failure; when it fails, the CHECK error list with
    "one or more pre-run checks failed". *)
Theorem CallServices_dryRun ctx services opts st (v : value) :
  let check := RunServiceAction ctx services SERVICE_CHECK st in
  let r := CallServices ctx services opts st in
  Value ctx "dryRun" = Some v ->
  extends (fun ev => forall action,
             event_action ev = Some action -> action = SERVICE_CHECK)
    st (snd r) /\
  spawned (snd r) = spawned st /\
  (AnyError (fst check) = false ->
   r = ((fst check, None), snd check) /\
   Forall (fun err => err = None) (fst check)) /\
  (AnyError (fst check) = true ->
   fst r = (fst check, errors_New "one or more pre-run checks failed")).
Proof.
  intros check r Hdry.
  pose proof (RunServiceAction_extends ctx services SERVICE_CHECK st valid_CHECK)
    as Hext1.
  pose proof (RunServiceAction_spawned ctx services SERVICE_CHECK st valid_CHECK
                ltac:(done)) as Hsp1.
  destruct (on_action_error_extends opts ctx SERVICE_CHECK services (fst check)
              (snd check)) as (Hext2 & Hsp2 & _).
  fold check in Hext1, Hsp1.
  assert (Hr : r = if AnyError (fst check)
                   then ((fst check,
                          errors_New "one or more pre-run checks failed"),
                         snd (on_action_error opts ctx SERVICE_CHECK services
                                (fst check) (snd check)))
                   else ((fst check, None), snd check)).
  { subst r. rewrite CallServices_eq. fold check. simpl.
    rewrite !run_phase_eq, Hdry. simpl. done. }
  rewrite Hr. destruct (AnyError (fst check)) eqn:Hany; simpl.
  - split; [|split; [by rewrite Hsp2, Hsp1 | split; [done | done]]].
    eapply extends_trans; (eapply extends_weaken; [|eassumption]); simpl;
      intros ev Hev action; rewrite Hev; congruence.
  - split; [|split; [done | split; [|done]]].
    + eapply extends_weaken; [|eassumption]. simpl.
      intros ev Hev action; rewrite Hev; congruence.
    + intros _. split; [done|]. by apply AnyError_false.
Qed.

Lemma RunServiceAction_nil ctx action st :
  fst (RunServiceAction ctx [] action st) = [].
Proof.
  unfold orchestration.RunServiceAction, bind. simpl.
  destruct RollbackErrorReporter; [destruct (String.eqb _ _)|]; done.
Qed.

(** C10. On the empty batch [CallServices] returns an empty error list and
    no summary failure, for every options value and every context, and
    [CallServicesAndReply] replies 200 with status "ok" and no details. *)
Theorem CallServices_empty ctx opts st :
  fst (CallServices ctx [] opts st) = ([], None) /\
  fst (CallServicesAndReply ctx [] opts st) =
    Returns (StatusOK, {| Status := "ok"; Details := [] |}).
Proof.
  assert (H : fst (CallServices ctx [] opts st) = ([], None)).
  { rewrite CallServices_eq. cbv zeta. rewrite RunServiceAction_nil. simpl.
    rewrite run_phase_eq.
    destruct (is_nil (Value ctx "dryRun")); [|done].
    cbv zeta. by rewrite RunServiceAction_nil. }
  split; [done|].
  unfold orchestration.CallServicesAndReply, bind.
  destruct (CallServices ctx [] opts st) as [[errs err] st']. simpl in *.
  by injection H as -> ->.
Qed.

(** C3. RECOVER takes place in a call of [CallServices] exactly when CHECK
    produced a failure, the context has a "recover" value and has no
    "dryRun" value; it is then invoked on every service of the batch.  If
    some recovery fails, the result is the CHECK error list with the summary
    "unable to recover from one or more failed pre-run checks"; if every
    recovery succeeds, the call goes on with the RUN phase and returns what
    RUN gives. *)
Theorem CallServices_recover ctx services opts st :
  let check := RunServiceAction ctx services SERVICE_CHECK st in
  let reported :=
    snd (on_action_error opts ctx SERVICE_CHECK services
           (fst check) (snd check)) in
  let rec := RunServiceAction ctx services SERVICE_RECOVER reported in
  let run := RunServiceAction ctx services SERVICE_RUN (snd rec) in
  let r := CallServices ctx services opts st in
  let recovering :=
    AnyError (fst check) = true /\
    Value ctx "recover" ≠ None /\ Value ctx "dryRun" = None in
  (exists evs,
     trace (snd r) = trace st ++ evs /\
     (Exists (fun ev => event_action ev = Some SERVICE_RECOVER) evs
      <-> recovering) /\
     (recovering ->
      EvRunServiceAction SERVICE_RECOVER services ∈ evs /\
      forall service,
        service ∈ services -> EvInvoke SERVICE_RECOVER service ∈ evs)) /\
  (recovering -> AnyError (fst rec) = true ->
   r = ((fst check,
         errors_New "unable to recover from one or more failed pre-run checks"),
        snd rec)) /\
  (recovering -> AnyError (fst rec) = false ->
   r = run_phase ctx services opts (fst check) (snd rec) /\
   fst r = (fst run,
            if AnyError (fst run) then errors_New "one or more runs failed"
            else None)).
Proof.
  intros check reported rec run r recovering.
  pose proof (RunServiceAction_extends ctx services SERVICE_CHECK st valid_CHECK)
    as Hext1.
  destruct (on_action_error_extends opts ctx SERVICE_CHECK services (fst check)
              (snd check)) as (Hext2 & _).
  destruct (RunServiceAction_spec ctx services SERVICE_RECOVER reported
              valid_RECOVER) as (_ & (invs & Hinvs & Htrace3) & _).
  destruct (run_phase_extends ctx services opts (fst check) (snd rec))
    as (Hext4 & _).
  destruct (run_phase_extends ctx services opts (fst check) (snd check))
    as (Hext4' & _).
  fold check in Hext1. fold reported in Hext2. fold rec in Htrace3.
  assert (Hyes : recovering ->
            r = if AnyError (fst rec)
                then ((fst check,
                       errors_New
                         "unable to recover from one or more failed pre-run checks"),
                      snd rec)
                else run_phase ctx services opts (fst check) (snd rec)).
  { intros (Hany & Hrec & Hdry). subst r. rewrite CallServices_eq.
    fold check. cbv zeta. rewrite Hany. fold reported. rewrite Hdry.
    destruct (Value ctx "recover"); [|done]. simpl. fold rec. done. }
  assert (Hno : ~ recovering ->
            r = if AnyError (fst check)
                then ((fst check,
                       errors_New "one or more pre-run checks failed"),
                      reported)
                else run_phase ctx services opts (fst check) (snd check)).
  { intros Hnot. subst r. rewrite CallServices_eq. fold check. cbv zeta.
    destruct (AnyError (fst check)) eqn:Hany; [|done]. fold reported.
    destruct (Value ctx "dryRun") eqn:Hdry; [done|].
    destruct (Value ctx "recover") eqn:Hrec; [|done].
    destruct Hnot. by repeat split. }
  assert (Hdec : recovering \/ ~ recovering).
  { subst recovering. destruct (AnyError (fst check)); [|right; by intros []].
    destruct (Value ctx "recover"); [|right; by intros (_ & [] & _)].
    destruct (Value ctx "dryRun"); [right; by intros (_ & _ & ?)|].
    left. by repeat split. }
  split; [|split].
  - destruct Hdec as [Hrecovering | Hnot].
    + assert (Hext : extends (fun _ => True) (snd rec) (snd r)).
      { rewrite (Hyes Hrecovering). destruct (AnyError (fst rec)); simpl.
        - apply extends_refl.
        - eapply extends_weaken; [|exact Hext4]. done. }
      destruct Hext1 as (evs1 & Htrace1 & _).
      destruct Hext2 as (evs2 & Htrace2 & _).
      destruct Hext as (evs4 & Htrace4 & _).
      exists (evs1 ++ evs2 ++
              (EvRunServiceAction SERVICE_RECOVER services :: invs) ++ evs4).
      split; [|split].
      * rewrite Htrace4, Htrace3, Htrace2, Htrace1.
        by rewrite <- !app_assoc.
      * split; [done|]. intros _. apply Exists_exists.
        exists (EvRunServiceAction SERVICE_RECOVER services).
        split; [|done]. rewrite !elem_of_app. right. right. left. left.
      * intros _. split.
        { rewrite !elem_of_app. right. right. left. left. }
        intros service Hin. rewrite !elem_of_app. right. right. left. right.
        rewrite Hinvs. by apply list_elem_of_fmap_2.
    + assert (Hext : extends
                (fun ev => event_action ev ≠ Some SERVICE_RECOVER) st (snd r)).
      { rewrite (Hno Hnot). destruct (AnyError (fst check)); simpl.
        - eapply extends_trans; (eapply extends_weaken; [|eassumption]);
            simpl; intros ev ->; done.
        - eapply extends_trans; (eapply extends_weaken; [|eassumption]);
            simpl; [intros ev -> | intros ev [-> | ->]]; done. }
      destruct Hext as (evs & Htrace & Hevs).
      exists evs. split; [done|]. split; [|done].
      split; [|done]. intros (ev & Hin & Hev)%Exists_exists.
      rewrite Forall_forall in Hevs. by destruct (Hevs ev Hin).
  - intros Hrecovering Hfail. by rewrite (Hyes Hrecovering), Hfail.
  - intros Hrecovering Hok. rewrite (Hyes Hrecovering), Hok.
    split; [done|]. rewrite run_phase_eq.
    destruct Hrecovering as (_ & _ & ->). simpl. fold run.
    by destruct (AnyError (fst run)).
Qed.

(** ** [CallStagedServices] *)

(** [CallServices] starts one goroutine, the rollback of its batch, when
    it returns "one or more runs failed" and [SkipRollback] is unset, and
    none otherwise. *)
Lemma CallServices_spawned ctx services opts st :
  let r := CallServices ctx services opts st in
  spawned (snd r) =
    spawned st ++
    if bool_decide (snd (fst r) = errors_New "one or more runs failed")
       && negb (SkipRollback opts)
    then [GoRunServiceAction ctx services SERVICE_ROLLBACK] else [].
Proof.
  simpl. rewrite CallServices_eq. cbv zeta.
  pose proof (RunServiceAction_spawned ctx services SERVICE_CHECK st valid_CHECK
                ltac:(done)) as Hsp1.
  set (check := RunServiceAction ctx services SERVICE_CHECK st) in *.
  destruct (on_action_error_extends opts ctx SERVICE_CHECK services (fst check)
              (snd check)) as (_ & Hsp2 & _).
  set (reported := snd (on_action_error opts ctx SERVICE_CHECK services
                          (fst check) (snd check))) in *.
  pose proof (RunServiceAction_spawned ctx services SERVICE_RECOVER reported
                valid_RECOVER ltac:(done)) as Hsp3.
  set (rec := RunServiceAction ctx services SERVICE_RECOVER reported) in *.
  destruct (run_phase_extends ctx services opts (fst check) (snd rec))
    as (_ & Hsp4).
  destruct (run_phase_extends ctx services opts (fst check) (snd check))
    as (_ & Hsp4').
  destruct (AnyError (fst check)); [|by rewrite Hsp4', Hsp1].
  destruct (is_nil (Value ctx "dryRun") && _); simpl.
  - destruct (AnyError (fst rec)); simpl.
    + by rewrite Hsp3, Hsp2, Hsp1, app_nil_r.
    + by rewrite Hsp4, Hsp3, Hsp2, Hsp1.
  - by rewrite Hsp2, Hsp1, app_nil_r.
Qed.

Lemma on_stage_start_spawned opts ctx services st :
  spawned (snd (on_stage_start opts ctx services st)) = spawned st.
Proof. unfold on_stage_start. by destruct (OnStageStart opts). Qed.

Lemma stage_result_spawned ctx opts stage st :
  let r := stage_result ctx opts stage st in
  spawned (snd r) =
    spawned st ++
    if bool_decide (snd (fst r) = errors_New "one or more runs failed")
       && negb (SkipRollback opts)
    then [GoRunServiceAction ctx stage SERVICE_ROLLBACK] else [].
Proof.
  simpl. unfold orchestration.stage_result, bind.
  pose proof (on_stage_start_spawned opts ctx stage st) as Hsp.
  destruct (on_stage_start opts ctx stage st) as [[] st1]. simpl in Hsp.
  by rewrite CallServices_spawned, Hsp.
Qed.

(** Stages that end without a summary failure start no goroutine. *)
Lemma stages_pass_spawned ctx opts (stages : list (list (Service W))) st st' :
  stages_pass ctx opts stages st = Some st' -> spawned st' = spawned st.
Proof.
  revert st. induction stages as [|stage stages IH]; intros st; simpl.
  - by intros [= ->].
  - pose proof (stage_result_spawned ctx opts stage st) as Hsp. simpl in Hsp.
    destruct (snd (fst (stage_result ctx opts stage st))); [done|].
    intros Hpass. rewrite (IH _ Hpass), Hsp. simpl. apply app_nil_r.
Qed.

Lemma stages_pass_one ctx opts (stage : list (Service W)) st :
  snd (fst (stage_result ctx opts stage st)) = None ->
  stages_pass ctx opts [stage] st = Some (snd (stage_result ctx opts stage st)).
Proof. intros H. simpl. by rewrite H. Qed.

Lemma staged_loop_unfold ctx stages opts i stage rest st :
  staged_loop ctx stages opts i (stage :: rest) st =
  let r := stage_result ctx opts stage st in
  match snd (fst r) with
  | Some msg =>
      ((i, fst (fst r), Some msg),
       if SkipRollback opts then snd r
       else snd (go (GoRollbackStages ctx stages i) (snd r)))
  | None => staged_loop ctx stages opts (S i) rest (snd r)
  end.
Proof.
  simpl. unfold orchestration.stage_result, bind.
  destruct (on_stage_start opts ctx stage st) as [[] st1].
  destruct (CallServices ctx stage opts st1) as [[errs [msg|]] st2]; simpl;
    [|done].
  by destruct (SkipRollback opts).
Qed.

Lemma staged_loop_fail ctx stages opts i pre stage post st st_k msg :
  stages_pass ctx opts pre st = Some st_k ->
  snd (fst (stage_result ctx opts stage st_k)) = Some msg ->
  staged_loop ctx stages opts i (pre ++ stage :: post) st =
  ((i + length pre, fst (fst (stage_result ctx opts stage st_k)), Some msg),
   if SkipRollback opts then snd (stage_result ctx opts stage st_k)
   else snd (go (GoRollbackStages ctx stages (i + length pre))
               (snd (stage_result ctx opts stage st_k)))).
Proof.
  revert i st. induction pre as [|stage' pre IH]; intros i st Hpass Hfail.
  - injection Hpass as ->. rewrite app_nil_l, staged_loop_unfold. cbv zeta.
    rewrite Hfail. simpl. by rewrite Nat.add_0_r.
  - simpl in Hpass. rewrite <- app_comm_cons, staged_loop_unfold. cbv zeta.
    destruct (snd (fst (stage_result ctx opts stage' st))); [done|].
    rewrite (IH (S i) _ Hpass Hfail). simpl.
    by replace (S (i + length pre)) with (i + S (length pre)) by lia.
Qed.

Lemma staged_loop_pass ctx stages opts i rest st st' :
  stages_pass ctx opts rest st = Some st' ->
  staged_loop ctx stages opts i rest st = ((length stages, [], None), st').
Proof.
  revert i st. induction rest as [|stage rest IH]; intros i st Hpass.
  - by injection Hpass as ->.
  - simpl in Hpass. rewrite staged_loop_unfold. cbv zeta.
    destruct (snd (fst (stage_result ctx opts stage st))); [done|].
    by apply IH.
Qed.

(** The goroutine of [CallStagedServices] rolls back the stages below [k],
    the last one first, each after the one before it is through. *)
Lemma rollback_stages_rolled_back ctx (stages : list (list (Service W))) k st0 :
  k <= length stages ->
  exists evs,
    trace (snd (rollback_stages ctx stages k st0)) = trace st0 ++ evs /\
    rolled_back (reverse (take k stages)) evs.
Proof.
  revert st0. induction k as [|j IH]; intros st0 Hk; simpl.
  - exists []. split; [by rewrite app_nil_r | constructor].
  - destruct (lookup_lt_is_Some_2 stages j) as [stage Hstage]; [lia|].
    rewrite Hstage. unfold bind.
    destruct (RunServiceAction_spec ctx stage SERVICE_ROLLBACK st0
                valid_ROLLBACK) as (_ & (invs & Hinvs & Htrace) & _).
    destruct (RunServiceAction ctx stage SERVICE_ROLLBACK st0) as [errs st1].
    simpl in Htrace.
    destruct (IH st1) as (evs & Htrace' & Hrolled); [lia|].
    exists (EvRunServiceAction SERVICE_ROLLBACK stage :: invs ++ evs).
    split.
    + rewrite Htrace', Htrace. by rewrite <- app_assoc.
    + rewrite (take_S_r _ _ _ Hstage), reverse_snoc. by constructor.
Qed.


(** ** The error slots *)

Lemma RunServiceAction_Run ctx services action st :
  fst (RunServiceAction ctx services action st) =
  fst (task.Run (proto_tasks action services) ctx (hd fifo (scheds st))
         (entered ctx services action st)).
Proof.
  unfold orchestration.RunServiceAction, orchestration.entered, bind, emit,
    on_world, next_schedule.
  cbv beta iota. cbn [scheds snd].
  set (st1 := {| world := _; trace := _; spawned := _; scheds := _ |}).
  destruct (task.Run (proto_tasks action services) ctx _ st1) as [errs st2].
  destruct RollbackErrorReporter; [destruct (String.eqb _ _)|]; done.
Qed.

Lemma ProtoService_Run_dispatch action (service : Service W) m ctx st :
  dispatch action service = Some m ->
  fst (ProtoService_Run {| service := service; action := action |} ctx st) =
  fst (m ctx (world st)).
Proof.
  unfold dispatch, ProtoService_Run, bind, emit, call. simpl.
  destruct (String.eqb action SERVICE_CHECK);
    [intros [= <-]; by destruct (Check service ctx (world st))|].
  destruct (String.eqb action SERVICE_RECOVER);
    [intros [= <-]; by destruct (Recover service ctx (world st))|].
  destruct (String.eqb action SERVICE_RUN);
    [intros [= <-]; by destruct (Run service ctx (world st))|].
  destruct (String.eqb action SERVICE_ROLLBACK);
    [intros [= <-]; by destruct (Rollback service ctx (world st))|].
  done.
Qed.

(** C6. [task.Run] returns one slot per task; every worker runs once, and
    slot [i] holds what the worker of [tasks[i]] received: nil or the
    failure the task returned, "internal server error" when it panicked
    (nil when the panic is recovered as nil), or "timeout" when the context
    was done first.  Hence [RunServiceAction]
    returns one slot per service, slot [i] holding the outcome of the
    action on service [i]. *)
Theorem Run_error_slots :
  (forall (St : Type) (tasks : list (@Runnable St)) ctx sch (st : St),
     let errs := fst (task.Run tasks ctx sch st) in
     length errs = length tasks /\
     order sch (length tasks) ≡ₚ seq 0 (length tasks) /\
     forall i t,
       tasks !! i = Some t ->
       exists st_i slot,
         state_before tasks ctx sch st i st_i /\
         errs !! i = Some slot /\
         slot = select ctx (ctxDoneFirst sch i) (recovered (fst (t ctx st_i))) /\
         (((fst (t ctx st_i) = Returns None \/ fst (t ctx st_i) = PanicsNil) /\
           slot = None) \/
          (exists msg,
             fst (t ctx st_i) = Returns (Some msg) /\ slot = Some msg) \/
          (cancellable ctx = true /\ slot = errors_New "timeout") \/
          (fst (t ctx st_i) = Panics /\
           slot = errors_New "internal server error"))) /\
  (forall ctx services action st,
     let sch := hd fifo (scheds st) in
     let errs := fst (RunServiceAction ctx services action st) in
     length errs = length services /\
     forall i service,
       services !! i = Some service ->
       let p := {| service := service; action := action |} in
       exists st_i,
         state_before (proto_tasks action services) ctx sch
           (entered ctx services action st) i st_i /\
         errs !! i =
           Some (select ctx (ctxDoneFirst sch i)
                   (recovered (fst (ProtoService_Run p ctx st_i)))) /\
         forall m,
           dispatch action service = Some m ->
           fst (ProtoService_Run p ctx st_i) = fst (m ctx (world st_i))).
Proof.
  split.
  - intros St tasks ctx sch st errs. subst errs.
    split; [apply Run_length|]. split; [apply order_Permutation|].
    intros i t Ht.
    destruct (state_before_exists tasks ctx sch st i) as [st_i Hbefore];
      [by eapply lookup_lt_Some|].
    exists st_i, (select ctx (ctxDoneFirst sch i) (recovered (fst (t ctx st_i)))).
    split; [done|]. split; [by apply Run_slot|]. split; [done|].
    unfold select.
    destruct (cancellable ctx); simpl;
      [destruct (ctxDoneFirst sch i); [right; right; by left|]|];
      (destruct (fst (t ctx st_i)) as [[msg|]| |]; simpl;
       [right; left; by exists msg | left; split; [by left | done]
       | right; right; by right | left; split; [by right | done]]).
  - intros ctx services action st sch errs. subst errs.
    rewrite RunServiceAction_Run. fold sch. split.
    + rewrite Run_length. apply length_fmap.
    + intros i service Hservice p.
      assert (Ht : proto_tasks action services !! i
                   = Some (ProtoService_Run p)).
      { unfold proto_tasks. by rewrite list_lookup_fmap, Hservice. }
      destruct (state_before_exists (proto_tasks action services) ctx sch
                  (entered ctx services action st) i)
        as [st_i Hbefore]; [by eapply lookup_lt_Some|].
      exists st_i. split; [done|]. split; [by apply Run_slot|].
      intros m Hm. by apply ProtoService_Run_dispatch.
Qed.

End Facts.
End coordinator_facts.

(* ===================================================================== *)
(** * Properties of the REST adapter                                      *)
(* ===================================================================== *)

Module rest_facts.
Import orchestration.

Section Adapter.
Context {A : Type}.
Implicit Types (proto : RestApiService A) (ctx : Context) (a : A).

(** [Run] stores a response and changes nothing else of the struct. *)
Lemma RestApiService_Run_keeps proto ctx a :
  let ran := snd (fst (RestApiService_Run proto ctx a)) in
  let simple := RestApiService_SimpleRestApiService proto in
  let simple' := RestApiService_SimpleRestApiService ran in
  backup ran = backup proto /\
  Api simple' = Api simple /\ Action simple' = Action simple /\
  RequestName simple' = RequestName simple /\
  RequestPayload simple' = RequestPayload simple.
Proof.
  unfold RestApiService_Run, SimpleRestApiService_Run. simpl.
  destruct (String.eqb _ REST_API_GET);
    [by destruct (Get _ _ _ _) as [[? ?] ?]|].
  destruct (String.eqb _ REST_API_POST);
    [by destruct (Post _ _ _ _) as [[? ?] ?]|].
  destruct (String.eqb _ REST_API_PUT);
    [by destruct (Put _ _ _ _) as [[? ?] ?]|].
  destruct (String.eqb _ REST_API_DELETE);
    [by destruct (Delete _ _ _ _) as [[? ?] ?]|].
  destruct (String.eqb _ REST_API_LIST);
    [by destruct (List _ _ _) as [[? ?] ?]|].
  done.
Qed.

Lemma RestApiService_Check_POST proto ctx a :
  let simple := RestApiService_SimpleRestApiService proto in
  let got := Get (Api simple) ctx (RequestName simple) a in
  Action simple = REST_API_POST ->
  RestApiService_Check proto ctx a =
  (Returns (if is_nil (snd (fst got))
            then errors_New ("cannot create " +:+ RequestName simple
                               +:+ " because it already exists")
            else None),
   proto, snd got).
Proof.
  intros simple got HPOST. unfold RestApiService_Check. fold simple.
  rewrite HPOST. simpl. fold got.
  by destruct got as [[? []] ?].
Qed.

Lemma RestApiService_Check_backup proto ctx a :
  let simple := RestApiService_SimpleRestApiService proto in
  let got := Get (Api simple) ctx (RequestName simple) a in
  Action simple = REST_API_PUT \/ Action simple = REST_API_DELETE ->
  RestApiService_Check proto ctx a =
  (Returns (snd (fst got)), store_backup proto (fst (fst got)), snd got).
Proof.
  intros simple got Haction. unfold RestApiService_Check. fold simple.
  destruct Haction as [-> | ->]; simpl; fold got; by destruct got as [[? ?] ?].
Qed.

Lemma RestApiService_Rollback_PUT proto ctx a :
  let simple := RestApiService_SimpleRestApiService proto in
  let put := Put (Api simple) ctx (backup proto) a in
  Action simple = REST_API_PUT ->
  RestApiService_Rollback proto ctx a = (Returns (snd (fst put)), proto, snd put).
Proof.
  intros simple put HPUT. unfold RestApiService_Rollback. fold simple.
  rewrite HPUT. simpl. fold put. by destruct put as [[? ?] ?].
Qed.

Lemma RestApiService_Rollback_DELETE proto ctx a :
  let simple := RestApiService_SimpleRestApiService proto in
  let post := Post (Api simple) ctx (backup proto) a in
  Action simple = REST_API_DELETE ->
  RestApiService_Rollback proto ctx a =
  (Returns (snd (fst post)), proto, snd post).
Proof.
  intros simple post HDELETE. unfold RestApiService_Rollback. fold simple.
  rewrite HDELETE. simpl. fold post. by destruct post as [[? ?] ?].
Qed.

Lemma RestApiService_Rollback_POST proto ctx a payload :
  let simple := RestApiService_SimpleRestApiService proto in
  let deleted := Delete (Api simple) ctx (object_name payload) a in
  Action simple = REST_API_POST ->
  RequestPayload simple = Some payload ->
  RestApiService_Rollback proto ctx a =
  (Returns (snd (fst deleted)), proto, snd deleted).
Proof.
  intros simple deleted HPOST Hpayload. unfold RestApiService_Rollback.
  fold simple. rewrite HPOST, Hpayload. simpl. fold deleted.
  by destruct deleted as [[? ?] ?].
Qed.

Lemma RestApiService_read_only proto ctx a :
  let simple := RestApiService_SimpleRestApiService proto in
  Action simple = REST_API_GET \/ Action simple = REST_API_LIST ->
  RestApiService_Check proto ctx a = (Returns None, proto, a) /\
  RestApiService_Rollback proto ctx a = (Returns None, proto, a).
Proof.
  intros simple Haction.
  unfold RestApiService_Check, RestApiService_Rollback. fold simple.
  by destruct Haction as [-> | ->].
Qed.

End Adapter.

(** The calls an adapter over a logged API makes. *)
Lemma logged_calls {A : Type} (api0 : RestApi A) ctx (a : A)
    (log : list ApiCall) :
  (forall name, snd (snd (Get (logged api0) ctx name (a, log)))
                = log ++ [CallGet name]) /\
  (forall obj, snd (snd (Post (logged api0) ctx obj (a, log)))
               = log ++ [CallPost obj]) /\
  (forall obj, snd (snd (Put (logged api0) ctx obj (a, log)))
               = log ++ [CallPut obj]) /\
  (forall name, snd (snd (Delete (logged api0) ctx name (a, log)))
                = log ++ [CallDelete name]).
Proof.
  repeat split; intros x; simpl.
  - by destruct (Get api0 ctx x a).
  - by destruct (Post api0 ctx x a).
  - by destruct (Put api0 ctx x a).
  - by destruct (Delete api0 ctx x a).
Qed.

(** C8. For a [RestApiService] (as [RestApiAsService] builds it, in any
    state of its stored response and backup):
    - POST: [Check] calls [Get(name)] and fails with "cannot create <name>
      because it already exists" exactly when [Get] succeeds; [Rollback]
      calls [Delete(payload.Name())] and returns its error;
    - PUT, DELETE: [Check] calls [Get(name)], stores the object as backup
      and returns the error of [Get]; [Rollback] calls [Put(backup)] for
      PUT and [Post(backup)] for DELETE, also after a [Run] in between;
    - GET, LIST: [Check] and [Rollback] succeed and leave everything as it
      is.
    Over an API that logs its calls, these are the only calls made. *)
Theorem RestApiService_lifecycle :
  (forall (A : Type) (proto : RestApiService A) ctx (a : A),
     let simple := RestApiService_SimpleRestApiService proto in
     let api := Api simple in
     let name := RequestName simple in
     let got := Get api ctx name a in
     (Action simple = REST_API_POST ->
      RestApiService_Check proto ctx a =
        (Returns (if is_nil (snd (fst got))
                  then errors_New ("cannot create " +:+ name
                                     +:+ " because it already exists")
                  else None),
         proto, snd got) /\
      forall payload,
        RequestPayload simple = Some payload ->
        let deleted := Delete api ctx (object_name payload) a in
        RestApiService_Rollback proto ctx a =
          (Returns (snd (fst deleted)), proto, snd deleted)) /\
     (Action simple = REST_API_PUT ->
      RestApiService_Check proto ctx a =
        (Returns (snd (fst got)), store_backup proto (fst (fst got)), snd got) /\
      (let put := Put api ctx (backup proto) a in
       RestApiService_Rollback proto ctx a =
         (Returns (snd (fst put)), proto, snd put)) /\
      (forall a1 a2,
         let checked := snd (fst (RestApiService_Check proto ctx a)) in
         let ran := snd (fst (RestApiService_Run checked ctx a1)) in
         let put := Put api ctx (fst (fst got)) a2 in
         RestApiService_Rollback ran ctx a2 =
           (Returns (snd (fst put)), ran, snd put))) /\
     (Action simple = REST_API_DELETE ->
      RestApiService_Check proto ctx a =
        (Returns (snd (fst got)), store_backup proto (fst (fst got)), snd got) /\
      (let post := Post api ctx (backup proto) a in
       RestApiService_Rollback proto ctx a =
         (Returns (snd (fst post)), proto, snd post)) /\
      (forall a1 a2,
         let checked := snd (fst (RestApiService_Check proto ctx a)) in
         let ran := snd (fst (RestApiService_Run checked ctx a1)) in
         let post := Post api ctx (fst (fst got)) a2 in
         RestApiService_Rollback ran ctx a2 =
           (Returns (snd (fst post)), ran, snd post))) /\
     (Action simple = REST_API_GET \/ Action simple = REST_API_LIST ->
      RestApiService_Check proto ctx a = (Returns None, proto, a) /\
      RestApiService_Rollback proto ctx a = (Returns None, proto, a))) /\
  (forall (A : Type) (api0 : RestApi A)
          (proto : RestApiService (A * list ApiCall)) ctx (a : A)
          (log : list ApiCall),
     let simple := RestApiService_SimpleRestApiService proto in
     let name := RequestName simple in
     let calls_Check := snd (snd (RestApiService_Check proto ctx (a, log))) in
     let calls_Rollback :=
       snd (snd (RestApiService_Rollback proto ctx (a, log))) in
     Api simple = logged api0 ->
     (Action simple = REST_API_POST ->
      calls_Check = log ++ [CallGet name] /\
      forall payload,
        RequestPayload simple = Some payload ->
        calls_Rollback = log ++ [CallDelete (object_name payload)]) /\
     (Action simple = REST_API_PUT ->
      calls_Check = log ++ [CallGet name] /\
      calls_Rollback = log ++ [CallPut (backup proto)]) /\
     (Action simple = REST_API_DELETE ->
      calls_Check = log ++ [CallGet name] /\
      calls_Rollback = log ++ [CallPost (backup proto)]) /\
     (Action simple = REST_API_GET \/ Action simple = REST_API_LIST ->
      calls_Check = log /\ calls_Rollback = log)).
Proof.
  split.
  - intros A proto ctx a simple api name got. repeat split.
    + by apply RestApiService_Check_POST.
    + intros payload Hpayload deleted.
      by apply RestApiService_Rollback_POST.
    + apply RestApiService_Check_backup. by left.
    + by apply RestApiService_Rollback_PUT.
    + intros a1 a2 checked ran put.
      assert (Hchecked : checked = store_backup proto (fst (fst got))).
      { subst checked. rewrite RestApiService_Check_backup by (by left). done. }
      destruct (RestApiService_Run_keeps checked ctx a1)
        as (Hbackup & HApi & HAction & _).
      fold ran in Hbackup, HApi, HAction.
      rewrite RestApiService_Rollback_PUT; rewrite ?HAction, ?Hchecked; [|done].
      rewrite HApi, Hbackup, Hchecked. done.
    + apply RestApiService_Check_backup. by right.
    + by apply RestApiService_Rollback_DELETE.
    + intros a1 a2 checked ran post.
      assert (Hchecked : checked = store_backup proto (fst (fst got))).
      { subst checked. rewrite RestApiService_Check_backup by (by right). done. }
      destruct (RestApiService_Run_keeps checked ctx a1)
        as (Hbackup & HApi & HAction & _).
      fold ran in Hbackup, HApi, HAction.
      rewrite RestApiService_Rollback_DELETE; rewrite ?HAction, ?Hchecked;
        [|done].
      rewrite HApi, Hbackup, Hchecked. done.
    + by apply RestApiService_read_only.
    + by apply RestApiService_read_only.
  - intros A api0 proto ctx a log simple name calls_Check calls_Rollback HApi.
    destruct (logged_calls api0 ctx a log) as (HGet & HPost & HPut & HDelete).
    subst calls_Check calls_Rollback. repeat split.
    + rewrite RestApiService_Check_POST by done. simpl.
      fold simple. rewrite HApi. apply HGet.
    + intros payload Hpayload.
      rewrite (RestApiService_Rollback_POST _ _ _ payload) by done. simpl.
      fold simple. rewrite HApi. apply HDelete.
    + rewrite RestApiService_Check_backup by (by left). simpl.
      fold simple. rewrite HApi. apply HGet.
    + rewrite RestApiService_Rollback_PUT by done. simpl.
      fold simple. rewrite HApi. apply HPut.
    + rewrite RestApiService_Check_backup by (by right). simpl.
      fold simple. rewrite HApi. apply HGet.
    + rewrite RestApiService_Rollback_DELETE by done. simpl.
      fold simple. rewrite HApi. apply HPost.
    + match goal with
      | H : _ \/ _ |- _ =>
          by rewrite (proj1 (RestApiService_read_only proto ctx (a, log) H))
      end.
    + match goal with
      | H : _ \/ _ |- _ =>
          by rewrite (proj2 (RestApiService_read_only proto ctx (a, log) H))
      end.
Qed.

(** C9 (amended). [GetResponse(err)] of a REST adapter returns the message
    of [err] when it is not nil and the stored response as it is otherwise,
    nil included; after [Run] the stored response is what the API returned.
    The "ok" default, with its flag, is that of [Responder.GetResponse]. *)
Theorem GetResponse_spec :
  (forall (A : Type) (proto : SimpleRestApiService A) (err : error),
     SimpleRestApiService_GetResponse proto err =
     match err with
     | Some msg => Some (VString msg)
     | None => SimpleRestApiService_Response proto
     end) /\
  (forall (A : Type) (proto : RestApiService A) (err : error),
     RestApiService_GetResponse proto err =
     match err with
     | Some msg => Some (VString msg)
     | None =>
         SimpleRestApiService_Response
           (RestApiService_SimpleRestApiService proto)
     end) /\
  (forall (A : Type) (proto : RestApiService A) ctx (a : A),
     let simple := RestApiService_SimpleRestApiService proto in
     let ran := snd (fst (RestApiService_Run proto ctx a)) in
     (Action simple = REST_API_GET ->
      RestApiService_GetResponse ran None =
      any_of_Nameable (fst (fst (Get (Api simple) ctx (RequestName simple) a)))) /\
     (Action simple = REST_API_POST ->
      RestApiService_GetResponse ran None =
      fst (fst (Post (Api simple) ctx (RequestPayload simple) a))) /\
     (Action simple = REST_API_PUT ->
      RestApiService_GetResponse ran None =
      fst (fst (Put (Api simple) ctx (RequestPayload simple) a))) /\
     (Action simple = REST_API_DELETE ->
      RestApiService_GetResponse ran None =
      fst (fst (Delete (Api simple) ctx (RequestName simple) a))) /\
     (Action simple = REST_API_LIST ->
      RestApiService_GetResponse ran None =
      fst (fst (List (Api simple) ctx a)))) /\
  (forall (r : Responder) (err : error),
     Responder_GetResponse r err =
     match err with
     | Some msg => Some (VString msg)
     | None =>
         match Responder_Response r with
         | Some response => Some response
         | None =>
             if UseNullResponseAsDefault r then None else Some (VString "ok")
         end
     end).
Proof.
  split; [by intros A proto [msg|] |].
  split; [by intros A proto [msg|] |].
  split.
  - intros A proto ctx a simple ran. subst ran.
    unfold RestApiService_Run, SimpleRestApiService_Run. fold simple.
    repeat split; intros ->; simpl.
    + by destruct (Get _ _ _ _) as [[? ?] ?].
    + by destruct (Post _ _ _ _) as [[? ?] ?].
    + by destruct (Put _ _ _ _) as [[? ?] ?].
    + by destruct (Delete _ _ _ _) as [[? ?] ?].
    + by destruct (List _ _ _) as [[? ?] ?].
  - intros [[response|] flag] [msg|]; simpl; try done.
    + by rewrite andb_false_r.
    + by destruct flag.
Qed.

End rest_facts.

(* ===================================================================== *)
(** * The example API, run                                                *)
(* ===================================================================== *)

Module example_facts.
Import task orchestration example.

Local Abbreviation CallServices :=
  (orchestration.CallServices ActionLogger RollbackErrorReporter).
Local Abbreviation CallServicesAndReply :=
  (orchestration.CallServicesAndReply ActionLogger RollbackErrorReporter).
Local Abbreviation CallStagedServices :=
  (orchestration.CallStagedServices ActionLogger RollbackErrorReporter).
Local Abbreviation run_goroutine :=
  (orchestration.run_goroutine ActionLogger RollbackErrorReporter).
Local Abbreviation stage_result :=
  (orchestration.stage_result ActionLogger RollbackErrorReporter).

(** Scenario S1 of the task runner: a success, a failure, a task the
    context does not wait for, a panic. *)
Example Run_mix :
  let failing : @Runnable unit := fun _ st => (Returns (Some "failed"), st) in
  let sch := {| picks := [3; 0]; ctxDoneFirst := Nat.eqb 2 |} in
  fst (task.Run [succeeding; failing; succeeding; panicking]
         (WithCancel Background) sch tt) =
  [None; Some "failed"; Some "timeout"; Some "internal server error"].
Proof. reflexivity. Qed.

(** Scenario S3: four claims of 100 MB are created; the reply is 200 with
    "ok" for every datacenter. *)
Example reply_ok :
  fst (CallServicesAndReply Background services opts
         (init (adapters REST_API_POST "" small) fresh [])) =
  Returns (StatusOK,
           {| Status := "ok";
              Details :=
                (fun dc => {| ResponseDetail_Name := "MyService Create " +:+ dc;
                              Detail := Some (VString "ok") |})
                <$> datacenters |}).
Proof. vm_compute. reflexivity. Qed.

(** Scenario S5, with the creations one after the other: three claims of
    600 MB fit, the fourth does not; once the rollback goroutine has run,
    the store is as it was, and the reporter is started with the failure of
    the deletion of the claim that was never created. *)
Example rollback_restores :
  let r := CallServices Background services opts
             (init (adapters REST_API_POST "" large) fresh []) in
  let rollback := GoRunServiceAction Background services SERVICE_ROLLBACK in
  let st' := snd (run_goroutine rollback (snd r)) in
  AvailableMemoryMb (backend (world (snd r))) = 248%Z /\
  backend (world st') = fresh /\
  match spawned st' with
  | [_; GoRollbackErrorReporter _ _ errs] =>
      errs = [None; None; None; Some "not found"]
  | _ => False
  end.
Proof. vm_compute. repeat split; reflexivity. Qed.


(** The same creation repeated under the name of the claim: every check
    fails, nothing is run; neither is anything recovered or run when
    "recover" is set next to "dryRun". *)
Lemma CallServices_check_failure_witness :
  let st := init (adapters REST_API_POST "claim" small) claimed [] in
  let conflicts :=
    replicate 4 (Some "cannot create claim because it already exists") in
  let r := CallServices Background services opts st in
  let r' := CallServices dryRun_recovering services opts st in
  (fst r = (conflicts, errors_New "one or more pre-run checks failed") /\
   extends (fun ev => event_action ev ≠ Some SERVICE_RUN) st (snd r) /\
   spawned (snd r) = []) /\
  (fst r' = (conflicts, errors_New "one or more pre-run checks failed") /\
   extends (fun ev => event_action ev ≠ Some SERVICE_RUN) st (snd r') /\
   spawned (snd r') = []).
Proof.
  intros st conflicts r r'. split.
  - destruct (coordinator_facts.CallServices_check_failure
                ActionLogger RollbackErrorReporter Background services opts st)
      as (Hr & Hext & Hsp).
    + vm_compute. reflexivity.
    + left. reflexivity.
    + split; [|split].
      * etransitivity; [exact (f_equal fst Hr)|]. vm_compute. reflexivity.
      * exact Hext.
      * exact Hsp.
  - destruct (coordinator_facts.CallServices_check_failure
                ActionLogger RollbackErrorReporter dryRun_recovering services
                opts st)
      as (Hr & Hext & Hsp).
    + vm_compute. reflexivity.
    + right. vm_compute. discriminate.
    + split; [|split].
      * etransitivity; [exact (f_equal fst Hr)|]. vm_compute. reflexivity.
      * exact Hext.
      * exact Hsp.
Defined.

(** An update of what does not exist, with "recover" set: without a
    recovery the call ends with the CHECK errors; with the recovery that
    creates the object, it goes on and the update runs. *)
Lemma CallServices_recover_witness :
  let st1 := init (adapters REST_API_PUT "claim" small) fresh [] in
  let st2 :=
    init (with_Recovery <$> adapters REST_API_PUT "claim" small) fresh [] in
  fst (CallServices recovering services opts st1) =
    (replicate 4 (Some "not found"),
     errors_New "unable to recover from one or more failed pre-run checks") /\
  fst (CallServices recovering services opts st2) = (replicate 4 None, None).
Proof.
  intros st1 st2. split.
  - destruct (coordinator_facts.CallServices_recover
                ActionLogger RollbackErrorReporter recovering services opts st1)
      as (_ & Hfail & _).
    etransitivity; [apply (f_equal fst), Hfail|].
    + vm_compute. repeat split; discriminate.
    + vm_compute. reflexivity.
    + vm_compute. reflexivity.
  - destruct (coordinator_facts.CallServices_recover
                ActionLogger RollbackErrorReporter recovering services opts st2)
      as (_ & _ & Hok).
    destruct Hok as [_ Hr].
    + vm_compute. repeat split; discriminate.
    + vm_compute. reflexivity.
    + etransitivity; [exact Hr|]. vm_compute. reflexivity.
Defined.

(** A dry run with the value [false] under "dryRun": only CHECK. *)
Lemma CallServices_dryRun_witness :
  let st := init (adapters REST_API_POST "claim" small) fresh [] in
  let r := CallServices dryRun services opts st in
  fst r = (replicate 4 None, None) /\
  backend (world (snd r)) = fresh /\
  spawned (snd r) = [] /\
  extends (fun ev => forall action,
             event_action ev = Some action -> action = SERVICE_CHECK)
    st (snd r).
Proof.
  intros st r.
  destruct (coordinator_facts.CallServices_dryRun
              ActionLogger RollbackErrorReporter dryRun services opts st
              (VBool false))
    as (Hext & Hsp & Hok & _).
  - reflexivity.
  - destruct Hok as (Hr & _).
    + vm_compute. reflexivity.
    + split; [|split; [|split]].
      * etransitivity; [exact (f_equal fst Hr)|]. vm_compute. reflexivity.
      * etransitivity;
          [exact (f_equal (fun x => backend (world (snd x))) Hr)|].
        vm_compute. reflexivity.
      * exact Hsp.
      * exact Hext.
Defined.




(** The adapter of one datacenter, creating a claim that exists: the check
    reports the conflict, the rollback deletes the claim. *)
Lemma RestApiService_lifecycle_witness :
  let api := MyServiceApi "DC1_BLUE" in
  let proto :=
    RestApiAsService api REST_API_POST "MyService Create DC1_BLUE" "claim"
      (Some small) in
  fst (fst (RestApiService_Check proto Background claimed)) =
    Returns (Some "cannot create claim because it already exists") /\
  fst (fst (RestApiService_Check proto Background fresh)) = Returns None /\
  fst (fst (RestApiService_Rollback proto Background claimed)) = Returns None /\
  FakeDbRead "DC1_BLUEclaim"
    (snd (RestApiService_Rollback proto Background claimed)) = None /\
  snd (snd (RestApiService_Rollback
              (RestApiAsService (logged api) REST_API_POST
                 "MyService Create DC1_BLUE" "claim" (Some small))
              Background (claimed, []))) = [CallDelete "claim"].
Proof.
  intros api proto.
  destruct rest_facts.RestApiService_lifecycle as (Hresults & Hcalls).
  destruct (Hresults FakeDb proto Background claimed) as (HPOST & _).
  destruct (HPOST eq_refl) as (Hcheck & Hrollback).
  destruct (Hresults FakeDb proto Background fresh) as (HPOST' & _).
  destruct (HPOST' eq_refl) as (Hcheck' & _).
  specialize (Hrollback small eq_refl).
  split; [|split; [|split; [|split]]].
  - etransitivity; [exact (f_equal (fun x => fst (fst x)) Hcheck)|].
    vm_compute. reflexivity.
  - etransitivity; [exact (f_equal (fun x => fst (fst x)) Hcheck')|].
    vm_compute. reflexivity.
  - etransitivity; [exact (f_equal (fun x => fst (fst x)) Hrollback)|].
    vm_compute. reflexivity.
  - etransitivity;
      [exact (f_equal (fun x => FakeDbRead "DC1_BLUEclaim" (snd x)) Hrollback)|].
    vm_compute. reflexivity.
  - destruct (Hcalls FakeDb api
                (RestApiAsService (logged api) REST_API_POST
                   "MyService Create DC1_BLUE" "claim" (Some small))
                Background claimed [] eq_refl) as (HPOSTc & _).
    destruct (HPOSTc eq_refl) as (_ & Hdelete).
    exact (Hdelete small eq_refl).
Defined.

(** C9, as stated, fails: an adapter whose stored response is nil, before
    [Run] or after a [Run] that failed, answers nil to [GetResponse(nil)],
    not "ok"; so a dry run replies without details. *)
Lemma GetResponse_nil_not_ok :
  let proto :=
    RestApiAsService (MyServiceApi "DC1_BLUE") REST_API_POST
      "MyService Create DC1_BLUE" "claim" (Some small) in
  let ran := snd (fst (RestApiService_Run proto Background claimed)) in
  SimpleRestApiService_Response (RestApiService_SimpleRestApiService proto)
    = None /\
  RestApiService_GetResponse proto None = None /\
  RestApiService_GetResponse proto None ≠ Some (VString "ok") /\
  fst (fst (RestApiService_Run proto Background claimed)) =
    Returns (Some "already exists") /\
  RestApiService_GetResponse ran None = None /\
  fst (CallServicesAndReply dryRun services opts
         (init (adapters REST_API_POST "claim" small) fresh [])) =
    Returns (StatusOK, {| Status := "ok"; Details := [] |}).
Proof.
  split; [reflexivity|]. split; [reflexivity|]. split; [discriminate|].
  split; [vm_compute; reflexivity|]. split; vm_compute; reflexivity.
Qed.

End example_facts.

(* ===================================================================== *)
(** * More on the task runner                                             *)
(* ===================================================================== *)

Module runner_facts.
Import task task_facts.

Lemma AnyError_app (errs1 errs2 : list error) :
  AnyError (errs1 ++ errs2) = AnyError errs1 || AnyError errs2.
Proof.
  induction errs1 as [|err errs1 IH]; simpl; [reflexivity|].
  destruct err; simpl; [reflexivity | exact IH].
Qed.

Lemma AnyError_replicate (n : nat) : AnyError (replicate n None) = false.
Proof. induction n as [|n IH]; simpl; [reflexivity | exact IH]. Qed.

(** X1. [AnyError] is true exactly when some slot of the list holds an
    error, false exactly when the list is nil throughout (the empty list
    included), and over a concatenation it is the disjunction of the
    parts. *)
Theorem AnyError_spec (errs1 errs2 : list error) :
  (AnyError errs1 = true <-> exists i msg, errs1 !! i = Some (Some msg)) /\
  (AnyError errs1 = false <-> errs1 = replicate (length errs1) None) /\
  AnyError (errs1 ++ errs2) = AnyError errs1 || AnyError errs2.
Proof.
  split; [|split].
  - rewrite AnyError_true. split.
    + intros [msg Hin]. apply list_elem_of_lookup in Hin as [i Hi]. eauto.
    + intros (i & msg & Hi). exists msg. by eapply list_elem_of_lookup_2.
  - rewrite AnyError_false. split.
    + intros Hall. induction Hall as [|err errs -> _ IH]; simpl; [reflexivity|].
      by rewrite <- IH.
    + intros Heq. rewrite Heq. by apply Forall_replicate.
  - apply AnyError_app.
Qed.

Section Run.
Context {St : Type}.
Implicit Types (tasks : list (@Runnable St)) (ctx : Context) (sch : Schedule).

Lemma subworker_invariant (Inv : St -> Prop) tasks ctx (count : nat) (s : St) :
  (forall t s, t ∈ tasks -> Inv s -> Inv (snd (t ctx s))) ->
  Inv s -> Inv (snd (subworker tasks ctx count s)).
Proof.
  intros Hkeep Hs. unfold subworker.
  destruct (tasks !! count) as [t|] eqn:Ht; [|exact Hs].
  specialize (Hkeep t s (list_elem_of_lookup_2 _ _ _ Ht) Hs).
  by destruct (t ctx s).
Qed.

Lemma foldl_worker_invariant (Inv : St -> Prop) tasks ctx sch
    (ord : list nat) (acc : list error * St) :
  (forall t s, t ∈ tasks -> Inv s -> Inv (snd (t ctx s))) ->
  Inv (snd acc) -> Inv (snd (foldl (worker tasks ctx sch) acc ord)).
Proof.
  intros Hkeep. revert acc.
  induction ord as [|count ord IH]; intros acc Hacc; [exact Hacc|].
  simpl. apply IH. unfold worker.
  pose proof (subworker_invariant Inv tasks ctx count (snd acc) Hkeep Hacc).
  by destruct (subworker tasks ctx count (snd acc)).
Qed.

Lemma Run_slots tasks ctx sch (st : St) (P : error -> Prop) :
  (forall i t st_i,
     tasks !! i = Some t -> state_before tasks ctx sch st i st_i ->
     P (select ctx (ctxDoneFirst sch i) (recovered (fst (t ctx st_i))))) ->
  Forall P (fst (Run tasks ctx sch st)).
Proof.
  intros Hslot. apply Forall_lookup. intros i err Hi.
  assert (Hlt : i < length tasks).
  { rewrite <- (Run_length tasks ctx sch st). by eapply lookup_lt_Some. }
  destruct (lookup_lt_is_Some_2 tasks i Hlt) as [t Ht].
  destruct (state_before_exists tasks ctx sch st i Hlt) as [st_i Hst].
  rewrite (Run_slot _ _ _ _ _ _ _ Ht Hst) in Hi.
  injection Hi as <-. by eapply Hslot.
Qed.

(** X2. Under a context that is never done ([context.TODO()],
    [context.Background()]) no slot holds "timeout": slot [i] holds what
    task [i] returned, or what the worker receives when it panicked
    ("internal server error", nil for a panic recovered as nil); so a
    batch of tasks that all return nil gives no error, whatever its size
    and the schedule. *)
Theorem Run_without_deadline tasks ctx sch (st : St) :
  cancellable ctx = false ->
  (forall i t st_i,
     tasks !! i = Some t -> state_before tasks ctx sch st i st_i ->
     fst (Run tasks ctx sch st) !! i = Some (recovered (fst (t ctx st_i)))) /\
  ((forall (t : Runnable) s, t ∈ tasks -> fst (t ctx s) = Returns None) ->
   AnyError (fst (Run tasks ctx sch st)) = false).
Proof.
  intros Hctx. split.
  - intros i t st_i Ht Hst.
    rewrite (Run_slot _ _ _ _ _ _ _ Ht Hst). unfold select. by rewrite Hctx.
  - intros Hnil. apply AnyError_false, Run_slots.
    intros i t st_i Ht _. unfold select.
    by rewrite Hctx, (Hnil t st_i (list_elem_of_lookup_2 _ _ _ Ht)).
Qed.

(** X3. When the context is done before any worker has the result of its
    task, every slot holds "timeout", whatever the tasks do (return,
    fail or panic); there is still one slot per task. *)
Theorem Run_deadline_first tasks ctx sch (st : St) :
  cancellable ctx = true ->
  (forall i, i < length tasks -> ctxDoneFirst sch i = true) ->
  fst (Run tasks ctx sch st) =
  replicate (length tasks) (errors_New "timeout").
Proof.
  intros Hctx Hdone.
  assert (Hall : Forall (fun err => err = errors_New "timeout")
                   (fst (Run tasks ctx sch st))).
  { apply Run_slots. intros i t st_i Ht _. unfold select.
    rewrite Hctx, (Hdone i); [reflexivity|]. by eapply lookup_lt_Some. }
  rewrite <- (Run_length tasks ctx sch st).
  induction Hall as [|err errs -> _ IH]; simpl; [reflexivity|].
  by rewrite <- IH.
Qed.

(** Of the runner as it is modelled, the bodies taken one after the
    other: used to follow the state through a batch whose methods do
    nothing to it. *)
Lemma Run_keeps (Inv : St -> Prop) tasks ctx sch (st : St) :
  (forall t s, t ∈ tasks -> Inv s -> Inv (snd (t ctx s))) ->
  Inv st -> Inv (snd (Run tasks ctx sch st)).
Proof. intros Hkeep Hst. unfold Run. by apply foldl_worker_invariant. Qed.

End Run.
End runner_facts.

(* ===================================================================== *)
(** * More on the coordinator                                             *)
(* ===================================================================== *)

Module service_facts.
Import task orchestration staged task_facts coordinator_facts runner_facts.

Section Facts.
Context {W : Type}.
Variable ActionLogger : Context -> list (Service W) -> ServiceAction -> W -> W.
Variable RollbackErrorReporter :
  option (Context -> list (Service W) -> list error -> W -> W).

Local Abbreviation RunServiceAction :=
  (RunServiceAction ActionLogger RollbackErrorReporter).
Local Abbreviation CallServices :=
  (CallServices ActionLogger RollbackErrorReporter).
Local Abbreviation run_phase := (run_phase ActionLogger RollbackErrorReporter).
Local Abbreviation CallStagedServices :=
  (CallStagedServices ActionLogger RollbackErrorReporter).
Local Abbreviation staged_loop := (staged_loop ActionLogger RollbackErrorReporter).
Local Abbreviation rollback_stages :=
  (rollback_stages ActionLogger RollbackErrorReporter).
Local Abbreviation run_goroutine :=
  (run_goroutine ActionLogger RollbackErrorReporter).
Local Abbreviation stage_result := (stage_result ActionLogger RollbackErrorReporter).
Local Abbreviation entered := (entered ActionLogger).
Local Abbreviation CallServicesAndReply :=
  (CallServicesAndReply ActionLogger RollbackErrorReporter).
Local Abbreviation CallStagedServicesAndReply :=
  (CallStagedServicesAndReply ActionLogger RollbackErrorReporter).

Implicit Types (ctx : Context) (services : list (Service W))
  (opts : CallServicesOpts W) (st : State W) (action : ServiceAction).

(** [RunServiceAction], step by step. *)
Lemma RunServiceAction_unfold ctx services action st :
  RunServiceAction ctx services action st =
  let r := task.Run (proto_tasks action services) ctx (hd fifo (scheds st))
             (entered ctx services action st) in
  (fst r,
   if is_nil RollbackErrorReporter then snd r
   else if String.eqb action SERVICE_ROLLBACK
        then snd (go (GoRollbackErrorReporter ctx services (fst r)) (snd r))
        else snd r).
Proof.
  unfold orchestration.RunServiceAction, orchestration.entered, bind, emit,
    on_world, next_schedule.
  cbv beta iota zeta. simpl.
  destruct (task.Run _ _ _ _) as [errs st2]. simpl.
  destruct RollbackErrorReporter as [reporter|]; simpl; [|reflexivity].
  by destruct (String.eqb action SERVICE_ROLLBACK).
Qed.

Lemma entered_eq ctx services action st :
  entered ctx services action st =
  {| world := ActionLogger ctx services action (world st);
     trace := trace st ++ [EvRunServiceAction action services];
     spawned := spawned st;
     scheds := tl (scheds st) |}.
Proof. reflexivity. Qed.

Lemma RunServiceAction_length ctx services action st :
  length (fst (RunServiceAction ctx services action st)) = length services.
Proof.
  rewrite RunServiceAction_unfold. cbv zeta. simpl.
  rewrite Run_length. apply length_fmap.
Qed.

(** [ProtoService.Run]: the method the action names is called, or there
    is none and nothing happens. *)
Lemma ProtoService_Run_cases action (service : Service W) ctx st :
  let p := {| service := service; action := action |} in
  (exists m,
     dispatch action service = Some m /\
     ProtoService_Run p ctx st =
     (fst (m ctx (world st)), invoked action service m ctx st)) \/
  (dispatch action service = None /\
   ProtoService_Run p ctx st =
   (Returns (errors_New
      ("ProtoService Run called with invalid action (did you init?): "
         +:+ action)), st)).
Proof.
  unfold ProtoService_Run, dispatch, invoked, bind, emit, call. simpl.
  destruct (String.eqb action SERVICE_CHECK) eqn:E1.
  { apply String.eqb_eq in E1 as ->. left. eexists. split; [reflexivity|].
    by destruct (Check service ctx (world st)). }
  destruct (String.eqb action SERVICE_RECOVER) eqn:E2.
  { apply String.eqb_eq in E2 as ->. left. eexists. split; [reflexivity|].
    by destruct (Recover service ctx (world st)). }
  destruct (String.eqb action SERVICE_RUN) eqn:E3.
  { apply String.eqb_eq in E3 as ->. left. eexists. split; [reflexivity|].
    by destruct (Run service ctx (world st)). }
  destruct (String.eqb action SERVICE_ROLLBACK) eqn:E4.
  { apply String.eqb_eq in E4 as ->. left. eexists. split; [reflexivity|].
    by destruct (Rollback service ctx (world st)). }
  right. by split.
Qed.

(** The world after a batch, for a property the logger establishes and the
    methods of the batch keep. *)
Lemma RunServiceAction_world (Inv : W -> Prop) ctx services action st :
  Inv (ActionLogger ctx services action (world st)) ->
  (forall service m,
     service ∈ services -> dispatch action service = Some m -> keeps Inv m) ->
  Inv (world (snd (RunServiceAction ctx services action st))).
Proof.
  intros Hlog Hkeep. rewrite RunServiceAction_unfold. cbv zeta.
  set (r := task.Run _ _ _ _).
  assert (Hr : Inv (world (snd r))).
  { subst r. apply (Run_keeps (fun s => Inv (world s))); [|exact Hlog].
    intros t s Ht Hs. apply list_elem_of_fmap in Ht as (service & -> & Hin).
    destruct (ProtoService_Run_cases action service ctx s)
      as [(m & Hm & ->)|[_ ->]]; [|exact Hs].
    exact (Hkeep service m Hin Hm ctx (world s) Hs). }
  destruct (is_nil RollbackErrorReporter); [exact Hr|].
  destruct (String.eqb action SERVICE_ROLLBACK); exact Hr.
Qed.

Lemma dispatch_None action (service : Service W) :
  ~ valid_action action -> dispatch action service = None.
Proof.
  intros Hinvalid. unfold dispatch, valid_action in *.
  destruct (String.eqb action SERVICE_CHECK) eqn:E1;
    [apply String.eqb_eq in E1; tauto|].
  destruct (String.eqb action SERVICE_RECOVER) eqn:E2;
    [apply String.eqb_eq in E2; tauto|].
  destruct (String.eqb action SERVICE_RUN) eqn:E3;
    [apply String.eqb_eq in E3; tauto|].
  destruct (String.eqb action SERVICE_ROLLBACK) eqn:E4;
    [apply String.eqb_eq in E4; tauto|].
  reflexivity.
Qed.

(** X5. [RunServiceAction] with an action that is none of CHECK, RECOVER,
    RUN, ROLLBACK calls no method of any service: the batch is announced to
    the action logger and nothing else happens, no goroutine is started,
    and every slot holds the error of [ProtoService.Run] about the invalid
    action, or "timeout". *)
Theorem RunServiceAction_invalid_action ctx services action st :
  ~ valid_action action ->
  let r := RunServiceAction ctx services action st in
  snd r =
    {| world := ActionLogger ctx services action (world st);
       trace := trace st ++ [EvRunServiceAction action services];
       spawned := spawned st;
       scheds := tl (scheds st) |} /\
  length (fst r) = length services /\
  Forall (fun err =>
            err = errors_New
                    ("ProtoService Run called with invalid action (did you init?): "
                       +:+ action) \/
            err = errors_New "timeout") (fst r).
Proof.
  intros Hinvalid r. subst r.
  split; [|split; [apply RunServiceAction_length|]].
  - rewrite RunServiceAction_unfold. cbv zeta.
    assert (Hne : String.eqb action SERVICE_ROLLBACK = false).
    { apply String.eqb_neq. intros ->. apply Hinvalid. unfold valid_action. tauto. }
    rewrite Hne. rewrite <- entered_eq.
    assert (Hrun : snd (task.Run (proto_tasks action services) ctx
                          (hd fifo (scheds st)) (entered ctx services action st))
                   = entered ctx services action st).
    { apply (Run_keeps (fun s => s = entered ctx services action st));
        [|reflexivity].
      intros t s Ht ->. apply list_elem_of_fmap in Ht as (service & -> & Hin).
      destruct (ProtoService_Run_cases action service ctx
                  (entered ctx services action st))
        as [(m & Hm & _)|[_ ->]]; [|reflexivity].
      by rewrite dispatch_None in Hm. }
    by destruct (is_nil RollbackErrorReporter).
  - rewrite RunServiceAction_unfold. cbv zeta. simpl fst.
    apply Run_slots. intros i t st_i Ht _.
    apply list_lookup_fmap_Some in Ht as (service & -> & Hi).
    destruct (ProtoService_Run_cases action service ctx st_i)
      as [(m & Hm & _)|[_ ->]].
    { by rewrite dispatch_None in Hm. }
    unfold select. simpl. destruct (_ && _); [by right | by left].
Qed.

(** X6. After a ROLLBACK batch, when a [RollbackErrorReporter] is set,
    [RunServiceAction] starts exactly one goroutine: the reporter, with the
    services of the batch and the error list it returns, whether or not a
    rollback failed.  It starts no goroutine after any other batch, nor when
    no reporter is set.  The reporter goroutine calls the reporter, and
    nothing else. *)
Theorem RunServiceAction_reporter ctx services action st :
  let r := RunServiceAction ctx services action st in
  spawned (snd r) =
    spawned st ++
    match RollbackErrorReporter with
    | Some _ =>
        if bool_decide (action = SERVICE_ROLLBACK)
        then [GoRollbackErrorReporter ctx services (fst r)] else []
    | None => []
    end /\
  forall st0,
    let st' := snd (run_goroutine
                      (GoRollbackErrorReporter ctx services (fst r)) st0) in
    world st' =
      match RollbackErrorReporter with
      | Some reporter => reporter ctx services (fst r) (world st0)
      | None => world st0
      end /\
    trace st' = trace st0 /\ spawned st' = spawned st0.
Proof.
  intros r. split.
  - subst r. rewrite RunServiceAction_unfold. cbv zeta. simpl fst.
    set (run := task.Run _ _ _ _).
    assert (Hsp : spawned (snd run) = spawned st).
    { subst run.
      apply (Run_keeps (fun s => spawned s = spawned st)); [|reflexivity].
      intros t s Ht Hs. apply list_elem_of_fmap in Ht as (service & -> & Hin).
      by destruct (ProtoService_Run_cases action service ctx s)
        as [(m & Hm & ->)|[_ ->]]. }
    destruct RollbackErrorReporter as [reporter|]; simpl;
      [|by rewrite app_nil_r].
    destruct (String.eqb_spec action SERVICE_ROLLBACK) as [->|Hne].
    + rewrite bool_decide_true by reflexivity. simpl. by rewrite Hsp.
    + rewrite bool_decide_false by exact Hne. by rewrite app_nil_r.
  - intros st0 st'. subst st'. unfold orchestration.run_goroutine.
    by destruct RollbackErrorReporter.
Qed.

Lemma on_action_error_eq opts ctx action services errs st :
  snd (on_action_error opts ctx action services errs st) =
  match OnActionError opts with
  | Some hook =>
      {| world := hook ctx action services errs (world st);
         trace := trace st ++ [EvOnActionError action services errs];
         spawned := spawned st;
         scheds := scheds st |}
  | None => st
  end.
Proof. unfold on_action_error. by destruct (OnActionError opts). Qed.

Lemma elem_of_summaries (msg : string) :
  msg = "one or more pre-run checks failed" \/
  msg = "unable to recover from one or more failed pre-run checks" \/
  msg = "one or more runs failed" ->
  msg ∈ summaries.
Proof.
  unfold summaries. intros [-> | [-> | ->]].
  - apply list_elem_of_here.
  - apply list_elem_of_further, list_elem_of_here.
  - do 2 apply list_elem_of_further. apply list_elem_of_here.
Qed.

Lemma run_phase_result ctx services opts errs st :
  length errs = length services ->
  (is_nil (Value ctx "dryRun") = false -> AnyError errs = false) ->
  let r := fst (run_phase ctx services opts errs st) in
  length (fst r) = length services /\
  (snd r = None <-> AnyError (fst r) = false) /\
  (forall msg, snd r = Some msg -> msg ∈ summaries).
Proof.
  intros Hlen Hdry r. subst r.
  rewrite (run_phase_eq ActionLogger RollbackErrorReporter).
  destruct (is_nil (Value ctx "dryRun")).
  - cbv zeta.
    destruct (AnyError (fst (RunServiceAction ctx services SERVICE_RUN st)))
      eqn:Hrun; simpl.
    + split; [apply RunServiceAction_length|]. split.
      * rewrite Hrun. unfold errors_New. by split.
      * unfold errors_New. intros msg [= <-]. apply elem_of_summaries. tauto.
    + split; [apply RunServiceAction_length|]. split; [by split | discriminate].
  - simpl. split; [exact Hlen|]. split; [|discriminate].
    split; [intros _; by apply Hdry | reflexivity].
Qed.

Lemma CallServices_shape ctx services opts st :
  let r := fst (CallServices ctx services opts st) in
  length (fst r) = length services /\
  (snd r = None <-> AnyError (fst r) = false) /\
  (forall msg, snd r = Some msg -> msg ∈ summaries).
Proof.
  intros r. subst r.
  rewrite (CallServices_eq ActionLogger RollbackErrorReporter). cbv zeta.
  set (check := RunServiceAction ctx services SERVICE_CHECK st).
  assert (Hlen : length (fst check) = length services)
    by apply RunServiceAction_length.
  destruct (AnyError (fst check)) eqn:Hcheck.
  - destruct (is_nil (Value ctx "dryRun") && negb (is_nil (Value ctx "recover")))
      eqn:Hrecover.
    + apply andb_true_iff in Hrecover as [Hdry _].
      destruct (AnyError (fst (RunServiceAction ctx services SERVICE_RECOVER _))).
      * simpl. split; [exact Hlen|]. split.
        -- rewrite Hcheck. unfold errors_New. by split.
        -- unfold errors_New. intros msg [= <-]. apply elem_of_summaries. tauto.
      * apply run_phase_result; [exact Hlen|]. by rewrite Hdry.
    + simpl. split; [exact Hlen|]. split.
      * rewrite Hcheck. unfold errors_New. by split.
      * unfold errors_New. intros msg [= <-]. apply elem_of_summaries. tauto.
  - apply run_phase_result; [exact Hlen | by intros _].
Qed.

(** X7. [CallServices] returns one error slot per service, in every branch;
    its summary error is nil exactly when no slot holds an error, and is
    otherwise one of its three messages. *)
Theorem CallServices_result ctx services opts st :
  let r := fst (CallServices ctx services opts st) in
  length (fst r) = length services /\
  (snd r = None <-> AnyError (fst r) = false) /\
  (forall msg, snd r = Some msg -> msg ∈ summaries).
Proof. apply CallServices_shape. Qed.

Lemma on_stage_start_eq opts ctx services st :
  snd (on_stage_start opts ctx services st) =
  match OnStageStart opts with
  | Some hook =>
      {| world := hook ctx services (world st);
         trace := trace st ++ [EvOnStageStart services];
         spawned := spawned st;
         scheds := scheds st |}
  | None => st
  end.
Proof. unfold on_stage_start. by destruct (OnStageStart opts). Qed.

Lemma stage_result_eq ctx opts (stage : list (Service W)) st :
  stage_result ctx opts stage st =
  CallServices ctx stage opts (snd (on_stage_start opts ctx stage st)).
Proof.
  unfold orchestration.stage_result, bind.
  by destruct (on_stage_start opts ctx stage st).
Qed.

Lemma RunServiceAction_phase ctx services action st :
  valid_action action ->
  exists evs,
    phase action services evs /\
    trace (snd (RunServiceAction ctx services action st)) = trace st ++ evs.
Proof.
  intros Hvalid.
  destruct (RunServiceAction_spec ActionLogger RollbackErrorReporter
              ctx services action st Hvalid) as (_ & (invs & Hperm & Htrace) & _).
  exists (EvRunServiceAction action services :: invs).
  split; [by exists invs | exact Htrace].
Qed.

Lemma on_action_error_trace opts ctx action services errs st :
  trace (snd (on_action_error opts ctx action services errs st)) =
  trace st ++
  match OnActionError opts with
  | Some _ => [EvOnActionError action services errs]
  | None => []
  end.
Proof.
  rewrite on_action_error_eq.
  destruct (OnActionError opts); simpl; [reflexivity | by rewrite app_nil_r].
Qed.

Lemma run_phase_phases ctx services opts errs st :
  let r := run_phase ctx services opts errs st in
  exists run hook,
    trace (snd r) = trace st ++ run ++ hook /\
    (run = [] \/ phase SERVICE_RUN services run) /\
    (hook = [] \/ hook = [EvOnActionError SERVICE_RUN services (fst (fst r))]).
Proof.
  intros r. subst r.
  rewrite (run_phase_eq ActionLogger RollbackErrorReporter).
  destruct (is_nil (Value ctx "dryRun")).
  2: { exists [], []. simpl. rewrite app_nil_r. auto. }
  cbv zeta.
  destruct (RunServiceAction_phase ctx services SERVICE_RUN st
              (valid_RUN)) as (run & Hphase & Htrace).
  destruct (AnyError _).
  - simpl fst.
    set (reported := snd (on_action_error _ _ _ _ _ _)).
    assert (Hrep : trace (snd (fst (RunServiceAction ctx services SERVICE_RUN st),
                               errors_New "one or more runs failed",
                               if SkipRollback opts then reported
                               else snd (go (GoRunServiceAction ctx services
                                               SERVICE_ROLLBACK) reported)))
                   = trace reported)
      by (simpl; by destruct (SkipRollback opts)).
    rewrite Hrep. subst reported. rewrite on_action_error_trace, Htrace.
    exists run. eexists. split; [by rewrite <- app_assoc|].
    split; [by right|]. destruct (OnActionError opts); auto.
  - exists run, []. simpl. rewrite app_nil_r. auto.
Qed.

(** X10. Under a context that is never done ([task.Run] then waits for
    every task), what one [CallServices] itself does is, in this order:
    CHECK of the whole batch (announced, then every service checked once);
    then, each at most once, the [OnActionError] hook for CHECK, RECOVER of
    the whole batch, RUN of the whole batch, the [OnActionError] hook for
    RUN.  No service is checked, recovered or run twice, and the call
    itself rolls nothing back: a rollback is a goroutine of its own. *)
Theorem CallServices_phases ctx services opts st :
  cancellable ctx = false ->
  let check := RunServiceAction ctx services SERVICE_CHECK st in
  let r := CallServices ctx services opts st in
  exists chk hook1 rec run hook2,
    trace (snd r) = trace st ++ chk ++ hook1 ++ rec ++ run ++ hook2 /\
    phase SERVICE_CHECK services chk /\
    (hook1 = [] \/
     hook1 = [EvOnActionError SERVICE_CHECK services (fst check)]) /\
    (rec = [] \/ phase SERVICE_RECOVER services rec) /\
    (run = [] \/ phase SERVICE_RUN services run) /\
    (hook2 = [] \/
     hook2 = [EvOnActionError SERVICE_RUN services (fst (fst r))]).
Proof.
  intros _ check r. subst r.
  rewrite (CallServices_eq ActionLogger RollbackErrorReporter). cbv zeta.
  fold check.
  destruct (RunServiceAction_phase ctx services SERVICE_CHECK st
              (valid_CHECK)) as (chk & Hchk & Htrace).
  fold check in Htrace.
  set (hook1 := match OnActionError opts with
                | Some _ => [EvOnActionError SERVICE_CHECK services (fst check)]
                | None => []
                end).
  assert (Hhook1 :
            hook1 = [] \/
            hook1 = [EvOnActionError SERVICE_CHECK services (fst check)])
    by (subst hook1; destruct (OnActionError opts); auto).
  destruct (AnyError (fst check)).
  - set (reported := snd (on_action_error _ _ _ _ _ _)).
    assert (Hrep : trace reported = trace st ++ chk ++ hook1).
    { subst reported hook1. rewrite on_action_error_trace, Htrace.
      by rewrite <- app_assoc. }
    clearbody hook1.
    destruct (_ && _).
    + destruct (RunServiceAction_phase ctx services SERVICE_RECOVER reported
                  (valid_RECOVER)) as (rec & Hrec & Htrace').
      rewrite Hrep in Htrace'.
      destruct (AnyError _).
      * exists chk, hook1, rec, [], []. simpl snd.
        rewrite Htrace', !app_nil_r, <- !app_assoc.
        split; [reflexivity|]. repeat (split; [by auto|]). auto.
      * destruct (run_phase_phases ctx services opts (fst check)
                    (snd (RunServiceAction ctx services SERVICE_RECOVER reported)))
          as (run & hook2 & Htrace2 & Hrun & Hhook2).
        exists chk, hook1, rec, run, hook2.
        rewrite Htrace2, Htrace', <- !app_assoc.
        split; [reflexivity|]. repeat (split; [by auto|]). auto.
    + exists chk, hook1, [], [], []. simpl snd.
      rewrite Hrep, !app_nil_r.
      split; [reflexivity|]. repeat (split; [by auto|]). auto.
  - destruct (run_phase_phases ctx services opts (fst check) (snd check))
      as (run & hook2 & Htrace2 & Hrun & Hhook2).
    exists chk, [], [], run, hook2. rewrite Htrace2, Htrace. simpl.
    rewrite <- !app_assoc. split; [reflexivity|].
    repeat (split; [by auto|]). auto.
Qed.

Lemma staged_loop_spawned_skip ctx (stages rest : list (list (Service W)))
    opts (i : nat) st :
  SkipRollback opts = true ->
  spawned (snd (staged_loop ctx stages opts i rest st)) = spawned st.
Proof.
  intros Hskip. revert i st.
  induction rest as [|stage rest IH]; intros i st; [reflexivity|].
  rewrite (staged_loop_unfold ActionLogger RollbackErrorReporter). cbv zeta.
  pose proof (stage_result_spawned ActionLogger RollbackErrorReporter
                ctx opts stage st) as Hsp.
  cbv zeta in Hsp. rewrite Hskip, andb_false_r, app_nil_r in Hsp.
  destruct (snd (fst _)); [|by rewrite IH]. by rewrite Hskip.
Qed.

(** X11. With [SkipRollback] set neither [CallServices] nor
    [CallStagedServices] starts a goroutine: nothing is rolled back,
    whichever phase or stage fails. *)
Theorem SkipRollback_no_goroutine ctx services
    (stages : list (list (Service W))) opts st :
  SkipRollback opts = true ->
  spawned (snd (CallServices ctx services opts st)) = spawned st /\
  spawned (snd (CallStagedServices ctx stages opts st)) = spawned st.
Proof.
  intros Hskip. split.
  - pose proof (CallServices_spawned ActionLogger RollbackErrorReporter
                  ctx services opts st) as Hsp.
    cbv zeta in Hsp. by rewrite Hskip, andb_false_r, app_nil_r in Hsp.
  - by apply staged_loop_spawned_skip.
Qed.

Lemma staged_loop_shape ctx (stages pre rest : list (list (Service W)))
    opts st :
  stages = pre ++ rest ->
  let r := fst (staged_loop ctx stages opts (length pre) rest st) in
  match snd r with
  | None => fst (fst r) = length stages /\ snd (fst r) = []
  | Some msg =>
      msg ∈ summaries /\ AnyError (snd (fst r)) = true /\
      exists stage,
        stages !! fst (fst r) = Some stage /\
        length (snd (fst r)) = length stage
  end.
Proof.
  revert pre st. induction rest as [|stage rest IH]; intros pre st Hstages.
  { by simpl. }
  cbv zeta. rewrite (staged_loop_unfold ActionLogger RollbackErrorReporter).
  cbv zeta. rewrite stage_result_eq.
  set (st1 := snd (on_stage_start opts ctx stage st)).
  destruct (CallServices_shape ctx stage opts st1) as (Hlen & Hnil & Hmsg).
  destruct (snd (fst (CallServices ctx stage opts st1))) as [msg|] eqn:Hsum.
  - simpl. split; [by apply Hmsg|]. split.
    + destruct (AnyError _); [reflexivity|].
      discriminate (proj2 Hnil eq_refl).
    + exists stage. split; [|exact Hlen].
      rewrite Hstages. by apply list_lookup_middle.
  - specialize (IH (pre ++ [stage]) (snd (CallServices ctx stage opts st1))).
    rewrite length_app, Nat.add_1_r in IH. apply IH.
    by rewrite <- app_assoc.
Qed.

Lemma CallStagedServices_shape ctx (stages : list (list (Service W)))
    opts st :
  let r := fst (CallStagedServices ctx stages opts st) in
  match snd r with
  | None => fst (fst r) = length stages /\ snd (fst r) = []
  | Some msg =>
      msg ∈ summaries /\ AnyError (snd (fst r)) = true /\
      exists stage,
        stages !! fst (fst r) = Some stage /\
        length (snd (fst r)) = length stage
  end.
Proof. by apply (staged_loop_shape ctx stages [] stages). Qed.

(** X12. What [CallStagedServices] returns is well formed: with a nil
    summary the index is [len(stages)] and the error list is empty;
    otherwise the summary is one of the three messages of [CallServices],
    the index is that of an existing stage, and the error list has one slot
    per service of that stage, at least one of them holding an error. *)
Theorem CallStagedServices_result ctx (stages : list (list (Service W)))
    opts st :
  let r := fst (CallStagedServices ctx stages opts st) in
  match snd r with
  | None => fst (fst r) = length stages /\ snd (fst r) = []
  | Some msg =>
      msg ∈ summaries /\ AnyError (snd (fst r)) = true /\
      exists stage,
        stages !! fst (fst r) = Some stage /\
        length (snd (fst r)) = length stage
  end.
Proof. apply CallStagedServices_shape. Qed.

Lemma CallServices_dryRun_eq ctx services opts st :
  is_nil (Value ctx "dryRun") = false ->
  CallServices ctx services opts st =
  let check := RunServiceAction ctx services SERVICE_CHECK st in
  if AnyError (fst check) then
    ((fst check, errors_New "one or more pre-run checks failed"),
     snd (on_action_error opts ctx SERVICE_CHECK services
            (fst check) (snd check)))
  else ((fst check, None), snd check).
Proof.
  intros Hdry. rewrite (CallServices_eq ActionLogger RollbackErrorReporter).
  cbv zeta. rewrite !(run_phase_eq ActionLogger RollbackErrorReporter), Hdry.
  reflexivity.
Qed.

Lemma stage_result_dryRun ctx opts (stage : list (Service W)) st :
  is_nil (Value ctx "dryRun") = false ->
  let r := stage_result ctx opts stage st in
  extends (fun ev => forall action,
             event_action ev = Some action -> action = SERVICE_CHECK)
    st (snd r) /\
  spawned (snd r) = spawned st.
Proof.
  intros Hdry r. subst r. rewrite stage_result_eq.
  set (st1 := snd (on_stage_start opts ctx stage st)).
  assert (Hstart : extends (fun ev => forall action,
                              event_action ev = Some action ->
                              action = SERVICE_CHECK) st st1 /\
                   spawned st1 = spawned st).
  { subst st1. rewrite on_stage_start_eq.
    destruct (OnStageStart opts); [|split; [apply extends_refl | reflexivity]].
    split; [|reflexivity]. eexists. split; [reflexivity|].
    repeat constructor. discriminate. }
  destruct Hstart as [Hext1 Hsp1].
  pose proof (RunServiceAction_extends ActionLogger RollbackErrorReporter
                ctx stage SERVICE_CHECK st1 (valid_CHECK)) as Hext2.
  pose proof (RunServiceAction_spawned ActionLogger RollbackErrorReporter
                ctx stage SERVICE_CHECK st1 (valid_CHECK)) as Hsp2.
  rewrite CallServices_dryRun_eq by exact Hdry. cbv zeta.
  assert (Hcheck : extends (fun ev => forall action,
                              event_action ev = Some action ->
                              action = SERVICE_CHECK) st
                     (snd (RunServiceAction ctx stage SERVICE_CHECK st1))).
  { eapply extends_trans; [exact Hext1|].
    eapply extends_weaken; [|exact Hext2]. simpl. intros ev -> action.
    congruence. }
  destruct (AnyError _); simpl.
  - destruct (on_action_error_extends opts ctx SERVICE_CHECK stage
                (fst (RunServiceAction ctx stage SERVICE_CHECK st1))
                (snd (RunServiceAction ctx stage SERVICE_CHECK st1)))
      as (Hext3 & Hsp3 & _).
    split.
    + eapply extends_trans; [exact Hcheck|].
      eapply extends_weaken; [|exact Hext3]. simpl. intros ev -> action.
      discriminate.
    + rewrite Hsp3, Hsp2; [exact Hsp1 | discriminate].
  - split; [exact Hcheck|]. rewrite Hsp2; [exact Hsp1 | discriminate].
Qed.

Lemma staged_loop_dryRun ctx (stages rest : list (list (Service W))) opts
    (i : nat) st :
  is_nil (Value ctx "dryRun") = false ->
  let r := staged_loop ctx stages opts i rest st in
  extends (fun ev => forall action,
             event_action ev = Some action -> action = SERVICE_CHECK)
    st (snd r) /\
  spawned (snd r) =
    spawned st ++
    if is_nil (snd (fst r)) || SkipRollback opts then []
    else [GoRollbackStages ctx stages (fst (fst (fst r)))].
Proof.
  intros Hdry. revert i st.
  induction rest as [|stage rest IH]; intros i st r; subst r.
  { simpl. split; [apply extends_refl | by rewrite app_nil_r]. }
  rewrite (staged_loop_unfold ActionLogger RollbackErrorReporter). cbv zeta.
  destruct (stage_result_dryRun ctx opts stage st Hdry) as [Hext Hsp].
  destruct (snd (fst (stage_result ctx opts stage st))) as [msg|].
  - simpl. destruct (SkipRollback opts); simpl.
    + split; [exact Hext | by rewrite app_nil_r].
    + split; [|by rewrite Hsp].
      destruct Hext as (evs & Htrace & Hall). by exists evs.
  - destruct (IH (S i) (snd (stage_result ctx opts stage st))) as [Hext' Hsp'].
    split; [by eapply extends_trans|]. by rewrite Hsp', Hsp.
Qed.


Lemma append_details_enough (w : W) errs services (i : nat) details :
  i + length services <= length errs ->
  append_details w errs i services details =
  Returns (details ++ answers w services (drop i errs)).
Proof.
  revert i details.
  induction services as [|service services IH]; intros i details Hlen.
  { simpl. unfold answers. simpl. by rewrite app_nil_r. }
  simpl in Hlen. simpl.
  destruct (lookup_lt_is_Some_2 errs i) as [err Herr]; [lia|].
  rewrite Herr, (drop_S _ _ _ Herr), IH by lia.
  unfold answers. simpl.
  destruct (is_nil (GetResponse service err w)); [reflexivity|].
  by rewrite <- app_assoc.
Qed.

Lemma append_details_short (w : W) errs services (i : nat) details :
  i <= length errs -> length errs < i + length services ->
  append_details w errs i services details = Panics.
Proof.
  revert i details.
  induction services as [|service services IH]; intros i details Hi Hlen.
  { simpl in Hlen. lia. }
  simpl in Hlen. simpl.
  destruct (errs !! i) as [err|] eqn:Herr; [|reflexivity].
  apply lookup_lt_Some in Herr. apply IH; lia.
Qed.

Lemma GenerateResponse_eq services errs (err : error) (w : W) :
  GenerateResponse services errs err w =
  if decide (length services <= length errs) then
    Returns (if is_nil err then StatusOK else StatusInternalServerError,
             {| Status := default "ok" err;
                Details := answers w services errs |})
  else Panics.
Proof.
  unfold GenerateResponse.
  destruct (decide (length services <= length errs)) as [Hlen|Hlen].
  - destruct err as [msg|]; simpl;
      by rewrite append_details_enough by (simpl; lia).
  - destruct err as [msg|]; simpl;
      by rewrite append_details_short by (simpl; lia).
Qed.



Lemma append_stages_eq (w : W) (stages : list (list (Service W))) details :
  append_stages w stages details =
  Returns (details ++
           concat ((fun stage =>
                      answers w stage (replicate (length stage) None))
                   <$> stages)).
Proof.
  revert details.
  induction stages as [|stage stages IH]; intros details.
  { simpl. by rewrite app_nil_r. }
  simpl. rewrite GenerateResponse_eq, decide_True
    by (by rewrite length_replicate).
  simpl. by rewrite IH, <- app_assoc.
Qed.


Lemma Forall_eq_replicate {A : Type} (x : A) (l : list A) :
  Forall (fun y => y = x) l -> l = replicate (length l) x.
Proof.
  intros Hall. induction Hall as [|y l -> _ IH]; simpl; [reflexivity|].
  by rewrite <- IH.
Qed.

Lemma AnyError_replicate_Some (n : nat) (msg : string) :
  n ≠ 0 -> AnyError (replicate n (Some msg)) = true.
Proof. destruct n; [done | reflexivity]. Qed.

(** A batch whose methods for [action] all answer [e] and leave the world
    alone. *)
Lemma RunServiceAction_answers_with ctx services action st (e : error) :
  (forall service,
     service ∈ services ->
     exists m, dispatch action service = Some m /\ answers_with e m) ->
  let r := RunServiceAction ctx services action st in
  world (snd r) = ActionLogger ctx services action (world st) /\
  Forall (fun err => err = e \/ err = errors_New "timeout") (fst r) /\
  (cancellable ctx = false -> fst r = replicate (length services) e).
Proof.
  intros Hall r. subst r.
  assert (Hslot : forall i (t : @Runnable (State W)) st_i,
             proto_tasks action services !! i = Some t ->
             recovered (fst (t ctx st_i)) = e).
  { intros i t st_i Ht.
    apply list_lookup_fmap_Some in Ht as (service & -> & Hi).
    destruct (Hall service (list_elem_of_lookup_2 _ _ _ Hi)) as (m & Hm & Hans).
    destruct (ProtoService_Run_cases action service ctx st_i)
      as [(m' & Hm' & ->)|[Hnone _]]; [|congruence].
    assert (m' = m) as -> by congruence.
    simpl. by rewrite Hans. }
  split; [|split].
  - apply (RunServiceAction_world
             (fun w => w = ActionLogger ctx services action (world st)));
      [reflexivity|].
    intros service m Hin Hm ctx' w ->.
    destruct (Hall service Hin) as (m' & Hm' & Hans).
    assert (m' = m) as -> by congruence. by rewrite Hans.
  - rewrite RunServiceAction_unfold. cbv zeta. simpl fst.
    apply Run_slots. intros i t st_i Ht _. rewrite (Hslot i t st_i Ht).
    unfold select. destruct (_ && _); auto.
  - intros Hctx. rewrite <- (RunServiceAction_length ctx services action st).
    apply Forall_eq_replicate.
    rewrite RunServiceAction_unfold. cbv zeta. simpl fst.
    apply Run_slots. intros i t st_i Ht _. rewrite (Hslot i t st_i Ht).
    unfold select. by rewrite Hctx.
Qed.

Lemma MakeDryRun_dispatch action (service : Service W) :
  action = SERVICE_RUN \/ action = SERVICE_ROLLBACK ->
  exists m, dispatch action (MakeDryRun service) = Some m /\ answers_with None m.
Proof. intros [->| ->]; eexists; (split; [reflexivity | by intros ctx w]). Qed.

Lemma MakeDryRun_answers ctx services action st :
  action = SERVICE_RUN \/ action = SERVICE_ROLLBACK ->
  let wrapped := MakeDryRun <$> services in
  let r := RunServiceAction ctx wrapped action st in
  world (snd r) = ActionLogger ctx wrapped action (world st) /\
  Forall (fun err => err = None \/ err = errors_New "timeout") (fst r) /\
  (cancellable ctx = false -> fst r = replicate (length services) None).
Proof.
  intros Haction wrapped r. subst r.
  rewrite <- (length_fmap MakeDryRun services).
  apply RunServiceAction_answers_with.
  intros wrapper Hin. apply list_elem_of_fmap in Hin as (service & -> & _).
  by apply MakeDryRun_dispatch.
Qed.

(** X17. Running or rolling back a batch of dry-run wrappers
    ([MakeDryRun]) touches no service: the world changes by the action
    logger alone, and every slot is nil or "timeout" (all nil under a
    context that is never done). *)
Theorem MakeDryRun_batch ctx services action st :
  action = SERVICE_RUN \/ action = SERVICE_ROLLBACK ->
  let wrapped := MakeDryRun <$> services in
  let r := RunServiceAction ctx wrapped action st in
  world (snd r) = ActionLogger ctx wrapped action (world st) /\
  Forall (fun err => err = None \/ err = errors_New "timeout") (fst r) /\
  (cancellable ctx = false -> fst r = replicate (length services) None).
Proof. apply MakeDryRun_answers. Qed.

(** X18. [CallServices] over dry-run wrappers, under a context that is
    never done: when the checks of the wrapped services pass, the call
    succeeds with nil in every slot and starts no goroutine; after CHECK
    the world changes by the action logger alone. *)
Theorem MakeDryRun_CallServices ctx services opts st :
  let wrapped := MakeDryRun <$> services in
  let check := RunServiceAction ctx wrapped SERVICE_CHECK st in
  let r := CallServices ctx wrapped opts st in
  cancellable ctx = false ->
  AnyError (fst check) = false ->
  fst r = (replicate (length services) None, None) /\
  spawned (snd r) = spawned st /\
  world (snd r) =
    if is_nil (Value ctx "dryRun")
    then ActionLogger ctx wrapped SERVICE_RUN (world (snd check))
    else world (snd check).
Proof.
  intros wrapped check r Hctx Hcheck. subst r.
  rewrite (CallServices_eq ActionLogger RollbackErrorReporter). cbv zeta.
  fold check. rewrite Hcheck.
  rewrite (run_phase_eq ActionLogger RollbackErrorReporter).
  assert (Hsp : spawned (snd check) = spawned st).
  { apply (RunServiceAction_spawned ActionLogger RollbackErrorReporter);
      [apply valid_CHECK | discriminate]. }
  destruct (is_nil (Value ctx "dryRun")).
  - cbv zeta.
    destruct (MakeDryRun_answers ctx services SERVICE_RUN (snd check))
      as (Hworld & _ & Hnil); [by left|].
    specialize (Hnil Hctx). fold wrapped in Hnil, Hworld.
    rewrite Hnil, AnyError_replicate. simpl.
    split; [reflexivity|]. split; [|exact Hworld].
    rewrite (RunServiceAction_spawned ActionLogger RollbackErrorReporter);
      [exact Hsp | apply valid_RUN | discriminate].
  - simpl. split; [|by split].
    f_equal. apply AnyError_false, Forall_eq_replicate in Hcheck.
    rewrite Hcheck. subst check. rewrite RunServiceAction_length.
    subst wrapped. by rewrite length_fmap.
Qed.

Lemma AnyError_failures (errs : list error) :
  errs ≠ [] -> Forall (fun err => err ≠ None) errs -> AnyError errs = true.
Proof.
  intros Hne Hall. destruct Hall as [|[msg|] errs Herr _]; done.
Qed.


(** X20. A batch of services built on [SimpleService] (its [Check] and
    its [Rollback]), under a context that is never done: the pre-run checks
    never fail, so the call either succeeds or ends with "one or more runs
    failed"; and the rollback of the batch touches nothing and fails on
    every service with "rollback not implemented". *)
Theorem SimpleService_CallServices ctx services opts st :
  (forall service,
     service ∈ services ->
     Check service = SimpleService_Check /\
     Rollback service = SimpleService_Rollback) ->
  cancellable ctx = false ->
  let r := CallServices ctx services opts st in
  (snd (fst r) = None \/ snd (fst r) = errors_New "one or more runs failed") /\
  forall st0,
    let rollback := RunServiceAction ctx services SERVICE_ROLLBACK st0 in
    fst rollback =
      replicate (length services) (errors_New "rollback not implemented") /\
    world (snd rollback) =
      ActionLogger ctx services SERVICE_ROLLBACK (world st0).
Proof.
  intros Hsimple Hctx r. subst r. split.
  - rewrite (CallServices_eq ActionLogger RollbackErrorReporter). cbv zeta.
    destruct (RunServiceAction_answers_with ctx services SERVICE_CHECK st None)
      as (_ & _ & Hnil).
    { intros service Hin. eexists. split; [reflexivity|].
      destruct (Hsimple service Hin) as [-> _]. by intros ctx' w. }
    rewrite (Hnil Hctx), AnyError_replicate.
    rewrite (run_phase_eq ActionLogger RollbackErrorReporter).
    destruct (is_nil (Value ctx "dryRun")); [|by left]. cbv zeta.
    destruct (AnyError _); [by right | by left].
  - intros st0 rollback. subst rollback.
    destruct (RunServiceAction_answers_with ctx services SERVICE_ROLLBACK st0
                (errors_New "rollback not implemented"))
      as (Hworld & _ & Hfail).
    { intros service Hin. eexists. split; [reflexivity|].
      destruct (Hsimple service Hin) as [_ ->]. by intros ctx' w. }
    split; [by apply Hfail | exact Hworld].
Qed.

End Facts.
End service_facts.

(* ===================================================================== *)
(** * More on the REST adapter                                            *)
(* ===================================================================== *)

Module adapter_facts.
Import orchestration rest_facts.

Section Adapter.
Context {A : Type}.
Implicit Types (proto : RestApiService A) (ctx : Context) (a : A).

Lemma SimpleRestApiService_Run_eq (simple : SimpleRestApiService A) ctx a :
  let api := Api simple in
  (Action simple = REST_API_GET ->
   let call := Get api ctx (RequestName simple) a in
   SimpleRestApiService_Run simple ctx a =
   (Returns (snd (fst call)),
    store_response simple (any_of_Nameable (fst (fst call))), snd call)) /\
  (Action simple = REST_API_POST ->
   let call := Post api ctx (RequestPayload simple) a in
   SimpleRestApiService_Run simple ctx a =
   (Returns (snd (fst call)), store_response simple (fst (fst call)), snd call)) /\
  (Action simple = REST_API_PUT ->
   let call := Put api ctx (RequestPayload simple) a in
   SimpleRestApiService_Run simple ctx a =
   (Returns (snd (fst call)), store_response simple (fst (fst call)), snd call)) /\
  (Action simple = REST_API_DELETE ->
   let call := Delete api ctx (RequestName simple) a in
   SimpleRestApiService_Run simple ctx a =
   (Returns (snd (fst call)), store_response simple (fst (fst call)), snd call)) /\
  (Action simple = REST_API_LIST ->
   let call := List api ctx a in
   SimpleRestApiService_Run simple ctx a =
   (Returns (snd (fst call)), store_response simple (fst (fst call)), snd call)) /\
  (Action simple ∉
     [REST_API_GET; REST_API_POST; REST_API_PUT; REST_API_DELETE;
      REST_API_LIST] ->
   SimpleRestApiService_Run simple ctx a =
   (Returns (errors_New
      ("unrecognized RestApiService Action (did you init?): "
         +:+ Action simple)),
    simple, a)).
Proof.
  intros api. subst api. unfold SimpleRestApiService_Run.
  repeat split.
  - intros ->. simpl. by destruct (Get _ _ _ _) as [[? ?] ?].
  - intros ->. simpl. by destruct (Post _ _ _ _) as [[? ?] ?].
  - intros ->. simpl. by destruct (Put _ _ _ _) as [[? ?] ?].
  - intros ->. simpl. by destruct (Delete _ _ _ _) as [[? ?] ?].
  - intros ->. simpl. by destruct (List _ _ _) as [[? ?] ?].
  - intros Hnot.
    destruct (String.eqb_spec (Action simple) REST_API_GET) as [Heq|_];
      [exfalso; apply Hnot; rewrite Heq; set_solver|].
    destruct (String.eqb_spec (Action simple) REST_API_POST) as [Heq|_];
      [exfalso; apply Hnot; rewrite Heq; set_solver|].
    destruct (String.eqb_spec (Action simple) REST_API_PUT) as [Heq|_];
      [exfalso; apply Hnot; rewrite Heq; set_solver|].
    destruct (String.eqb_spec (Action simple) REST_API_DELETE) as [Heq|_];
      [exfalso; apply Hnot; rewrite Heq; set_solver|].
    destruct (String.eqb_spec (Action simple) REST_API_LIST) as [Heq|_];
      [exfalso; apply Hnot; rewrite Heq; set_solver|].
    reflexivity.
Qed.

End Adapter.

(** X21. [Run] of a REST adapter calls its API once: the call its action
    names, with the request name (GET, DELETE) or the payload (POST, PUT);
    it returns the error of that call and keeps the response, also when the
    call failed.  With an action that is none of the five it calls nothing,
    changes nothing and returns the error about the unrecognized action.
    In no case does it touch the backup, the action, the request or the
    API of the adapter. *)
Theorem RestApiService_Run_calls {A : Type} (api0 : RestApi A)
    (proto : RestApiService (A * list ApiCall)) ctx (a : A)
    (log : list ApiCall) :
  let simple := RestApiService_SimpleRestApiService proto in
  let r := RestApiService_Run proto ctx (a, log) in
  let ran := RestApiService_SimpleRestApiService (snd (fst r)) in
  Api simple = logged api0 ->
  snd (snd r) =
    log ++
    (if String.eqb (Action simple) REST_API_GET
     then [CallGet (RequestName simple)]
     else if String.eqb (Action simple) REST_API_POST
     then [CallPost (RequestPayload simple)]
     else if String.eqb (Action simple) REST_API_PUT
     then [CallPut (RequestPayload simple)]
     else if String.eqb (Action simple) REST_API_DELETE
     then [CallDelete (RequestName simple)]
     else if String.eqb (Action simple) REST_API_LIST then [CallList]
     else []) /\
  (backup (snd (fst r)) = backup proto /\ Api ran = Api simple /\
   Action ran = Action simple /\ RequestName ran = RequestName simple /\
   RequestPayload ran = RequestPayload simple) /\
  (Action simple ∉
     [REST_API_GET; REST_API_POST; REST_API_PUT; REST_API_DELETE;
      REST_API_LIST] ->
   r = (Returns (errors_New
          ("unrecognized RestApiService Action (did you init?): "
             +:+ Action simple)),
        proto, (a, log))).
Proof.
  intros simple r ran Hapi. subst ran r. split; [|split].
  - unfold RestApiService_Run, SimpleRestApiService_Run. fold simple.
    rewrite Hapi. unfold logged. cbn [Get Post Put Delete List fst snd].
    destruct (String.eqb (Action simple) REST_API_GET).
    { by destruct (Get api0 ctx (RequestName simple) a) as [[? ?] ?]. }
    destruct (String.eqb (Action simple) REST_API_POST).
    { by destruct (Post api0 ctx (RequestPayload simple) a) as [[? ?] ?]. }
    destruct (String.eqb (Action simple) REST_API_PUT).
    { by destruct (Put api0 ctx (RequestPayload simple) a) as [[? ?] ?]. }
    destruct (String.eqb (Action simple) REST_API_DELETE).
    { by destruct (Delete api0 ctx (RequestName simple) a) as [[? ?] ?]. }
    destruct (String.eqb (Action simple) REST_API_LIST).
    { by destruct (List api0 ctx a) as [[? ?] ?]. }
    simpl. by rewrite app_nil_r.
  - apply RestApiService_Run_keeps.
  - intros Hnot. unfold RestApiService_Run.
    destruct (SimpleRestApiService_Run_eq simple ctx (a, log))
      as (_ & _ & _ & _ & _ & Hnone).
    fold simple. rewrite (Hnone Hnot). by destruct proto.
Qed.

End adapter_facts.

(* ===================================================================== *)
(** * The store of the example                                            *)
(* ===================================================================== *)

Module store_facts.
Import orchestration staged example example_service.

Lemma int_add_l (a b : Z) : int (int a + b) = int (a + b).
Proof.
  unfold int. set (M := (2 ^ 64)%Z). set (H := (2 ^ 63)%Z). f_equal.
  replace ((a + H) `mod` M - H + b + H)%Z with ((a + H) `mod` M + b)%Z by lia.
  rewrite Zplus_mod_idemp_l. f_equal. lia.
Qed.

Lemma int_add_r (a b : Z) : int (a + int b) = int (a + b).
Proof. by rewrite Z.add_comm, int_add_l, Z.add_comm. Qed.

Lemma int_int (a : Z) : int (int a) = int a.
Proof.
  replace (int a) with (int a + 0)%Z at 1 by lia.
  rewrite int_add_l. f_equal. lia.
Qed.

Lemma int_in_range (a : Z) : (- 2 ^ 63 <= a < 2 ^ 63)%Z -> int a = a.
Proof. intros Ha. unfold int. rewrite Z.mod_small; lia. Qed.

Lemma int_range (a : Z) : (- 2 ^ 63 <= int a < 2 ^ 63)%Z.
Proof.
  unfold int.
  pose proof (Z.mod_pos_bound (a + 2 ^ 63) (2 ^ 64)) as Hb. lia.
Qed.

Lemma claimed_memory_insert (m : gmap string object) (k : string) (c : object) :
  m !! k = None ->
  claimed_memory (<[k := c]> m) = (MemoryInMb c + claimed_memory m)%Z.
Proof.
  intros Hk. unfold claimed_memory.
  rewrite map_fold_insert_L; [reflexivity | intros; lia | exact Hk].
Qed.

Lemma claimed_memory_delete (m : gmap string object) (k : string) (c : object) :
  m !! k = Some c ->
  claimed_memory m = (MemoryInMb c + claimed_memory (delete k m))%Z.
Proof.
  intros Hk. unfold claimed_memory.
  rewrite (map_fold_delete_L _ _ k c m); [reflexivity | intros; lia | exact Hk].
Qed.

Lemma total_eq (db db' : FakeDb) :
  int (AvailableMemoryMb db' + claimed_memory (fakeDb db')) =
  int (AvailableMemoryMb db + claimed_memory (fakeDb db)) ->
  total db' = total db.
Proof. done. Qed.

Lemma Post_total dc ctx obj db :
  total (snd (MyServiceApi_Post dc ctx obj db)) = total db.
Proof.
  unfold MyServiceApi_Post. destruct obj as [rawClaim|]; [|reflexivity].
  cbv zeta. unfold FakeDbRead, ClaimName, MemoryClaim. simpl object_name.
  destruct (fakeDb db !! (dc +:+ object_name rawClaim)) as [old|] eqn:Hold;
    [reflexivity|]. simpl negb. cbv iota.
  destruct (int _ <? 0)%Z; [reflexivity|].
  assert (Htotal :
    total (FakeDbUpdateAvailableMemory
             (int (- MemoryInMb {| object_name := dc +:+ object_name rawClaim;
                                   object_data := MemoryInMb rawClaim |}))
             (FakeDbWrite {| object_name := dc +:+ object_name rawClaim;
                             object_data := MemoryInMb rawClaim |} db))
    = total db).
  { unfold total, FakeDbUpdateAvailableMemory, FakeDbWrite, MemoryInMb,
      ClaimName. simpl.
    rewrite claimed_memory_insert by exact Hold. unfold MemoryInMb. simpl.
    rewrite int_add_l.
    match goal with
    | |- int (?a + int ?b + ?c) = _ =>
        replace (a + int b + c)%Z with (a + c + int b)%Z by lia
    end.
    rewrite int_add_r. f_equal. lia. }
  by destruct (_ <? 0)%Z.
Qed.

Lemma Put_total dc ctx obj db :
  total (snd (MyServiceApi_Put dc ctx obj db)) = total db.
Proof.
  unfold MyServiceApi_Put. destruct obj as [rawClaim|]; [|reflexivity].
  cbv zeta. unfold FakeDbRead, ClaimName, MemoryClaim. simpl object_name.
  destruct (fakeDb db !! (dc +:+ object_name rawClaim)) as [old|] eqn:Hold;
    [|reflexivity].
  destruct (int _ <? 0)%Z; [reflexivity|].
  unfold total, FakeDbUpdateAvailableMemory, FakeDbWrite, MemoryInMb,
    ClaimName. simpl.
  rewrite <- insert_delete_eq, claimed_memory_insert
    by apply lookup_delete_eq.
  rewrite (claimed_memory_delete _ _ _ Hold). unfold MemoryInMb. simpl.
  rewrite int_add_l.
  match goal with
  | |- int (?a + int ?b + ?c) = _ =>
      replace (a + int b + c)%Z with (a + c + int b)%Z by lia
  end.
  rewrite int_add_r. f_equal. lia.
Qed.

Lemma Delete_total dc ctx name db :
  total (snd (MyServiceApi_Delete dc ctx name db)) = total db.
Proof.
  unfold MyServiceApi_Delete. cbv zeta. unfold FakeDbRead.
  destruct (fakeDb db !! (dc +:+ name)) as [old|] eqn:Hold; [|reflexivity].
  unfold total, FakeDbUpdateAvailableMemory, FakeDbDelete. simpl.
  rewrite (claimed_memory_delete _ _ _ Hold), int_add_l. f_equal. lia.
Qed.

Lemma MyServiceApi_keeps_total (T : Z) (dc : string) :
  api_keeps (fun db => total db = T) (MyServiceApi dc).
Proof.
  unfold api_keeps. simpl. repeat split.
  - intros ctx name db <-. unfold MyServiceApi_Get. by destruct (FakeDbRead _ _).
  - intros ctx obj db <-. apply Post_total.
  - intros ctx obj db <-. apply Put_total.
  - intros ctx name db <-. apply Delete_total.
  - by intros ctx db <-.
Qed.

(** X22. Every call of [MyServiceApi] (Get, Post, Put, Delete, List),
    whether it succeeds or fails, leaves the sum of the memory available
    and the memory of all claims of the store as it was (as an [int]):
    what a claim takes is taken from the counter, what a deletion frees
    goes back to it. *)
Theorem MyServiceApi_conserves (dc : string) ctx (db : FakeDb) :
  (forall name, total (snd (Get (MyServiceApi dc) ctx name db)) = total db) /\
  (forall obj, total (snd (Post (MyServiceApi dc) ctx obj db)) = total db) /\
  (forall obj, total (snd (Put (MyServiceApi dc) ctx obj db)) = total db) /\
  (forall name, total (snd (Delete (MyServiceApi dc) ctx name db)) = total db) /\
  total (snd (List (MyServiceApi dc) ctx db)) = total db.
Proof.
  destruct (MyServiceApi_keeps_total (total db) dc)
    as (Hget & Hpost & Hput & Hdelete & Hlist).
  repeat split; intros; auto.
Qed.

Section Keeps.
Context {A : Type} (Inv : A -> Prop).
Implicit Types (proto : RestApiService A) (ctx : Context) (a : A).

Local Abbreviation simple := RestApiService_SimpleRestApiService.

Lemma adapter_keeps proto ctx a :
  api_keeps Inv (Api (simple proto)) ->
  recovery_keeps Inv proto ->
  Inv a ->
  Inv (snd (RestApiService_Check proto ctx a)) /\
  Inv (snd (RestApiService_Recover proto ctx a)) /\
  Inv (snd (RestApiService_Run proto ctx a)) /\
  Inv (snd (RestApiService_Rollback proto ctx a)).
Proof.
  intros (Hget & Hpost & Hput & Hdelete & Hlist) Hrecovery Ha.
  split; [|split; [|split]].
  - unfold RestApiService_Check. cbv zeta.
    destruct (_ || _); [done|].
    specialize (Hget ctx (RequestName (simple proto)) a Ha).
    destruct (Get _ _ _ _) as [[got err] a'].
    destruct (String.eqb _ REST_API_POST); [by destruct (is_nil err)|done].
  - unfold RestApiService_Recover, Recoverable_Recover.
    destruct (Recovery _) as [recovery|] eqn:Hrec; [|done].
    specialize (Hrecovery recovery ctx a Hrec Ha).
    by destruct (recovery ctx a).
  - unfold RestApiService_Run, SimpleRestApiService_Run.
    destruct (String.eqb _ REST_API_GET).
    { specialize (Hget ctx (RequestName (simple proto)) a Ha).
      by destruct (Get _ _ _ _) as [[? ?] ?]. }
    destruct (String.eqb _ REST_API_POST).
    { specialize (Hpost ctx (RequestPayload (simple proto)) a Ha).
      by destruct (Post _ _ _ _) as [[? ?] ?]. }
    destruct (String.eqb _ REST_API_PUT).
    { specialize (Hput ctx (RequestPayload (simple proto)) a Ha).
      by destruct (Put _ _ _ _) as [[? ?] ?]. }
    destruct (String.eqb _ REST_API_DELETE).
    { specialize (Hdelete ctx (RequestName (simple proto)) a Ha).
      by destruct (Delete _ _ _ _) as [[? ?] ?]. }
    destruct (String.eqb _ REST_API_LIST).
    { specialize (Hlist ctx a Ha). by destruct (List _ _ _) as [[? ?] ?]. }
    done.
  - unfold RestApiService_Rollback. cbv zeta.
    destruct (String.eqb _ REST_API_PUT).
    { specialize (Hput ctx (backup proto) a Ha).
      by destruct (Put _ _ _ _) as [[? ?] ?]. }
    destruct (String.eqb _ REST_API_POST).
    { destruct (RequestPayload _) as [payload|]; [|done].
      specialize (Hdelete ctx (object_name payload) a Ha).
      by destruct (Delete _ _ _ _) as [[? ?] ?]. }
    destruct (String.eqb _ REST_API_DELETE).
    { specialize (Hpost ctx (backup proto) a Ha).
      by destruct (Post _ _ _ _) as [[? ?] ?]. }
    done.
Qed.

(** X23. A REST adapter acts on what stands behind its API through the
    five calls of the API alone (and through its own [Recovery], when it
    has one): every invariant that these keep is kept by [Check],
    [Recover], [Run] and [Rollback] of the adapter. *)
Theorem RestApiService_keeps proto ctx a :
  api_keeps Inv (Api (simple proto)) ->
  recovery_keeps Inv proto ->
  Inv a ->
  Inv (snd (RestApiService_Check proto ctx a)) /\
  Inv (snd (RestApiService_Recover proto ctx a)) /\
  Inv (snd (RestApiService_Run proto ctx a)) /\
  Inv (snd (RestApiService_Rollback proto ctx a)).
Proof. apply adapter_keeps. Qed.

End Keeps.

Lemma Post_exists (dc : string) ctx (claim old : object) (db : FakeDb) :
  fakeDb db !! (dc +:+ ClaimName claim) = Some old ->
  MyServiceApi_Post dc ctx (Some claim) db =
  ((None, errors_New "already exists"), db).
Proof.
  intros Hold. unfold MyServiceApi_Post. cbv zeta. unfold FakeDbRead.
  change (ClaimName (MemoryClaim (dc +:+ ClaimName claim) (MemoryInMb claim)))
    with (dc +:+ ClaimName claim).
  by rewrite Hold.
Qed.

Lemma Delete_exists (dc : string) ctx (name : string) (old : object)
    (db : FakeDb) :
  fakeDb db !! (dc +:+ name) = Some old ->
  MyServiceApi_Delete dc ctx name db =
  ((Some (VString "ok"), None),
   FakeDbUpdateAvailableMemory (MemoryInMb old) (FakeDbDelete (dc +:+ name) db)).
Proof.
  intros Hold. unfold MyServiceApi_Delete. cbv zeta. unfold FakeDbRead.
  by rewrite Hold.
Qed.

(** X26. An adapter that creates (POST) over [MyServiceApi], when the
    claim exists already: [Run] fails with "already exists" and leaves the
    store alone; [Rollback] then deletes the claim that was there before
    the call and adds its memory to the counter, for the adapter does not
    record whether its [Run] created anything. *)
Theorem POST_rollback_deletes (dc apiName name : string) (claim old : object)
    ctx (db : FakeDb) :
  let proto :=
    RestApiAsService (MyServiceApi dc) REST_API_POST apiName name (Some claim) in
  let key := dc +:+ ClaimName claim in
  let ran := RestApiService_Run proto ctx db in
  let rolled := RestApiService_Rollback (snd (fst ran)) ctx (snd ran) in
  fakeDb db !! key = Some old ->
  (fst (fst ran) = Returns (errors_New "already exists") /\ snd ran = db) /\
  fst (fst rolled) = Returns None /\
  fakeDb (snd rolled) = delete key (fakeDb db) /\
  AvailableMemoryMb (snd rolled) = int (AvailableMemoryMb db + MemoryInMb old).
Proof.
  intros proto key ran rolled Hold. subst rolled ran key.
  assert (Hran : RestApiService_Run proto ctx db =
                 (Returns (errors_New "already exists"), proto, db)).
  { unfold RestApiService_Run.
    destruct (adapter_facts.SimpleRestApiService_Run_eq
                (RestApiService_SimpleRestApiService proto) ctx db)
      as (_ & HPOST & _).
    rewrite (HPOST eq_refl). cbv zeta.
    change (Post (Api (RestApiService_SimpleRestApiService proto)) ctx
              (RequestPayload (RestApiService_SimpleRestApiService proto)) db)
      with (MyServiceApi_Post dc ctx (Some claim) db).
    by rewrite (Post_exists dc ctx claim old db Hold). }
  rewrite Hran. cbn [fst snd]. split; [by split|].
  rewrite (rest_facts.RestApiService_Rollback_POST proto ctx db claim eq_refl
             eq_refl).
  cbv zeta.
  change (Delete (Api (RestApiService_SimpleRestApiService proto)) ctx
            (object_name claim) db)
    with (MyServiceApi_Delete dc ctx (object_name claim) db).
  by rewrite (Delete_exists dc ctx (object_name claim) old db Hold).
Qed.

Lemma Get_exists (dc : string) ctx (name : string) (old : object)
    (db : FakeDb) :
  fakeDb db !! (dc +:+ name) = Some old ->
  MyServiceApi_Get dc ctx name db = ((Some old, None), db).
Proof. intros Hold. unfold MyServiceApi_Get, FakeDbRead. by rewrite Hold. Qed.

Lemma Put_missing (dc : string) ctx (claim : object) (db : FakeDb) :
  fakeDb db !! (dc +:+ ClaimName claim) = None ->
  MyServiceApi_Put dc ctx (Some claim) db = ((None, errors_New "not found"), db).
Proof.
  intros Hnone. unfold MyServiceApi_Put. cbv zeta. unfold FakeDbRead.
  change (ClaimName (MemoryClaim (dc +:+ ClaimName claim) (MemoryInMb claim)))
    with (dc +:+ ClaimName claim).
  by rewrite Hnone.
Qed.

(** X27. An adapter that updates (PUT) over [MyServiceApi]: [Check] takes
    as backup the stored claim, whose name carries the datacenter already;
    [Rollback] puts this backup, [Put] prefixes the datacenter once more,
    and where no claim has that doubled name the rollback fails with "not
    found" and restores nothing. *)
Theorem PUT_rollback_not_found (dc apiName name : string) (payload : Nameable)
    (old : object) ctx (db db2 : FakeDb) :
  let proto :=
    RestApiAsService (MyServiceApi dc) REST_API_PUT apiName name payload in
  let checked := RestApiService_Check proto ctx db in
  fakeDb db !! (dc +:+ name) = Some old ->
  fakeDb db2 !! (dc +:+ ClaimName old) = None ->
  fst (fst checked) = Returns None /\
  backup (snd (fst checked)) = Some old /\
  snd checked = db /\
  RestApiService_Rollback (snd (fst checked)) ctx db2 =
    (Returns (errors_New "not found"), snd (fst checked), db2).
Proof.
  intros proto checked Hold Hnone. subst checked.
  rewrite (rest_facts.RestApiService_Check_backup proto ctx db
             (or_introl eq_refl)).
  cbv zeta.
  change (Get (Api (RestApiService_SimpleRestApiService proto)) ctx
            (RequestName (RestApiService_SimpleRestApiService proto)) db)
    with (MyServiceApi_Get dc ctx name db).
  rewrite (Get_exists dc ctx name old db Hold). cbn [fst snd].
  repeat (split; [reflexivity|]).
  rewrite (rest_facts.RestApiService_Rollback_PUT
             (store_backup proto (Some old)) ctx db2 eq_refl).
  cbv zeta.
  change (Put (Api (RestApiService_SimpleRestApiService
                      (store_backup proto (Some old)))) ctx
            (backup (store_backup proto (Some old))) db2)
    with (MyServiceApi_Put dc ctx (Some old) db2).
  by rewrite (Put_missing dc ctx old db2 Hnone).
Qed.

(** X28. [MemoryApiCreate], the example as a service: a [Rollback] before
    any [Run] changes nothing; and after a [Check] that passed, [Run]
    followed by [Rollback] leaves the store as it was before [Run], the
    claim gone and the counter back (the counter being an [int]). *)
Theorem MemoryApiCreate_rollback (c : MemoryApiCreate) ctx (db : FakeDb) :
  let checked := MemoryApiCreate_Check c ctx db in
  let ran := MemoryApiCreate_Run (snd (fst checked)) ctx db in
  int (AvailableMemoryMb db) = AvailableMemoryMb db ->
  (ModifiedDb c = false ->
   MemoryApiCreate_Rollback c ctx db = (Returns None, c, db) /\
   MemoryApiCreate_Rollback (snd (fst checked)) ctx db =
     (Returns None, snd (fst checked), db)) /\
  (fst (fst checked) = Returns None ->
   ModifiedDb (snd (fst ran)) = true /\
   snd (MemoryApiCreate_Rollback (snd (fst ran)) ctx (snd ran)) = db).
Proof.
  intros checked ran Hint. subst ran checked. split.
  - intros Hmod. unfold MemoryApiCreate_Rollback, MemoryApiCreate_Check.
    cbv zeta. rewrite Hmod. split; [reflexivity|].
    destruct (negb _); [reflexivity|].
    by destruct (_ <? 0)%Z.
  - unfold MemoryApiCreate_Check. cbv zeta. simpl.
    unfold FakeDbRead.
    destruct (fakeDb db !! (Datacenter c +:+ ClaimName (Claim c)))
      as [old|] eqn:Hold; [discriminate|]. simpl.
    destruct (_ <? 0)%Z; [discriminate|]. intros _.
    unfold MemoryApiCreate_Run. cbv zeta. simpl.
    assert (Hdb :
      FakeDbUpdateAvailableMemory (MemoryInMb (Claim c))
        (FakeDbDelete (Datacenter c +:+ ClaimName (Claim c))
           (FakeDbWrite
              (MemoryClaim (Datacenter c +:+ ClaimName (Claim c))
                 (MemoryInMb (Claim c)))
              (FakeDbUpdateAvailableMemory (int (- MemoryInMb (Claim c))) db)))
      = db).
    { unfold FakeDbDelete, FakeDbUpdateAvailableMemory, FakeDbWrite. simpl.
      destruct db as [m available]. simpl in *. f_equal.
      - by apply delete_insert_id.
      - unfold MemoryInMb. rewrite int_add_l.
        replace (available + int (- object_data (Claim c))
                 + object_data (Claim c))%Z
          with (available + object_data (Claim c)
                + int (- object_data (Claim c)))%Z by lia.
        rewrite int_add_r, <- Hint. f_equal. lia. }
    destruct (_ <? 0)%Z; simpl; by split.
Qed.

End store_facts.

(* ===================================================================== *)
(** * Log levels                                                          *)
(* ===================================================================== *)

Module logging_facts.
Import logging.

Lemma ToUpper_ascii_upper (s : string) :
  upper_letters s = true -> ToUpper_ascii s = s.
Proof.
  induction s as [|c s IH]; simpl; [reflexivity|].
  intros [Hc Hs]%andb_true_iff. rewrite (IH Hs). f_equal.
  unfold upper_letter in Hc. unfold upper.
  apply andb_true_iff in Hc as [_ Hle]. apply Nat.leb_le in Hle.
  destruct (97 <=? Ascii.nat_of_ascii c)%nat eqn:Hge; [|reflexivity].
  apply Nat.leb_le in Hge. lia.
Qed.

Section Parse.
Variable ToUpper : string -> string.

(** X29. The five level names and their numbers go back and forth:
    [ParseStringLogLevel(ParseIntLogLevel(level))] is the level for DEBUG,
    INFO, WARNING, ERROR and CRITICAL.  Every other number, NOTSET
    included, is named "NOTSET", and that name is not accepted:
    it parses to NOTSET with the error "invalid format". *)
Theorem level_names (level : Z) :
  (forall s, upper_letters s = true -> ToUpper s = s) ->
  (level ∈ [DEBUG; INFO; WARNING; ERROR; CRITICAL] ->
   ParseStringLogLevel ToUpper (ParseIntLogLevel level) = (level, None)) /\
  (level ∉ [DEBUG; INFO; WARNING; ERROR; CRITICAL] ->
   ParseIntLogLevel level = "NOTSET" /\
   ParseStringLogLevel ToUpper (ParseIntLogLevel level) =
   (NOTSET, errors_New "invalid format")).
Proof.
  intros Hupper.
  assert (Hparse : forall s, upper_letters s = true ->
                   ParseStringLogLevel ToUpper s =
                   ParseStringLogLevel (fun s => s) s).
  { intros s Hs. unfold ParseStringLogLevel. by rewrite (Hupper s Hs). }
  split.
  - intros Hin.
    repeat (apply elem_of_cons in Hin as [-> | Hin];
            [by rewrite Hparse | ]).
    by apply elem_of_nil in Hin.
  - intros Hnot. unfold ParseIntLogLevel.
    destruct (Z.eqb_spec level DEBUG) as [->|_];
      [exfalso; apply Hnot; set_solver|].
    destruct (Z.eqb_spec level INFO) as [->|_];
      [exfalso; apply Hnot; set_solver|].
    destruct (Z.eqb_spec level WARNING) as [->|_];
      [exfalso; apply Hnot; set_solver|].
    destruct (Z.eqb_spec level ERROR) as [->|_];
      [exfalso; apply Hnot; set_solver|].
    destruct (Z.eqb_spec level CRITICAL) as [->|_];
      [exfalso; apply Hnot; set_solver|].
    split; [reflexivity|]. by rewrite Hparse.
Qed.

(** X30. [SetLevelFromString] with a name that does not parse sets the
    level to NOTSET, the level at which everything is printed, and prints
    one line at level ERROR with the error "invalid format", whatever the
    level was before; with a name that parses it sets that level and prints
    nothing. *)
Theorem SetLevelFromString_spec (logLevel : string) (l : Logger) :
  let parsed := ParseStringLogLevel ToUpper logLevel in
  SetLevelFromString ToUpper logLevel l =
  match snd parsed with
  | None => {| currentLogLevel := fst parsed; printed := printed l |}
  | Some _ =>
      {| currentLogLevel := NOTSET;
         printed :=
           printed l ++
           [("[%s] [logging](SetLevelFromString): %s" +:+ newline,
             [VString "ERROR"; VString "invalid format"])] |}
  end.
Proof.
  intros parsed. subst parsed.
  unfold SetLevelFromString, ParseStringLogLevel.
  repeat (destruct (String.eqb (ToUpper logLevel) _); [reflexivity|]).
  reflexivity.
Qed.

End Parse.
End logging_facts.

(* ===================================================================== *)
(** * The properties at work                                              *)
(* ===================================================================== *)

Module sample_facts.
Import task orchestration staged example sample.

Local Abbreviation RunServiceAction :=
  (orchestration.RunServiceAction quiet silent).
Local Abbreviation CallServices := (orchestration.CallServices quiet silent).
Local Abbreviation CallStagedServices :=
  (orchestration.CallStagedServices quiet silent).
Local Abbreviation run_goroutine := (orchestration.run_goroutine quiet silent).

(** Two tasks that return nil, under [context.Background()]. *)
Lemma Run_without_deadline_witness :
  cancellable Background = false /\
  AnyError (fst (task.Run [succeeding; succeeding] Background fifo tt)) = false.
Proof.
  split; [reflexivity|].
  apply (runner_facts.Run_without_deadline
           [succeeding; succeeding] Background fifo tt eq_refl).
  intros t s Hin.
  apply elem_of_cons in Hin as [-> | Hin]; [reflexivity|].
  apply list_elem_of_singleton in Hin as ->. reflexivity.
Defined.

(** A panic and a success, the context done before either is through. *)
Lemma Run_deadline_first_witness :
  cancellable (WithCancel Background) = true /\
  fst (task.Run [panicking; succeeding] (WithCancel Background) late tt) =
  [Some "timeout"; Some "timeout"].
Proof.
  split; [reflexivity|].
  apply (runner_facts.Run_deadline_first
           [panicking; succeeding] (WithCancel Background) late tt eq_refl).
  intros i _. reflexivity.
Defined.

(** An action that is none of the four. *)
Lemma RunServiceAction_invalid_action_witness :
  let r := RunServiceAction Background [step; refusing] "PAUSE" (at_ 0) in
  ~ valid_action "PAUSE" /\
  world (snd r) = 0%Z /\
  trace (snd r) = [EvRunServiceAction "PAUSE" [step; refusing]] /\
  length (fst r) = 2 /\
  Forall (fun err =>
            err = errors_New
                    ("ProtoService Run called with invalid action (did you init?): "
                       +:+ "PAUSE") \/
            err = errors_New "timeout") (fst r).
Proof.
  intros r.
  assert (Hinvalid : ~ valid_action "PAUSE").
  { unfold valid_action. intros [H|[H|[H|H]]]; discriminate. }
  destruct (service_facts.RunServiceAction_invalid_action quiet silent
              Background [step; refusing] "PAUSE" (at_ 0) Hinvalid)
    as (Hst & Hlen & Hall).
  split; [exact Hinvalid|].
  split; [exact (f_equal world Hst)|].
  split; [exact (f_equal trace Hst)|].
  split; [exact Hlen | exact Hall].
Defined.

(** With [SkipRollback]: a batch, and two stages of which the second
    fails. *)
Lemma SkipRollback_no_goroutine_witness :
  SkipRollback skipping = true /\
  spawned (snd (CallServices Background [step] skipping (at_ 0))) = [] /\
  spawned (snd (CallStagedServices Background [[step]; [refusing]] skipping
                  (at_ 0))) = [].
Proof.
  split; [reflexivity|].
  exact (service_facts.SkipRollback_no_goroutine quiet silent Background
           [step] [[step]; [refusing]] skipping (at_ 0) eq_refl).
Defined.


(** Two dry-run wrappers are run: the counter stays, both slots are nil. *)
Lemma MakeDryRun_batch_witness :
  let r := RunServiceAction Background (MakeDryRun <$> [step; refusing])
             SERVICE_RUN (at_ 0) in
  world (snd r) = 0%Z /\ fst r = [None; None].
Proof.
  intros r.
  destruct (service_facts.MakeDryRun_batch quiet silent Background
              [step; refusing] SERVICE_RUN (at_ 0) (or_introl eq_refl))
    as (Hworld & _ & Hnil).
  split; [exact Hworld | exact (Hnil eq_refl)].
Defined.

(** The whole call over a wrapper whose checks pass. *)
Lemma MakeDryRun_CallServices_witness :
  let wrapped := MakeDryRun <$> [step] in
  let r := CallServices Background wrapped plain (at_ 0) in
  cancellable Background = false /\
  AnyError (fst (RunServiceAction Background wrapped SERVICE_CHECK (at_ 0)))
    = false /\
  fst r = ([None], None) /\ spawned (snd r) = [] /\ world (snd r) = 0%Z.
Proof.
  intros wrapped r.
  assert (Hcheck : AnyError (fst (RunServiceAction Background wrapped
                                    SERVICE_CHECK (at_ 0))) = false)
    by (vm_compute; reflexivity).
  destruct (service_facts.MakeDryRun_CallServices quiet silent Background
              [step] plain (at_ 0) eq_refl Hcheck) as (Hr & Hspawned & Hworld).
  split; [reflexivity|]. split; [exact Hcheck|].
  split; [exact Hr|]. split; [exact Hspawned|].
  etransitivity; [exact Hworld|]. vm_compute. reflexivity.
Defined.


(** Two services on [SimpleService]: the call succeeds; were they rolled
    back, each would answer "rollback not implemented". *)
Lemma SimpleService_CallServices_witness :
  let r := CallServices Background [step; step] plain (at_ 0) in
  let rollback :=
    RunServiceAction Background [step; step] SERVICE_ROLLBACK (snd r) in
  cancellable Background = false /\
  (snd (fst r) = None \/ snd (fst r) = errors_New "one or more runs failed") /\
  fst rollback =
    [Some "rollback not implemented"; Some "rollback not implemented"] /\
  world (snd rollback) = world (snd r).
Proof.
  intros r rollback.
  destruct (service_facts.SimpleService_CallServices quiet silent Background
              [step; step] plain (at_ 0)) as (Hsummary & Hrollback).
  - intros service Hin.
    assert (service = step) as ->.
    { repeat (apply elem_of_cons in Hin as [-> | Hin]; [reflexivity|]).
      by apply elem_of_nil in Hin. }
    split; reflexivity.
  - reflexivity.
  - split; [reflexivity|]. split; [exact Hsummary|].
    exact (Hrollback (snd r)).
Defined.

(** A service that passes and runs, under [context.Background()]: the
    check of the batch, then its run. *)
Lemma CallServices_phases_witness :
  let r := CallServices Background [step] plain (at_ 0) in
  cancellable Background = false /\
  trace (snd r) =
    [EvRunServiceAction SERVICE_CHECK [step]; EvInvoke SERVICE_CHECK step;
     EvRunServiceAction SERVICE_RUN [step]; EvInvoke SERVICE_RUN step] /\
  exists chk hook1 rec run hook2,
    trace (snd r) = trace (at_ 0) ++ chk ++ hook1 ++ rec ++ run ++ hook2 /\
    phase SERVICE_CHECK [step] chk /\
    (hook1 = [] \/
     hook1 = [EvOnActionError SERVICE_CHECK [step]
                (fst (RunServiceAction Background [step] SERVICE_CHECK (at_ 0)))]) /\
    (rec = [] \/ phase SERVICE_RECOVER [step] rec) /\
    (run = [] \/ phase SERVICE_RUN [step] run) /\
    (hook2 = [] \/
     hook2 = [EvOnActionError SERVICE_RUN [step] (fst (fst r))]).
Proof.
  intros r. split; [reflexivity|]. split; [reflexivity|].
  exact (service_facts.CallServices_phases quiet silent Background [step] plain
           (at_ 0) eq_refl).
Defined.

End sample_facts.

Module store_examples.
Import task orchestration staged example example_service.

Lemma total_fresh : total fresh = 2048%Z.
Proof. vm_compute. reflexivity. Qed.

(** An adapter that creates in DC1_BLUE, on the empty store: each of its
    methods leaves the 2048 MB accounted for. *)
Lemma RestApiService_keeps_witness :
  let proto :=
    RestApiAsService (MyServiceApi "DC1_BLUE") REST_API_POST
      "MyService Create DC1_BLUE" "" (Some small) in
  total fresh = 2048%Z /\
  total (snd (RestApiService_Check proto Background fresh)) = 2048%Z /\
  total (snd (RestApiService_Recover proto Background fresh)) = 2048%Z /\
  total (snd (RestApiService_Run proto Background fresh)) = 2048%Z /\
  total (snd (RestApiService_Rollback proto Background fresh)) = 2048%Z.
Proof.
  intros proto. split; [exact total_fresh|].
  apply (store_facts.RestApiService_keeps (fun db => total db = 2048%Z)
           proto Background fresh).
  - apply store_facts.MyServiceApi_keeps_total.
  - intros recovery ctx a Hrecovery. discriminate Hrecovery.
  - exact total_fresh.
Defined.

(** The claim of 100 MB is created a second time in DC1_BLUE: the run
    fails, and the rollback deletes the claim of the first time. *)
Lemma POST_rollback_deletes_witness :
  let proto :=
    RestApiAsService (MyServiceApi "DC1_BLUE") REST_API_POST
      "MyService Create DC1_BLUE" "" (Some small) in
  let ran := RestApiService_Run proto Background claimed in
  let rolled := RestApiService_Rollback (snd (fst ran)) Background (snd ran) in
  fakeDb claimed !! "DC1_BLUEclaim" = Some (MemoryClaim "DC1_BLUEclaim" 100) /\
  AvailableMemoryMb claimed = 1648%Z /\
  fst (fst ran) = Returns (errors_New "already exists") /\
  fst (fst rolled) = Returns None /\
  fakeDb (snd rolled) !! "DC1_BLUEclaim" = None /\
  AvailableMemoryMb (snd rolled) = 1748%Z.
Proof.
  intros proto ran rolled.
  assert (Hold : fakeDb claimed !! ("DC1_BLUE" +:+ ClaimName small) =
                 Some (MemoryClaim "DC1_BLUEclaim" 100))
    by (vm_compute; reflexivity).
  destruct (store_facts.POST_rollback_deletes "DC1_BLUE"
              "MyService Create DC1_BLUE" "" small
              (MemoryClaim "DC1_BLUEclaim" 100) Background claimed Hold)
    as ((Hran & _) & Hrolled & Hdb & Hmemory).
  split; [exact Hold|]. split; [vm_compute; reflexivity|].
  split; [exact Hran|]. split; [exact Hrolled|]. split.
  - etransitivity; [exact (f_equal (fun m => m !! "DC1_BLUEclaim") Hdb)|].
    apply lookup_delete_eq.
  - etransitivity; [exact Hmemory|]. vm_compute. reflexivity.
Defined.

(** The claim of DC1_BLUE is to be updated to 600 MB: the check backs up
    the claim named "DC1_BLUEclaim", and the rollback looks for
    "DC1_BLUEDC1_BLUEclaim". *)
Lemma PUT_rollback_not_found_witness :
  let proto :=
    RestApiAsService (MyServiceApi "DC1_BLUE") REST_API_PUT
      "MyService Update DC1_BLUE" "claim" (Some large) in
  let checked := RestApiService_Check proto Background claimed in
  fakeDb claimed !! "DC1_BLUEclaim" = Some (MemoryClaim "DC1_BLUEclaim" 100) /\
  fakeDb claimed !! "DC1_BLUEDC1_BLUEclaim" = None /\
  fst (fst checked) = Returns None /\
  backup (snd (fst checked)) = Some (MemoryClaim "DC1_BLUEclaim" 100) /\
  fst (fst (RestApiService_Rollback (snd (fst checked)) Background claimed)) =
    Returns (errors_New "not found") /\
  snd (RestApiService_Rollback (snd (fst checked)) Background claimed) = claimed.
Proof.
  intros proto checked.
  assert (Hold : fakeDb claimed !! ("DC1_BLUE" +:+ "claim") =
                 Some (MemoryClaim "DC1_BLUEclaim" 100))
    by (vm_compute; reflexivity).
  assert (Hnone : fakeDb claimed !!
                    ("DC1_BLUE" +:+ ClaimName (MemoryClaim "DC1_BLUEclaim" 100))
                  = None)
    by (vm_compute; reflexivity).
  destruct (store_facts.PUT_rollback_not_found "DC1_BLUE"
              "MyService Update DC1_BLUE" "claim" (Some large)
              (MemoryClaim "DC1_BLUEclaim" 100) Background claimed claimed
              Hold Hnone)
    as (Hcheck & Hbackup & _ & Hrollback).
  split; [exact Hold|]. split; [exact Hnone|].
  split; [exact Hcheck|]. split; [exact Hbackup|].
  split; [exact (f_equal (fun x => fst (fst x)) Hrollback)|].
  exact (f_equal snd Hrollback).
Defined.

(** The service that creates the claim of 100 MB in DC1_BLUE, on the empty
    store: checked, run and rolled back, the store is empty again. *)
Lemma MemoryApiCreate_rollback_witness :
  let c := new "DC1_BLUE" small in
  let checked := MemoryApiCreate_Check c Background fresh in
  let ran := MemoryApiCreate_Run (snd (fst checked)) Background fresh in
  int (AvailableMemoryMb fresh) = AvailableMemoryMb fresh /\
  fst (fst checked) = Returns None /\
  AvailableMemoryMb (snd ran) = 1948%Z /\
  MemoryApiCreate_Rollback c Background fresh = (Returns None, c, fresh) /\
  snd (MemoryApiCreate_Rollback (snd (fst ran)) Background (snd ran)) = fresh.
Proof.
  intros c checked ran.
  assert (Hint : int (AvailableMemoryMb fresh) = AvailableMemoryMb fresh)
    by (vm_compute; reflexivity).
  assert (Hcheck : fst (fst checked) = Returns None)
    by (vm_compute; reflexivity).
  destruct (store_facts.MemoryApiCreate_rollback c Background fresh Hint)
    as [Hbefore Hafter].
  split; [exact Hint|]. split; [exact Hcheck|].
  split; [vm_compute; reflexivity|].
  split; [exact (proj1 (Hbefore eq_refl))|].
  exact (proj2 (Hafter Hcheck)).
Defined.

(** A creation and an adapter with the action PATCH, over the API of
    DC1_BLUE with its calls recorded: one call, and none. *)
Lemma RestApiService_Run_calls_witness :
  let api := MyServiceApi "DC1_BLUE" in
  let proto :=
    RestApiAsService (logged api) REST_API_POST "MyService Create DC1_BLUE" ""
      (Some small) in
  let unknown :=
    RestApiAsService (logged api) "PATCH" "MyService Patch DC1_BLUE" ""
      (Some small) in
  snd (snd (RestApiService_Run proto Background (fresh, []))) =
    [CallPost (Some small)] /\
  snd (snd (RestApiService_Run unknown Background (fresh, []))) = [] /\
  fst (fst (RestApiService_Run unknown Background (fresh, []))) =
    Returns (errors_New
               "unrecognized RestApiService Action (did you init?): PATCH").
Proof.
  intros api proto unknown.
  destruct (adapter_facts.RestApiService_Run_calls api proto Background fresh []
              eq_refl) as (Hcalls & _).
  destruct (adapter_facts.RestApiService_Run_calls api unknown Background fresh
              [] eq_refl) as (Hnone & _ & Hunknown).
  split; [exact Hcalls|]. split; [exact Hnone|].
  etransitivity; [apply (f_equal (fun x => fst (fst x))), Hunknown|].
  - intros Hin.
    repeat (apply elem_of_cons in Hin as [Heq | Hin]; [discriminate Heq|]).
    by apply elem_of_nil in Hin.
  - reflexivity.
Defined.

End store_examples.

Module logging_examples.
Import logging.

(** With the upper-casing of ASCII: DEBUG and its number go back and
    forth, and the name of level 0 is not accepted. *)
Lemma level_names_witness :
  ParseStringLogLevel ToUpper_ascii (ParseIntLogLevel DEBUG) = (DEBUG, None) /\
  ParseIntLogLevel NOTSET = "NOTSET" /\
  ParseStringLogLevel ToUpper_ascii (ParseIntLogLevel NOTSET) =
  (NOTSET, errors_New "invalid format").
Proof.
  destruct (logging_facts.level_names ToUpper_ascii DEBUG
              logging_facts.ToUpper_ascii_upper) as [Hin _].
  destruct (logging_facts.level_names ToUpper_ascii NOTSET
              logging_facts.ToUpper_ascii_upper) as [_ Hnot].
  split.
  - apply Hin. apply list_elem_of_here.
  - apply Hnot. intros Hin'.
    repeat (apply elem_of_cons in Hin' as [Heq | Hin']; [discriminate Heq|]).
    by apply elem_of_nil in Hin'.
Defined.

End logging_examples.
